(** * VoterFile: the bulk-import and list-population pipeline

    A shallow embedding of the import route (server/routes/import),
    the list route (server/routes/lists), the voter search route, the
    stand-alone import script (scripts/import-voters) and the parts of
    shared/schema.ts they rely on, followed by the properties the
    specification states about them.

    Conventions of the embedding.
    - A JavaScript string is a [string]; its characters are the code
      units below 256.
    - A JavaScript object used as a dictionary (a CSV row, the column
      mapping, a mapped row) is an association list in property order;
      member names inherited from [Object.prototype] are not modelled.
    - A table of the store is the list of its rows in insertion order;
      [serial] keys are drawn from a counter kept beside the tables.
    - The handlers of one request run one after the other: the stream
      is paused while a batch is written, so the embedding threads one
      state through the events in the order they are delivered. *)

From Stdlib Require Import String Ascii List Arith Bool Lia ZArith DecimalString
  Permutation.
From Equations Require Import Equations.
Import ListNotations.
Open Scope string_scope.

(** ** JavaScript string primitives used by the pipeline *)

Module Js.

Definition dquote : ascii := "034"%char.
Definition comma : ascii := ","%char.
Definition newline : ascii := "010"%char.
Definition slash : ascii := "/"%char.
Definition space : ascii := " "%char.

Definition str (c : ascii) : string := String c EmptyString.

(** White space as [String.prototype.trim] sees it, for code units
    below 256: TAB, LF, VT, FF, CR, SPACE and NBSP. *)
Definition isWhiteSpace (c : ascii) : bool :=
  let n := nat_of_ascii c in
  (Nat.eqb n 9 || Nat.eqb n 10 || Nat.eqb n 11 || Nat.eqb n 12
   || Nat.eqb n 13 || Nat.eqb n 32 || Nat.eqb n 160)%bool.

Fixpoint trimStart (s : string) : string :=
  match s with
  | EmptyString => EmptyString
  | String c r => if isWhiteSpace c then trimStart r else s
  end.

Fixpoint trimEnd (s : string) : string :=
  match s with
  | EmptyString => EmptyString
  | String c r =>
      match trimEnd r with
      | EmptyString => if isWhiteSpace c then EmptyString else str c
      | t => String c t
      end
  end.

Definition trim (s : string) : string := trimEnd (trimStart s).

(** [s.includes(c)] for a one-character needle. *)
Fixpoint includes (c : ascii) (s : string) : bool :=
  match s with
  | EmptyString => false
  | String d r => (Ascii.eqb d c || includes c r)%bool
  end.

(** [s.split(c)] for a one-character separator: never empty. *)
Fixpoint split (c : ascii) (s : string) : list string :=
  match s with
  | EmptyString => [EmptyString]
  | String d r =>
      if Ascii.eqb d c then EmptyString :: split c r
      else match split c r with
           | h :: t => String d h :: t
           | [] => [str d]
           end
  end.

(** [s.padStart(2, '0')]. *)
Definition padStart2 (s : string) : string :=
  match s with
  | EmptyString => "00"
  | String c EmptyString => String "0"%char s
  | _ => s
  end.

(** A string is truthy when it is not empty. *)
Definition truthy (s : string) : bool :=
  match s with EmptyString => false | _ => true end.

End Js.

(** ** The line parser

    Both copies of [parseCSVLine] run the same loop; the route's copy
    trims a field when it pushes it, the script's copy pushes it as it
    is.  The loop is written once, over the function applied at a push. *)

Module Csv.

Record scanner := mkScanner
  { result : list string; current : string; inQuotes : bool }.

Definition start : scanner :=
  {| result := []; current := EmptyString; inQuotes := false |}.

Section Loop.
Variable finish : string -> string.

(** One pass of [for (let i = 0; i < line.length; i++)]; the branch
    that reads [line[i + 1]] consumes two characters. *)
Fixpoint scan (line : string) (st : scanner) : scanner :=
    match line with
    | EmptyString => st
    | String char rest =>
        if Ascii.eqb char Js.dquote then
          match inQuotes st, rest with
          | true, String next rest' =>
              if Ascii.eqb next Js.dquote
              then scan rest' {| result := result st;
                                 current := current st ++ Js.str Js.dquote;
                                 inQuotes := true |}
              else scan rest {| result := result st;
                                current := current st;
                                inQuotes := false |}
          | q, _ => scan rest {| result := result st;
                                 current := current st;
                                 inQuotes := negb q |}
          end
        else if (Ascii.eqb char Js.comma && negb (inQuotes st))%bool then
          scan rest {| result := result st ++ [finish (current st)];
                       current := EmptyString;
                       inQuotes := inQuotes st |}
        else
          scan rest {| result := result st;
                       current := current st ++ Js.str char;
                       inQuotes := inQuotes st |}
    end.

Definition parseWith (line : string) : list string :=
  let st := scan line start in
  result st ++ [finish (current st)].

End Loop.

End Csv.

(** ** The store: the tables of shared/schema.ts the pipeline touches

    Columns no property reads are left out.  A nullable column is an
    [option]; the store takes whatever text it is offered for a column
    (length limits and date syntax are not modelled), and enforces NOT
    NULL columns and the unique indexes the schema declares.  An index
    declared with [index(...)] is not unique; only the primary key and
    the indexes declared with [uniqueIndex(...)] are. *)

Module Voters.

Record row := mkRow
  { id : nat;
    organizationId : nat;
    stateVoterId : option string;
    firstName : option string;
    lastName : option string;
    streetName : option string;
    city : option string;
    zipCode : option string;
    phone : option string;
    email : option string;
    countyCode : option string;
    precinctCode : option string;
    legislativeDistrict : option string;
    stateSenateDistrict : option string;
    congressionalDistrict : option string;
    supportLevel : option Z;
    registrationDate : option string }.

(** [voters_state_id_idx] and the other indexes of the table are
    declared with [index]; the serial primary key is the one unique
    index. *)
Definition uniqueIndexes : list (list string) := [["id"]].

End Voters.

Module ElectionHistory.

Record row := mkRow
  { id : nat;
    voterId : nat;
    organizationId : nat;
    electionDate : string;
    electionDescription : option string;
    electionType : option string;
    votingMethod : option string }.

(** [election_voter_idx], [election_org_idx], [election_date_idx] and
    [election_type_idx] are declared with [index]. *)
Definition uniqueIndexes : list (list string) := [["id"]].

Definition agree (column : string) (a b : row) : bool :=
  if String.eqb column "id" then Nat.eqb (id a) (id b)
  else if String.eqb column "voterId" then Nat.eqb (voterId a) (voterId b)
  else if String.eqb column "organizationId"
       then Nat.eqb (organizationId a) (organizationId b)
  else if String.eqb column "electionDate"
       then String.eqb (electionDate a) (electionDate b)
  else false.

(** Two rows collide when they agree on every column of some unique
    index. *)
Definition collide (a b : row) : bool :=
  existsb (fun index => forallb (fun c => agree c a b) index) uniqueIndexes.

End ElectionHistory.

(** [ListFilterCriteria]: an absent list and an empty one are both
    falsy under [?.length], so an absent field is the empty list; an
    absent flag is [false]. *)
Module Criteria.

Record t := mk
  { congressionalDistrict : list string;
    legislativeDistrict : list string;
    stateSenateDistrict : list string;
    county : list string;
    city : list string;
    zipCode : list string;
    supportLevel : list Z;
    hasPhone : bool;
    hasEmail : bool }.

End Criteria.

Module VoterLists.

Record row := mkRow
  { id : nat;
    organizationId : nat;
    name : string;
    filterCriteria : option Criteria.t }.

End VoterLists.

Module VoterListMembers.

Record row := mkRow
  { listId : nat;
    voterId : nat;
    addedBy : option nat }.

(** [list_voter_idx] is declared with [uniqueIndex] on (listId, voterId). *)
Definition collide (a b : row) : bool :=
  (Nat.eqb (listId a) (listId b) && Nat.eqb (voterId a) (voterId b))%bool.

End VoterListMembers.

Module Store.

Record t := mk
  { voters : list Voters.row;
    nextVoterId : nat;
    electionHistory : list ElectionHistory.row;
    nextElectionId : nat;
    voterLists : list VoterLists.row;
    voterListMembers : list VoterListMembers.row }.

Definition empty : t :=
  {| voters := []; nextVoterId := 1;
     electionHistory := []; nextElectionId := 1;
     voterLists := []; voterListMembers := [] |}.

Definition withVoters (vs : list Voters.row) (n : nat) (s : t) : t :=
  {| voters := vs; nextVoterId := n;
     electionHistory := electionHistory s;
     nextElectionId := nextElectionId s;
     voterLists := voterLists s;
     voterListMembers := voterListMembers s |}.

Definition withElections (es : list ElectionHistory.row) (n : nat) (s : t) : t :=
  {| voters := voters s; nextVoterId := nextVoterId s;
     electionHistory := es; nextElectionId := n;
     voterLists := voterLists s;
     voterListMembers := voterListMembers s |}.

Definition withLists (ls : list VoterLists.row) (s : t) : t :=
  {| voters := voters s; nextVoterId := nextVoterId s;
     electionHistory := electionHistory s;
     nextElectionId := nextElectionId s;
     voterLists := ls;
     voterListMembers := voterListMembers s |}.

Definition withMembers (ms : list VoterListMembers.row) (s : t) : t :=
  {| voters := voters s; nextVoterId := nextVoterId s;
     electionHistory := electionHistory s;
     nextElectionId := nextElectionId s;
     voterLists := voterLists s;
     voterListMembers := ms |}.

(** [eq(column, text)] on a nullable text column: NULL equals nothing. *)
Definition eqText (column : option string) (text : string) : bool :=
  match column with
  | Some v => String.eqb v text
  | None => false
  end.

(** [inArray(column, values)]. *)
Definition inArray (column : option string) (values : list string) : bool :=
  match column with
  | Some v => existsb (String.eqb v) values
  | None => false
  end.

Definition inArrayZ (column : option Z) (values : list Z) : bool :=
  match column with
  | Some v => existsb (Z.eqb v) values
  | None => false
  end.

(** [column IS NOT NULL AND column != ''] *)
Definition present (column : option string) : bool :=
  match column with
  | Some v => Js.truthy v
  | None => false
  end.

(** The primary key of [voters] is serial: the stored keys are
    distinct and below the counter. *)
Definition keysFresh (s : t) : Prop :=
  NoDup (map Voters.id (voters s))
  /\ Forall (fun v => Voters.id v < nextVoterId s) (voters s).

End Store.

(** ** Slicing a list into batches

    [for (let i = 0; i < xs.length; i += size) xs.slice(i, i + size)]
    visits the slices below, in order. *)

Definition batchSize : nat := 1000.

(** Slices of [S n] elements. *)
Equations? slicesOf {A : Type} (n : nat) (xs : list A) : list (list A)
  by wf (length xs) lt :=
slicesOf n [] := [];
slicesOf n (x :: xs) :=
  firstn (S n) (x :: xs) :: slicesOf n (skipn (S n) (x :: xs)).
Proof.
  rewrite length_skipn. lia.
Qed.

Definition slices {A : Type} (xs : list A) : list (list A) :=
  slicesOf (pred batchSize) xs.

(** ** The list route: filter builder and populate (server/routes/lists) *)

Module ListsRoute.

Definition nonEmpty {A : Type} (xs : list A) : bool :=
  match xs with [] => false | _ => true end.

Definition when (b : bool) (c : Voters.row -> bool) : list (Voters.row -> bool) :=
  if b then [c] else [].

(** The [conditions] array of the populate handler, in the order the
    handler pushes them. *)
Definition conditions (organizationId : nat) (criteria : Criteria.t)
  : list (Voters.row -> bool) :=
  [fun v => Nat.eqb (Voters.organizationId v) organizationId]
  ++ when (nonEmpty (Criteria.congressionalDistrict criteria))
       (fun v => Store.inArray (Voters.congressionalDistrict v)
                   (Criteria.congressionalDistrict criteria))
  ++ when (nonEmpty (Criteria.legislativeDistrict criteria))
       (fun v => Store.inArray (Voters.legislativeDistrict v)
                   (Criteria.legislativeDistrict criteria))
  ++ when (nonEmpty (Criteria.stateSenateDistrict criteria))
       (fun v => Store.inArray (Voters.stateSenateDistrict v)
                   (Criteria.stateSenateDistrict criteria))
  ++ when (nonEmpty (Criteria.county criteria))
       (fun v => Store.inArray (Voters.countyCode v) (Criteria.county criteria))
  ++ when (nonEmpty (Criteria.city criteria))
       (fun v => Store.inArray (Voters.city v) (Criteria.city criteria))
  ++ when (nonEmpty (Criteria.zipCode criteria))
       (fun v => Store.inArray (Voters.zipCode v) (Criteria.zipCode criteria))
  ++ when (nonEmpty (Criteria.supportLevel criteria))
       (fun v => Store.inArrayZ (Voters.supportLevel v)
                   (Criteria.supportLevel criteria))
  ++ when (Criteria.hasPhone criteria) (fun v => Store.present (Voters.phone v))
  ++ when (Criteria.hasEmail criteria) (fun v => Store.present (Voters.email v)).

(** [and(...conditions)] *)
Definition and_ (cs : list (Voters.row -> bool)) (v : Voters.row) : bool :=
  forallb (fun c => c v) cs.

(** [select id from voters where and(...conditions)] *)
Definition matchingVoters (organizationId : nat) (criteria : Criteria.t)
  (s : Store.t) : list nat :=
  map Voters.id (filter (and_ (conditions organizationId criteria)) (Store.voters s)).

Definition findList (listId organizationId : nat) (s : Store.t)
  : option VoterLists.row :=
  find (fun l => (Nat.eqb (VoterLists.id l) listId
                  && Nat.eqb (VoterLists.organizationId l) organizationId)%bool)
       (Store.voterLists s).

Definition membersOf (listId : nat) (s : Store.t) : list VoterListMembers.row :=
  filter (fun m => Nat.eqb (VoterListMembers.listId m) listId)
         (Store.voterListMembers s).

(** [delete from voter_list_members where list_id = listId] *)
Definition clearMembers (listId : nat) (s : Store.t) : Store.t :=
  Store.withMembers
    (filter (fun m => negb (Nat.eqb (VoterListMembers.listId m) listId))
            (Store.voterListMembers s)) s.

Fixpoint distinctRows (rows : list VoterListMembers.row) : bool :=
  match rows with
  | [] => true
  | r :: rest =>
      (negb (existsb (VoterListMembers.collide r) rest) && distinctRows rest)%bool
  end.

(** A plain multi-row insert: one statement, rejected as a whole when
    a row would break the unique index on (listId, voterId). *)
Definition insertMembers (rows : list VoterListMembers.row) (s : Store.t)
  : option Store.t :=
  if (distinctRows rows
      && forallb (fun r => negb (existsb (VoterListMembers.collide r)
                                         (Store.voterListMembers s))) rows)%bool
  then Some (Store.withMembers (Store.voterListMembers s ++ rows) s)
  else None.

(** The batch loop of populate: [added] and the store after the
    batches written so far; the flag is false once an insert threw. *)
Fixpoint insertBatches (listId : nat) (user : nat) (batches : list (list nat))
  (added : nat) (s : Store.t) : bool * nat * Store.t :=
  match batches with
  | [] => (true, added, s)
  | batch :: rest =>
      match insertMembers
              (map (fun v => {| VoterListMembers.listId := listId;
                                VoterListMembers.voterId := v;
                                VoterListMembers.addedBy := Some user |}) batch) s
      with
      | Some s' => insertBatches listId user rest (added + length batch) s'
      | None => (false, added, s)
      end
  end.

(** [update voter_lists set filter_criteria = criteria where id = listId] *)
Definition storeCriteria (listId : nat) (criteria : Criteria.t) (s : Store.t)
  : Store.t :=
  Store.withLists
    (map (fun l => if Nat.eqb (VoterLists.id l) listId
                   then {| VoterLists.id := VoterLists.id l;
                           VoterLists.organizationId := VoterLists.organizationId l;
                           VoterLists.name := VoterLists.name l;
                           VoterLists.filterCriteria := Some criteria |}
                   else l)
         (Store.voterLists s)) s.

Inductive response :=
| NotFound
| BadRequest
| ServerError
| Populated (count : nat).

(** [router.post('/:id/populate')] for the tenant [organizationId] and
    the signed-in [user]; [filterCriteria] is the body's field, [None]
    when it is missing or null. *)
Definition populate (organizationId user listId : nat)
  (filterCriteria : option Criteria.t) (s : Store.t) : response * Store.t :=
  match findList listId organizationId s with
  | None => (NotFound, s)
  | Some list =>
      match (match filterCriteria with
             | Some c => Some c
             | None => VoterLists.filterCriteria list
             end) with
      | None => (BadRequest, s)
      | Some criteria =>
          let matching := matchingVoters organizationId criteria s in
          let cleared := clearMembers listId s in
          match insertBatches listId user (slices matching) 0 cleared with
          | (true, added, written) =>
              (Populated added, storeCriteria listId criteria written)
          | (false, _, written) => (ServerError, written)
          end
      end
  end.

End ListsRoute.

(** ** Objects used as dictionaries *)

Module Obj.

Definition t (V : Type) : Type := list (string * V).

Fixpoint get {V : Type} (key : string) (o : t V) : option V :=
  match o with
  | [] => None
  | (k, v) :: rest => if String.eqb k key then Some v else get key rest
  end.

(** [o[key] = v]: an own property keeps its place, a new one is added
    at the end. *)
Fixpoint set {V : Type} (key : string) (v : V) (o : t V) : t V :=
  match o with
  | [] => [(key, v)]
  | (k, w) :: rest =>
      if String.eqb k key then (k, v) :: rest else (k, w) :: set key v rest
  end.

End Obj.

(** Writes to [election_history], shared by the route and the script.
    [organizationId] and [electionDate] are NOT NULL without a default:
    a row that leaves one out is rejected (the flag is [false]).
    [onConflictDoNothing] drops a row that collides with a stored one
    on a unique index of the table. *)
Definition insertElectionOnConflictDoNothing
  (voterId : nat) (organizationId : option nat) (electionDate : option string)
  (electionDescription electionType votingMethod : option string)
  (s : Store.t) : bool * Store.t :=
  match organizationId, electionDate with
  | Some org, Some date =>
      let new := {| ElectionHistory.id := Store.nextElectionId s;
                    ElectionHistory.voterId := voterId;
                    ElectionHistory.organizationId := org;
                    ElectionHistory.electionDate := date;
                    ElectionHistory.electionDescription := electionDescription;
                    ElectionHistory.electionType := electionType;
                    ElectionHistory.votingMethod := votingMethod |} in
      if existsb (ElectionHistory.collide new) (Store.electionHistory s)
      then (true, Store.withElections (Store.electionHistory s)
                    (S (Store.nextElectionId s)) s)
      else (true, Store.withElections (Store.electionHistory s ++ [new])
                    (S (Store.nextElectionId s)) s)
  | _, _ => (false, s)
  end.

(** ** The import route (server/routes/import) *)

Module ImportRoute.

Definition parseCSVLine (line : string) : list string :=
  Csv.parseWith Js.trim line.

(** What a mapped cell can hold after the type conversions. *)
Inductive jsValue :=
| VStr (s : string)
| VNum (n : Z)
| VBool (b : bool)
| VNull.

Definition isDigit (c : ascii) : bool :=
  let n := nat_of_ascii c in (Nat.leb 48 n && Nat.leb n 57)%bool.

Fixpoint digits (s : string) (acc : option Z) : option Z :=
  match s with
  | EmptyString => acc
  | String c r =>
      if isDigit c
      then digits r (Some (10 * match acc with Some a => a | None => 0 end
                           + Z.of_nat (nat_of_ascii c - 48))%Z)
      else acc
  end.

(** [parseInt(value, 10)]; [None] is NaN.  The integer is exact, where
    the engine rounds beyond 2^53. *)
Definition parseInt10 (value : string) : option Z :=
  match Js.trimStart value with
  | String "-"%char r => option_map Z.opp (digits r None)
  | String "+"%char r => digits r None
  | s => digits s None
  end.

Definition isDateColumn (targetCol : string) : bool :=
  (String.eqb targetCol "registrationDate" || String.eqb targetCol "electionDate")%bool.

(** The date branch: a value with a slash is rebuilt from its three
    parts when it has exactly three, a value with a space is cut at
    the first space, anything else is kept. *)
Definition convertDate (value : string) : string :=
  if Js.includes Js.slash value then
    match Js.split Js.slash value with
    | [p0; p1; p2] => p2 ++ "-" ++ Js.padStart2 p0 ++ "-" ++ Js.padStart2 p1
    | _ => value
    end
  else if Js.includes Js.space value then
    hd EmptyString (Js.split Js.space value)
  else value.

(** The type conversions of [mapRowToSchema] for one non-empty cell. *)
Definition convert (targetCol value : string) : jsValue :=
  if String.eqb targetCol "dobYear" then
    match parseInt10 value with
    | Some n => if Z.eqb n 0 then VNull else VNum n
    | None => VNull
    end
  else if String.eqb targetCol "permanentAbsentee" then
    VBool (String.eqb value "Y" || String.eqb value "true" || String.eqb value "1")
  else if isDateColumn targetCol then VStr (convertDate value)
  else VStr value.

(** The column mapping is [JSON.parse] of a form field: an object
    whose values are strings, or [null]. *)
Inductive mappingField :=
| MappingNull
| MappingObject (entries : list (string * string)).

Inductive mapResult :=
| Threw (message : string)
| ReturnedNull
| Returned (mapped : Obj.t jsValue).

Definition mapEntry (row : Obj.t string) (mapped : Obj.t jsValue)
  (entry : string * string) : Obj.t jsValue :=
  let (sourceCol, targetCol) := entry in
  match Obj.get sourceCol row with
  | Some cell =>
      if Js.truthy cell then Obj.set targetCol (convert targetCol cell) mapped
      else mapped
  | None => mapped
  end.

(** [mapRowToSchema(row, columnMapping, type)]; [type] is not read.
    [Object.entries(null)] throws. *)
Definition mapRowToSchema (row : Obj.t string) (columnMapping : mappingField)
  : mapResult :=
  match columnMapping with
  | MappingNull => Threw "Cannot convert undefined or null to object"
  | MappingObject entries =>
      match fold_left (mapEntry row) entries [] with
      | [] => ReturnedNull
      | mapped => Returned mapped
      end
  end.

(** [headers.reduce((acc, header, i) => { acc[header] = values[i] || ''; ... }, {})] *)
Fixpoint buildRowFrom (i : nat) (headers values : list string)
  (acc : Obj.t string) : Obj.t string :=
  match headers with
  | [] => acc
  | header :: rest =>
      buildRowFrom (S i) rest values (Obj.set header (nth i values EmptyString) acc)
  end.

Definition buildRow (headers values : list string) : Obj.t string :=
  buildRowFrom 0 headers values [].

(** An entry of the job's error list; its optional [field] is never set. *)
Record importError := mkError { row : nat; message : string }.

(** The columns of [import_jobs] the end handler writes. *)
Record importJob := mkJob
  { status : string;
    totalRows : nat;
    jobProcessedRows : nat;
    jobSuccessRows : nat;
    jobErrorRows : nat;
    jobErrors : list importError }.

Definition BATCH_SIZE : nat := 1000.

Section Upload.

(** The store behind the upload and the batch writer chosen by the
    import type ([insertVoterBatch] or [insertElectionBatch], already
    applied to the tenant): it returns the store it leaves behind and
    the message of the error it threw, if it threw.  The import type
    and the column mapping are the ones the form fields have set when
    the file part starts. *)
Variable db : Type.
Variable insertBatch : list (Obj.t jsValue) -> db -> option string * db.
Variable columnMapping : mappingField.

(** The variables the handlers of one upload close over. *)
Record upload := mkUpload
  { buffer : string;
    headers : list string;
    batch : list (Obj.t jsValue);
    processedRows : nat;
    successRows : nat;
    errorRows : nat;
    errors : list importError;
    database : db }.

Definition begin (d : db) : upload :=
  {| buffer := EmptyString; headers := []; batch := [];
     processedRows := 0; successRows := 0; errorRows := 0;
     errors := []; database := d |}.

(** [if (errors.length < 100) errors.push(e)] *)
Definition pushError (e : importError) (es : list importError)
  : list importError :=
  if Nat.ltb (length es) 100 then es ++ [e] else es.

(** Parse a line into a row, map it inside [try], count it.  The data
    handler reports a thrown row in the error list, the end handler
    does not. *)
Definition mapAndCount (report : bool) (line : string) (u : upload) : upload :=
  let values := parseCSVLine line in
  let row := buildRow (headers u) values in
  match mapRowToSchema row columnMapping with
  | Returned mappedRow =>
      mkUpload (buffer u) (headers u) (batch u ++ [mappedRow])
               (S (processedRows u)) (successRows u) (errorRows u)
               (errors u) (database u)
  | ReturnedNull =>
      mkUpload (buffer u) (headers u) (batch u)
               (S (processedRows u)) (successRows u) (errorRows u)
               (errors u) (database u)
  | Threw msg =>
      mkUpload (buffer u) (headers u) (batch u)
               (S (processedRows u)) (successRows u) (S (errorRows u))
               (if report
                then pushError (mkError (processedRows u + 1) msg) (errors u)
                else errors u)
               (database u)
  end.

(** The batch insert of the data handler, followed by [batch = []]. *)
Definition flush (u : upload) : upload :=
  match insertBatch (batch u) (database u) with
  | (None, d) =>
      mkUpload (buffer u) (headers u) []
               (processedRows u) (successRows u + length (batch u))
               (errorRows u) (errors u) d
  | (Some msg, d) =>
      mkUpload (buffer u) (headers u) []
               (processedRows u) (successRows u)
               (errorRows u + length (batch u))
               (pushError (mkError (processedRows u)
                                   ("Batch insert failed: " ++ msg)) (errors u))
               d
  end.

(** The body of [for (const line of lines)]. *)
Definition processLine (u : upload) (line : string) : upload :=
  if negb (Js.truthy (Js.trim line)) then u
  else match headers u with
       | [] =>
           mkUpload (buffer u) (parseCSVLine line) (batch u)
                    (processedRows u) (successRows u) (errorRows u)
                    (errors u) (database u)
       | _ :: _ =>
           let u1 := mapAndCount true line u in
           if Nat.leb BATCH_SIZE (length (batch u1)) then flush u1 else u1
       end.

(** [file.on('data')]: the last piece of the split stays in the buffer. *)
Definition onData (u : upload) (data : string) : upload :=
  let lines := Js.split Js.newline (buffer u ++ data) in
  fold_left processLine (removelast lines)
    (mkUpload (last lines EmptyString) (headers u) (batch u)
              (processedRows u) (successRows u) (errorRows u)
              (errors u) (database u)).

(** The final batch insert of the end handler: no error entry, and
    the batch is not read again. *)
Definition flushLast (u : upload) : upload :=
  match batch u with
  | [] => u
  | _ :: _ =>
      match insertBatch (batch u) (database u) with
      | (None, d) =>
          mkUpload (buffer u) (headers u) (batch u)
                   (processedRows u) (successRows u + length (batch u))
                   (errorRows u) (errors u) d
      | (Some _, d) =>
          mkUpload (buffer u) (headers u) (batch u)
                   (processedRows u) (successRows u)
                   (errorRows u + length (batch u)) (errors u) d
      end
  end.

(** [file.on('end')]: the unterminated last line, the last batch, and
    the job row as it is persisted. *)
Definition onEnd (u : upload) : importJob * db :=
  let u1 :=
    if (Js.truthy (Js.trim (buffer u))
        && Nat.ltb 0 (length (headers u)))%bool
    then mapAndCount false (buffer u) u
    else u in
  let u2 := flushLast u1 in
  ({| status := "completed";
      totalRows := processedRows u2;
      jobProcessedRows := processedRows u2;
      jobSuccessRows := successRows u2;
      jobErrorRows := errorRows u2;
      jobErrors := errors u2 |}, database u2).

(** One upload: the chunks in the order the stream delivers them,
    then the end of the stream. *)
Definition upload_run (chunks : list string) (d : db) : importJob * db :=
  onEnd (fold_left onData chunks (begin d)).

End Upload.

Arguments mkUpload {db}.
Arguments buffer {db}.
Arguments headers {db}.
Arguments batch {db}.
Arguments processedRows {db}.
Arguments successRows {db}.
Arguments errorRows {db}.
Arguments errors {db}.
Arguments database {db}.
Arguments begin {db}.
Arguments mapAndCount {db}.
Arguments flush {db}.
Arguments processLine {db}.
Arguments onData {db}.
Arguments flushLast {db}.
Arguments onEnd {db}.
Arguments upload_run {db}.

(** A text column of a mapped row, as the store receives it. *)
Definition text (record : Obj.t jsValue) (column : string) : option string :=
  match Obj.get column record with
  | Some (VStr s) => Some s
  | _ => None
  end.

Fixpoint sameColumns (a b : list string) : bool :=
  match a, b with
  | [], [] => true
  | x :: a', y :: b' => (String.eqb x y && sameColumns a' b')%bool
  | _, _ => false
  end.

(** A conflict target must name the columns of a unique index of the
    table; the store rejects the statement otherwise. *)
Definition hasUniqueIndex (indexes : list (list string)) (target : list string)
  : bool :=
  existsb (fun index => sameColumns index target) indexes.

(** [{ ...v, organizationId }] as a row of [voters] with the key [id]. *)
Definition voterOf (id organizationId : nat) (v : Obj.t jsValue) : Voters.row :=
  {| Voters.id := id;
     Voters.organizationId := organizationId;
     Voters.stateVoterId := text v "stateVoterId";
     Voters.firstName := text v "firstName";
     Voters.lastName := text v "lastName";
     Voters.streetName := text v "streetName";
     Voters.city := text v "city";
     Voters.zipCode := text v "zipCode";
     Voters.phone := text v "phone";
     Voters.email := text v "email";
     Voters.countyCode := text v "countyCode";
     Voters.precinctCode := text v "precinctCode";
     Voters.legislativeDistrict := text v "legislativeDistrict";
     Voters.stateSenateDistrict := text v "stateSenateDistrict";
     Voters.congressionalDistrict := text v "congressionalDistrict";
     Voters.supportLevel :=
       match text v "supportLevel" with
       | Some s => parseInt10 s
       | None => None
       end;
     Voters.registrationDate := text v "registrationDate" |}.

(** One row of the upsert, were the conflict target backed by a unique
    index: a stored row of the tenant with the same state voter id is
    kept (the [set] clause assigns each column to itself), any other
    row is inserted. *)
Definition upsertVoter (organizationId : nat) (s : Store.t) (v : Obj.t jsValue)
  : Store.t :=
  let stored :=
    match text v "stateVoterId" with
    | Some sid =>
        existsb (fun r => (Nat.eqb (Voters.organizationId r) organizationId
                           && Store.eqText (Voters.stateVoterId r) sid)%bool)
                (Store.voters s)
    | None => false
    end in
  if stored then s
  else Store.withVoters
         (Store.voters s ++ [voterOf (Store.nextVoterId s) organizationId v])
         (S (Store.nextVoterId s)) s.

(** [insertVoterBatch]: one [insert ... on conflict (organization_id,
    state_voter_id) do update] statement. *)
Definition insertVoterBatch (batch : list (Obj.t jsValue)) (organizationId : nat)
  (s : Store.t) : option string * Store.t :=
  if hasUniqueIndex Voters.uniqueIndexes ["organizationId"; "stateVoterId"]
  then (None, fold_left (upsertVoter organizationId) batch s)
  else (Some "there is no unique or exclusion constraint matching the ON CONFLICT specification",
        s).

(** [insertElectionBatch]: a record with a state voter id whose voter
    is found under the tenant gets one history row. *)
Fixpoint insertElectionBatch (batch : list (Obj.t jsValue)) (organizationId : nat)
  (s : Store.t) : option string * Store.t :=
  match batch with
  | [] => (None, s)
  | record :: rest =>
      match text record "stateVoterId" with
      | Some sid =>
          match (if Js.truthy sid
                 then find (fun v =>
                              (Nat.eqb (Voters.organizationId v) organizationId
                               && Store.eqText (Voters.stateVoterId v) sid)%bool)
                           (Store.voters s)
                 else None) with
          | Some voter =>
              match insertElectionOnConflictDoNothing
                      (Voters.id voter) (Some organizationId)
                      (text record "electionDate")
                      (text record "electionDescription")
                      (text record "electionType")
                      (text record "votingMethod") s with
              | (true, s') => insertElectionBatch rest organizationId s'
              | (false, s') =>
                  (Some "null value in column election_date violates not-null constraint",
                   s')
              end
          | None => insertElectionBatch rest organizationId s
          end
      | None => insertElectionBatch rest organizationId s
      end
  end.

(** The writer the handlers call for an import of the given type. *)
Definition insertBatchFor (importType : string) (organizationId : nat)
  (batch : list (Obj.t jsValue)) (s : Store.t) : option string * Store.t :=
  if String.eqb importType "voters"
  then insertVoterBatch batch organizationId s
  else insertElectionBatch batch organizationId s.

End ImportRoute.

(** ** The import script (scripts/import-voters) *)

Module ImportScript.

Definition parseCSVLine (line : string) : list string :=
  Csv.parseWith (fun s => s) line.

Definition tab : ascii := "009"%char.

Definition stripLeadingQuote (s : string) : string :=
  match s with
  | String c r => if Ascii.eqb c Js.dquote then r else s
  | EmptyString => s
  end.

Fixpoint stripTrailingQuote (s : string) : string :=
  match s with
  | EmptyString => EmptyString
  | String c EmptyString => if Ascii.eqb c Js.dquote then EmptyString else s
  | String c r => String c (stripTrailingQuote r)
  end.

(** [s.replace(/^"|"$/g, '').trim()]: one quote off each end. *)
Definition clean (s : string) : string :=
  Js.trim (stripTrailingQuote (stripLeadingQuote s)).

(** Header and data lines are cut at tabs when the line has one, at
    commas (the header) or by [parseCSVLine] (a data line) otherwise. *)
Definition parseHeaders (line : string) : list string :=
  map clean (if Js.includes tab line then Js.split tab line
             else Js.split Js.comma line).

Definition parseValues (line : string) : list string :=
  if Js.includes tab line then Js.split tab line else parseCSVLine line.

(** [headers.forEach((header, i) => { row[header] = values[i]?.replace(...).trim() || '' })] *)
Fixpoint buildRowFrom (i : nat) (headers values : list string)
  (row : Obj.t string) : Obj.t string :=
  match headers with
  | [] => row
  | header :: rest =>
      buildRowFrom (S i) rest values
        (Obj.set header (match nth_error values i with
                         | Some v => clean v
                         | None => EmptyString
                         end) row)
  end.

Definition buildRow (headers values : list string) : Obj.t string :=
  buildRowFrom 0 headers values [].

(** [a || b] on strings that may be undefined. *)
Definition orElse (a b : option string) : option string :=
  match a with
  | Some s => if Js.truthy s then a else b
  | None => b
  end.

Definition isTruthy (a : option string) : bool :=
  match a with
  | Some s => Js.truthy s
  | None => false
  end.

Definition isDigit (c : ascii) : bool :=
  let n := nat_of_ascii c in (Nat.leb 48 n && Nat.leb n 57)%bool.

Definition allDigits (s : string) : bool :=
  forallb isDigit (list_ascii_of_string s).

(** The three patterns of [parseDate]: YYYY-MM-DD, MM/DD/YYYY and
    M/D/YYYY. *)
Definition matchesIso (value : string) : bool :=
  match Js.split "-"%char value with
  | [y; m; d] =>
      (allDigits y && Nat.eqb (String.length y) 4 && allDigits m && Nat.eqb (String.length m) 2
       && allDigits d && Nat.eqb (String.length d) 2)%bool
  | _ => false
  end.

Definition matchesSlashed (value : string) : bool :=
  match Js.split Js.slash value with
  | [m; d; y] =>
      (allDigits m && Nat.leb 1 (String.length m) && Nat.leb (String.length m) 2
       && allDigits d && Nat.leb 1 (String.length d) && Nat.leb (String.length d) 2
       && allDigits y && Nat.eqb (String.length y) 4)%bool
  | _ => false
  end.

(** The fields of [VoterRecord] that are columns of [voters]; the
    other keys of the object name no column and are dropped by the
    query builder. *)
Record VoterRecord := mkVoterRecord
  { stateVoterId : string;
    organizationId : nat;
    firstName : option string;
    lastName : option string;
    city : option string;
    zipCode : option string;
    congressionalDistrict : string;
    stateSenateDistrict : option string;
    registrationDate : option string }.

Record ElectionRecord := mkElectionRecord
  { electionDate : string;
    electionType : string;
    votingMethod : option string }.

Record ImportStats := mkStats
  { totalRows : nat;
    imported : nat;
    updated : nat;
    skipped : nat;
    errors : nat;
    electionRecords : nat }.

Definition BATCH_SIZE : nat := 1000.

Section Script.

(** Whether [new Date(value)] is a valid date: the engine's parser. *)
Variable validDate : string -> bool.

(** [parseDate]: the date is kept as the text it was built from. *)
Definition parseDate (value : option string) : option string :=
  match value with
  | None => None
  | Some v =>
      if negb (Js.truthy (Js.trim v)) then None
      else if ((matchesIso v || matchesSlashed v) && validDate v)%bool
           then Some v
           else None
  end.

(** The [voter] object built from a row. *)
Definition voterRecord (districtNum : Z) (orgId : nat) (row : Obj.t string)
  : VoterRecord :=
  {| stateVoterId :=
       match orElse (Obj.get "VoterId" row) (Obj.get "StateVoterId" row) with
       | Some s => s
       | None => EmptyString
       end;
     organizationId := orgId;
     firstName := Obj.get "FirstName" row;
     lastName := Obj.get "LastName" row;
     city := Obj.get "City" row;
     zipCode := orElse (Obj.get "ZipCode" row) (Obj.get "Zip" row);
     congressionalDistrict := NilZero.string_of_int (Z.to_int districtNum);
     stateSenateDistrict := Obj.get "MNLegDistrict" row;
     registrationDate := parseDate (Obj.get "RegistrationDate" row) |}.

Definition electionAt (row : Obj.t string) (dateKey typeKey methodKey : string)
  : list ElectionRecord :=
  if isTruthy (Obj.get dateKey row) then
    match parseDate (Obj.get dateKey row) with
    | Some date =>
        [{| electionDate := date;
            electionType := match orElse (Obj.get typeKey row) (Some "General") with
                            | Some t => t
                            | None => "General"
                            end;
            votingMethod := Obj.get methodKey row |}]
    | None => []
    end
  else [].

(** The indexed groups [ElectionDate_1 .. ElectionDate_20], then the
    single triple. *)
Definition electionsOf (row : Obj.t string) : list ElectionRecord :=
  flat_map (fun i =>
              let n := NilZero.string_of_uint (Nat.to_uint i) in
              electionAt row ("ElectionDate_" ++ n) ("ElectionType_" ++ n)
                         ("VotingMethod_" ++ n))
           (seq 1 20)
  ++ electionAt row "ElectionDate" "ElectionType" "VotingMethod".

(** [select id from voters where state_voter_id = sid limit 1]: the
    condition names the state voter id alone. *)
Definition findByStateVoterId (sid : string) (s : Store.t) : option Voters.row :=
  find (fun r => Store.eqText (Voters.stateVoterId r) sid) (Store.voters s).

(** A key of the [set] object that is undefined leaves its column as
    it is. *)
Definition keep {A : Type} (new old : option A) : option A :=
  match new with
  | Some _ => new
  | None => old
  end.

(** [set({ ...voter, updatedAt })] applied to a stored row. *)
Definition applyVoter (voter : VoterRecord) (r : Voters.row) : Voters.row :=
  {| Voters.id := Voters.id r;
     Voters.organizationId := organizationId voter;
     Voters.stateVoterId := Some (stateVoterId voter);
     Voters.firstName := keep (firstName voter) (Voters.firstName r);
     Voters.lastName := keep (lastName voter) (Voters.lastName r);
     Voters.streetName := Voters.streetName r;
     Voters.city := keep (city voter) (Voters.city r);
     Voters.zipCode := keep (zipCode voter) (Voters.zipCode r);
     Voters.phone := Voters.phone r;
     Voters.email := Voters.email r;
     Voters.countyCode := Voters.countyCode r;
     Voters.precinctCode := Voters.precinctCode r;
     Voters.legislativeDistrict := Voters.legislativeDistrict r;
     Voters.stateSenateDistrict :=
       keep (stateSenateDistrict voter) (Voters.stateSenateDistrict r);
     Voters.congressionalDistrict := Some (congressionalDistrict voter);
     Voters.supportLevel := Voters.supportLevel r;
     Voters.registrationDate :=
       keep (registrationDate voter) (Voters.registrationDate r) |}.

(** [values(voter)] as a new row with the key [id]. *)
Definition newVoter (id : nat) (voter : VoterRecord) : Voters.row :=
  {| Voters.id := id;
     Voters.organizationId := organizationId voter;
     Voters.stateVoterId := Some (stateVoterId voter);
     Voters.firstName := firstName voter;
     Voters.lastName := lastName voter;
     Voters.streetName := None;
     Voters.city := city voter;
     Voters.zipCode := zipCode voter;
     Voters.phone := None;
     Voters.email := None;
     Voters.countyCode := None;
     Voters.precinctCode := None;
     Voters.legislativeDistrict := None;
     Voters.stateSenateDistrict := stateSenateDistrict voter;
     Voters.congressionalDistrict := Some (congressionalDistrict voter);
     Voters.supportLevel := None;
     Voters.registrationDate := registrationDate voter |}.

Definition countUpdated (t : ImportStats) : ImportStats :=
  mkStats (totalRows t) (imported t) (S (updated t)) (skipped t) (errors t)
          (electionRecords t).

Definition countImported (t : ImportStats) : ImportStats :=
  mkStats (totalRows t) (S (imported t)) (updated t) (skipped t) (errors t)
          (electionRecords t).

Definition countSkipped (t : ImportStats) : ImportStats :=
  mkStats (totalRows t) (imported t) (updated t) (S (skipped t)) (errors t)
          (electionRecords t).

Definition countRow (t : ImportStats) : ImportStats :=
  mkStats (S (totalRows t)) (imported t) (updated t) (skipped t) (errors t)
          (electionRecords t).

Definition countElection (t : ImportStats) : ImportStats :=
  mkStats (totalRows t) (imported t) (updated t) (skipped t) (errors t)
          (S (electionRecords t)).

(** The body of the first loop of [processBatch]: update the row the
    lookup found, insert when it found none. *)
Definition upsertVoter (acc : ImportStats * Store.t) (voter : VoterRecord)
  : ImportStats * Store.t :=
  let (t, s) := acc in
  match findByStateVoterId (stateVoterId voter) s with
  | Some existing =>
      (countUpdated t,
       Store.withVoters
         (map (fun r => if Nat.eqb (Voters.id r) (Voters.id existing)
                        then applyVoter voter r else r)
              (Store.voters s))
         (Store.nextVoterId s) s)
  | None =>
      (countImported t,
       Store.withVoters (Store.voters s ++ [newVoter (Store.nextVoterId s) voter])
                        (S (Store.nextVoterId s)) s)
  end.

(** The body of the second loop: the history rows of one voter.  The
    inserted object has no [organizationId]; a rejected insert is
    caught and not counted. *)
Definition insertElections (acc : ImportStats * Store.t)
  (item : string * list ElectionRecord) : ImportStats * Store.t :=
  let (t, s) := acc in
  match findByStateVoterId (fst item) s with
  | Some voter =>
      fold_left
        (fun (a : ImportStats * Store.t) election =>
           match insertElectionOnConflictDoNothing
                   (Voters.id voter) None (Some (electionDate election))
                   None (Some (electionType election))
                   (votingMethod election) (snd a) with
           | (true, s') => (countElection (fst a), s')
           | (false, s') => (fst a, s')
           end)
        (snd item) (t, s)
  | None => (t, s)
  end.

Record run := mkRun
  { stats : ImportStats;
    voterBatch : list VoterRecord;
    electionBatch : list (string * list ElectionRecord);
    store : Store.t }.

Definition processBatch (r : run) : run :=
  match voterBatch r with
  | [] => r
  | _ :: _ =>
      let (t, s) :=
        fold_left insertElections (electionBatch r)
          (fold_left upsertVoter (voterBatch r) (stats r, store r)) in
      mkRun t [] [] s
  end.

(** The body of [for await (const line of rl)] for a line after the
    header. *)
Definition processLine (districtNum : Z) (orgId : nat) (headers : list string)
  (r : run) (line : string) : run :=
  let t := countRow (stats r) in
  let row := buildRow headers (parseValues line) in
  let voter := voterRecord districtNum orgId row in
  if negb (Js.truthy (stateVoterId voter))
  then mkRun (countSkipped t) (voterBatch r) (electionBatch r) (store r)
  else
    let r1 := mkRun t (voterBatch r ++ [voter])
                    (electionBatch r ++ [(stateVoterId voter, electionsOf row)])
                    (store r) in
    if Nat.leb BATCH_SIZE (length (voterBatch r1)) then processBatch r1 else r1.

(** [importDistrict] on the lines of an existing file, the header
    first. *)
Definition importDistrict (districtNum : Z) (orgId : nat) (lines : list string)
  (s : Store.t) : ImportStats * Store.t :=
  let r0 := mkRun (mkStats 0 0 0 0 0 0) [] [] s in
  let r :=
    match lines with
    | [] => r0
    | header :: rest =>
        fold_left (processLine districtNum orgId (parseHeaders header)) rest r0
    end in
  let r' := processBatch r in
  (stats r', store r').

End Script.

End ImportScript.

(** ** The voter search route: the filter part of [router.get('/')] *)

Module VotersRoute.

(** The query parameters the handler reads; a missing or empty
    parameter is falsy. *)
Record query := mkQuery
  { search : option string;
    congressionalDistrict : option string;
    legislativeDistrict : option string;
    stateSenateDistrict : option string;
    county : option string;
    city : option string;
    zipCode : option string;
    precinctCode : option string;
    supportLevel : option string;
    hasPhone : option string;
    hasEmail : option string }.

Section Search.

(** [ilike(column, pattern)]: the store's case-insensitive pattern
    match. *)
Variable ilike : option string -> string -> bool.

Definition given (p : option string) (c : string -> Voters.row -> bool)
  : list (Voters.row -> bool) :=
  match p with
  | Some text => if Js.truthy text then [c text] else []
  | None => []
  end.

Definition isTrue (p : option string) : bool :=
  match p with
  | Some text => String.eqb text "true"
  | None => false
  end.

(** The [conditions] array of the search handler. *)
Definition conditions (organizationId : nat) (q : query)
  : list (Voters.row -> bool) :=
  [fun v => Nat.eqb (Voters.organizationId v) organizationId]
  ++ given (search q)
       (fun text v =>
          let searchTerm := "%" ++ text ++ "%" in
          (ilike (Voters.firstName v) searchTerm
           || ilike (Voters.lastName v) searchTerm
           || ilike (Voters.phone v) searchTerm
           || ilike (Voters.streetName v) searchTerm
           || ilike (Voters.city v) searchTerm)%bool)
  ++ given (congressionalDistrict q)
       (fun text v => Store.eqText (Voters.congressionalDistrict v) text)
  ++ given (legislativeDistrict q)
       (fun text v => Store.eqText (Voters.legislativeDistrict v) text)
  ++ given (stateSenateDistrict q)
       (fun text v => Store.eqText (Voters.stateSenateDistrict v) text)
  ++ given (county q) (fun text v => Store.eqText (Voters.countyCode v) text)
  ++ given (city q) (fun text v => ilike (Voters.city v) text)
  ++ given (zipCode q) (fun text v => Store.eqText (Voters.zipCode v) text)
  ++ given (precinctCode q)
       (fun text v => Store.eqText (Voters.precinctCode v) text)
  ++ given (supportLevel q)
       (fun text v =>
          match ImportRoute.parseInt10 text, Voters.supportLevel v with
          | Some n, Some l => Z.eqb l n
          | _, _ => false
          end)
  ++ ListsRoute.when (isTrue (hasPhone q))
       (fun v => Store.present (Voters.phone v))
  ++ ListsRoute.when (isTrue (hasEmail q))
       (fun v => Store.present (Voters.email v)).

(** The rows the count and the page are taken from. *)
Definition matching (organizationId : nat) (q : query) (s : Store.t)
  : list Voters.row :=
  filter (ListsRoute.and_ (conditions organizationId q)) (Store.voters s).

End Search.

End VotersRoute.

(** ** The column tables of the state's files (shared/types) *)

Module SharedTypes.

Definition MN_VOTER_FILE_COLUMNS : Obj.t string :=
  [ ("VoterId", "stateVoterId");
    ("CountyCode", "countyCode");
    ("FirstName", "firstName");
    ("MiddleName", "middleName");
    ("LastName", "lastName");
    ("NameSuffix", "nameSuffix");
    ("HouseNumber", "houseNumber");
    ("StreetName", "streetName");
    ("UnitType", "unitType");
    ("UnitNumber", "unitNumber");
    ("Address2", "address2");
    ("City", "city");
    ("State", "state");
    ("ZipCode", "zipCode");
    ("MailAddress", "mailAddress");
    ("MailCity", "mailCity");
    ("MailState", "mailState");
    ("MailZipCode", "mailZipCode");
    ("PhoneNumber", "phone");
    ("RegistrationDate", "registrationDate");
    ("DOBYear", "dobYear");
    ("StateMcdCode", "stateMcdCode");
    ("McdName", "mcdName");
    ("PrecinctCode", "precinctCode");
    ("PrecinctName", "precinctName");
    ("WardCode", "wardCode");
    ("School", "schoolDistrict");
    ("SchSub", "schoolSubDistrict");
    ("Judicial", "judicialDistrict");
    ("Legislative", "legislativeDistrict");
    ("StateSen", "stateSenateDistrict");
    ("Congressional", "congressionalDistrict");
    ("Commissioner", "commissionerDistrict");
    ("Park", "parkDistrict");
    ("SoilWater", "soilWaterDistrict");
    ("Hospital", "hospitalDistrict");
    ("LegacyId", "legacyId");
    ("PermanentAbsentee", "permanentAbsentee") ].

Definition MN_ELECTION_FILE_COLUMNS : Obj.t string :=
  [ ("VoterId", "stateVoterId");
    ("ElectionDate", "electionDate");
    ("ElectionDescription", "electionDescription");
    ("VotingMethod", "votingMethod") ].

End SharedTypes.

(** ** The import route, continued: column suggestions and the preview *)

Module ImportPreview.

(** The member names every object literal inherits from
    [Object.prototype]; the operator [in] finds them as well as the
    own ones. *)
Definition inheritedNames : list string :=
  [ "constructor"; "__defineGetter__"; "__defineSetter__"; "hasOwnProperty";
    "__lookupGetter__"; "__lookupSetter__"; "isPrototypeOf";
    "propertyIsEnumerable"; "toString"; "valueOf"; "__proto__";
    "toLocaleString" ].

Definition inherited (name : string) : bool :=
  existsb (String.eqb name) inheritedNames.

(** A member of the suggested mapping: the target column read from a
    table, or the inherited member the read found instead. *)
Inductive member :=
| Column (target : string)
| Inherited.

(** The body of [for (const header of headers)].  A header that names
    an inherited member passes the first [in] test and the read gives
    that member; the write to [__proto__] goes to the inherited setter
    and adds no property. *)
Definition suggest (mapping : Obj.t member) (header : string) : Obj.t member :=
  let normalizedHeader := Js.trim header in
  match Obj.get normalizedHeader SharedTypes.MN_VOTER_FILE_COLUMNS with
  | Some target => Obj.set normalizedHeader (Column target) mapping
  | None =>
      if inherited normalizedHeader then
        if String.eqb normalizedHeader "__proto__" then mapping
        else Obj.set normalizedHeader Inherited mapping
      else
        match Obj.get normalizedHeader SharedTypes.MN_ELECTION_FILE_COLUMNS with
        | Some target => Obj.set normalizedHeader (Column target) mapping
        | None => mapping
        end
  end.

Definition suggestColumnMapping (headers : list string) : Obj.t member :=
  fold_left suggest headers [].

(** The mapping as [res.json] sends it: [JSON.stringify] leaves out the
    members that are not data. *)
Definition serialized (mapping : Obj.t member) : Obj.t string :=
  flat_map (fun e => match snd e with
                     | Column target => [(fst e, target)]
                     | Inherited => []
                     end) mapping.

(** The variables the handlers of one preview close over. *)
Record preview := mkPreview
  { buffer : string;
    headers : list string;
    sampleRows : list (list string) }.

Definition begin : preview :=
  {| buffer := EmptyString; headers := []; sampleRows := [] |}.

(** [for (let i = 1; i < lines.length && sampleRows.length < 5; i++)]
    over the lines from index 1 on. *)
Fixpoint sample (lines : list string) (sampleRows : list (list string))
  : list (list string) :=
  match lines with
  | [] => sampleRows
  | line :: rest =>
      if Nat.ltb (length sampleRows) 5
      then sample rest (if Js.truthy (Js.trim line)
                        then sampleRows ++ [ImportRoute.parseCSVLine line]
                        else sampleRows)
      else sampleRows
  end.

(** [file.on('data')]: the buffer grows and is split again from its
    start. *)
Definition onData (p : preview) (data : string) : preview :=
  let buffer := (buffer p ++ data)%string in
  let lines := Js.split Js.newline buffer in
  {| buffer := buffer;
     headers := if (Nat.eqb (length (headers p)) 0 && Nat.ltb 0 (length lines))%bool
                then ImportRoute.parseCSVLine (hd EmptyString lines)
                else headers p;
     sampleRows := sample (tl lines) (sampleRows p) |}.

(** [file.on('end')] *)
Definition onEnd (p : preview) : preview :=
  if Nat.eqb (length (headers p)) 0 then
    let lines := Js.split Js.newline (buffer p) in
    if Nat.ltb 0 (length lines)
    then {| buffer := buffer p;
            headers := ImportRoute.parseCSVLine (hd EmptyString lines);
            sampleRows := sampleRows p |}
    else p
  else p.

(** The [data] member of the response. *)
Record previewData := mkData
  { dataHeaders : list string;
    dataSampleRows : list (list string);
    suggestedMapping : Obj.t string }.

(** One preview: the chunks the stream delivers, its end, and the
    response of the [finish] handler. *)
Definition preview_run (chunks : list string) : previewData :=
  let p := onEnd (fold_left onData chunks begin) in
  {| dataHeaders := headers p;
     dataSampleRows := sampleRows p;
     suggestedMapping := serialized (suggestColumnMapping (headers p)) |}.

End ImportPreview.

(** ** The list route, continued: deleting a list, adding and removing
    members (server/routes/lists) *)

Module ListMembers.

Inductive response :=
| BadRequest
| NotFound
| ServerError
| Done (count : nat).

Definition references (s : Store.t) (r : VoterListMembers.row) : bool :=
  (existsb (fun l => Nat.eqb (VoterLists.id l) (VoterListMembers.listId r))
           (Store.voterLists s)
   && existsb (fun v => Nat.eqb (Voters.id v) (VoterListMembers.voterId r))
              (Store.voters s))%bool.

(** One row of [insert ... on conflict do nothing]: a row that
    collides on (listId, voterId) with a stored row, or with a row the
    statement has already added, is skipped. *)
Definition addRow (stored : list VoterListMembers.row) (r : VoterListMembers.row)
  : list VoterListMembers.row :=
  if existsb (VoterListMembers.collide r) stored then stored else stored ++ [r].

(** The statement as a whole: [list_id] and [voter_id] are foreign
    keys, and a row that references no stored list or voter makes the
    store reject the statement. *)
Definition insertOnConflictDoNothing (rows : list VoterListMembers.row)
  (s : Store.t) : option Store.t :=
  if forallb (references s) rows
  then Some (Store.withMembers (fold_left addRow rows (Store.voterListMembers s)) s)
  else None.

(** [router.post('/:id/voters')]; [voterIds] is [None] when the body's
    field is not an array.  The message reports [voterIds.length]. *)
Definition addVoters (organizationId user listId : nat)
  (voterIds : option (list nat)) (s : Store.t) : response * Store.t :=
  match voterIds with
  | None | Some [] => (BadRequest, s)
  | Some ids =>
      match ListsRoute.findList listId organizationId s with
      | None => (NotFound, s)
      | Some _ =>
          match insertOnConflictDoNothing
                  (map (fun voterId =>
                          {| VoterListMembers.listId := listId;
                             VoterListMembers.voterId := voterId;
                             VoterListMembers.addedBy := Some user |}) ids) s
          with
          | Some s' => (Done (length ids), s')
          | None => (ServerError, s)
          end
      end
  end.

(** [router.delete('/:id/voters')]: the handler has the tenant at hand
    and does not read it. *)
Definition removeVoters (organizationId listId : nat)
  (voterIds : option (list nat)) (s : Store.t) : response * Store.t :=
  match voterIds with
  | None | Some [] => (BadRequest, s)
  | Some ids =>
      (Done (length ids),
       Store.withMembers
         (filter (fun m => negb (Nat.eqb (VoterListMembers.listId m) listId
                                 && existsb (Nat.eqb (VoterListMembers.voterId m)) ids))
                 (Store.voterListMembers s)) s)
  end.

(** [router.delete('/:id')]: the lists the statement deletes take
    their members with them ([onDelete: 'cascade']); the response is
    the same whether or not a list was deleted. *)
Definition deleteList (organizationId listId : nat) (s : Store.t) : Store.t :=
  let doomed l := (Nat.eqb (VoterLists.id l) listId
                   && Nat.eqb (VoterLists.organizationId l) organizationId)%bool in
  let deleted := filter doomed (Store.voterLists s) in
  Store.withMembers
    (filter (fun m => negb (existsb (fun l => Nat.eqb (VoterLists.id l)
                                                     (VoterListMembers.listId m))
                                    deleted))
            (Store.voterListMembers s))
    (Store.withLists (filter (fun l => negb (doomed l)) (Store.voterLists s)) s).

End ListMembers.

(** ** Pages: the voter search and the members of a list
    (server/routes/voters, server/routes/lists) *)

Module Paging.

(** The body of a paged response. *)
Record page (A : Type) := mkPage
  { data : list A;
    total : nat;
    pageNum : Z;
    limit : Z;
    totalPages : option Z }.

Arguments mkPage {A}.
Arguments data {A}.
Arguments total {A}.
Arguments pageNum {A}.
Arguments limit {A}.
Arguments totalPages {A}.

Inductive answer (A : Type) :=
| NotFound
| ServerError
| Found (p : page A).

Arguments NotFound {A}.
Arguments ServerError {A}.
Arguments Found {A}.

(** [limitNum], [offset], [.limit(limitNum).offset(offset)] and the
    body of the response, for a [page] and a [limit] that parse as
    integers.  The store rejects a negative LIMIT or OFFSET, and the
    handler answers 500; [Math.ceil(count / 0)] is not a number that
    JSON can carry, and is sent as null. *)
Definition paginate {A : Type} (rows : list A) (count : nat) (page limit : Z)
  : answer A :=
  let limitNum := Z.min limit 100 in
  let offset := ((page - 1) * limitNum)%Z in
  if (Z.leb 0 limitNum && Z.leb 0 offset)%bool
  then Found {| data := firstn (Z.to_nat limitNum) (skipn (Z.to_nat offset) rows);
                total := count;
                pageNum := page;
                limit := limitNum;
                totalPages :=
                  if Z.eqb limitNum 0 then None
                  else Some ((Z.of_nat count + limitNum - 1) / limitNum)%Z |}
  else ServerError.

Section Handlers.

(** [ilike] as in the search conditions, and the [order by] of the
    request: the rows of a result in the order the store returns
    them, taken to be the same each time the result is asked for. *)
Variable ilike : option string -> string -> bool.
Variable orderBy : list Voters.row -> list Voters.row.

(** [voters inner join voter_list_members on voter_id = voters.id and
    list_id = listId], for the voters [rows]. *)
Definition joined (listId : nat) (rows : list Voters.row) (s : Store.t)
  : list Voters.row :=
  flat_map (fun v =>
              map (fun _ => v)
                  (filter (fun m => (Nat.eqb (VoterListMembers.voterId m) (Voters.id v)
                                     && Nat.eqb (VoterListMembers.listId m) listId)%bool)
                          (Store.voterListMembers s)))
           rows.

(** [router.get('/')] of the voters route: the count is taken from the
    conditions alone, the page from the join with the list when the
    query names one. *)
Definition search (organizationId : nat) (q : VotersRoute.query)
  (listId : option nat) (page limit : Z) (s : Store.t) : answer Voters.row :=
  let matching := VotersRoute.matching ilike organizationId q s in
  paginate (orderBy (match listId with
                     | Some l => joined l matching s
                     | None => matching
                     end))
           (length matching) page limit.

(** [router.get('/:id/voters')] of the lists route: the members of a
    list of the tenant, each with the voter it references. *)
Definition listVoters (organizationId listId : nat) (page limit : Z) (s : Store.t)
  : answer Voters.row :=
  match ListsRoute.findList listId organizationId s with
  | None => NotFound
  | Some _ =>
      let members := ListsRoute.membersOf listId s in
      paginate (orderBy (flat_map (fun m =>
                                     filter (fun v => Nat.eqb (VoterListMembers.voterId m)
                                                              (Voters.id v))
                                            (Store.voters s))
                                  members))
               (length members) page limit
  end.

End Handlers.

End Paging.

(** ** The voters route, continued: deleting a voter
    (server/routes/voters) *)

Module VoterRecords.

(** [router.delete('/:id')]: the voters the statement deletes take
    their history rows and their list memberships with them
    ([onDelete: 'cascade']); the response is the same whether or not a
    voter was deleted. *)
Definition deleteVoter (organizationId voterId : nat) (s : Store.t) : Store.t :=
  let doomed v := (Nat.eqb (Voters.id v) voterId
                   && Nat.eqb (Voters.organizationId v) organizationId)%bool in
  let deleted := filter doomed (Store.voters s) in
  let gone key := existsb (fun v => Nat.eqb (Voters.id v) key) deleted in
  Store.withMembers
    (filter (fun m => negb (gone (VoterListMembers.voterId m)))
            (Store.voterListMembers s))
    (Store.withElections
       (filter (fun e => negb (gone (ElectionHistory.voterId e)))
               (Store.electionHistory s))
       (Store.nextElectionId s)
       (Store.withVoters (filter (fun v => negb (doomed v)) (Store.voters s))
                         (Store.nextVoterId s) s)).

End VoterRecords.

(** ** Inputs used in the examples *)

Definition dq : string := Js.str Js.dquote.
Definition nl : string := Js.str Js.newline.

(** The raw line of the quoting example: a quoted field holding
    Smith, a comma, a space and Bob between doubled quotes, then the
    field 555-1234. *)
Definition quotingLine : string :=
  dq ++ "Smith, " ++ dq ++ dq ++ "Bob" ++ dq ++ dq ++ dq ++ ",555-1234".

Fixpoint noQuote (s : string) : bool :=
  match s with
  | EmptyString => true
  | String c r => (negb (Ascii.eqb c Js.dquote) && noQuote r)%bool
  end.

(** * Notions used in the statements *)

(** The state of the script's parser after the characters [prefix]
    of a line. *)
Definition readAs (prefix : string) : Csv.scanner :=
  Csv.scan (fun s => s) prefix Csv.start.

Definition startsWithQuote (s : string) : bool :=
  match s with
  | String c _ => Ascii.eqb c Js.dquote
  | EmptyString => false
  end.

(** A source column contributes when the row has a non-empty cell for
    it: [row[sourceCol] !== undefined && row[sourceCol] !== '']. *)
Definition contributes (row : Obj.t string) (entry : string * string) : bool :=
  match Obj.get (fst entry) row with
  | Some cell => Js.truthy cell
  | None => false
  end.

Definition startsClean (s : string) : bool :=
  match s with
  | EmptyString => true
  | String c _ => negb (Js.isWhiteSpace c)
  end.

Definition storedIdsBelowCounter (s : Store.t) : Prop :=
  Forall (fun e => ElectionHistory.id e < Store.nextElectionId s)
         (Store.electionHistory s).

Definition nonBlank (line : string) : bool := Js.truthy (Js.trim line).

(** The complete lines the data handler loops over for a sequence of
    chunks, and the text left in the buffer at the end. *)
Fixpoint feed (buffer : string) (chunks : list string) : list string * string :=
  match chunks with
  | [] => ([], buffer)
  | data :: rest =>
      let lines := Js.split Js.newline (buffer ++ data) in
      let (more, final) := feed (last lines EmptyString) rest in
      ((removelast lines ++ more)%list, final)
  end.

Definition rowOf (headers : list string) (line : string) : Obj.t string :=
  ImportRoute.buildRow headers (ImportRoute.parseCSVLine line).

(** The rows of an upload: every non-blank line after the first one,
    and the unterminated last line when it is not blank, read against
    the headers of the first non-blank line. *)
Definition observedRows (chunks : list string) : list (Obj.t string) :=
  let (lines, final) := feed EmptyString chunks in
  match filter nonBlank lines with
  | [] => []
  | header :: data =>
      map (fun l => ImportRoute.buildRow (ImportRoute.parseCSVLine header)
                                         (ImportRoute.parseCSVLine l))
          (data ++ (if nonBlank final then [final] else []))
  end.

Definition threw (m : ImportRoute.mappingField) (row : Obj.t string) : bool :=
  match ImportRoute.mapRowToSchema row m with
  | ImportRoute.Threw _ => true
  | _ => false
  end.

Definition unmapped (m : ImportRoute.mappingField) (row : Obj.t string) : bool :=
  match ImportRoute.mapRowToSchema row m with
  | ImportRoute.ReturnedNull => true
  | _ => false
  end.

Definition mapped (m : ImportRoute.mappingField) (row : Obj.t string) : bool :=
  match ImportRoute.mapRowToSchema row m with
  | ImportRoute.Returned _ => true
  | _ => false
  end.

Definition count {A : Type} (p : A -> bool) (xs : list A) : nat :=
  length (filter p xs).

Definition withBuffer {db : Type} (b : string) (u : ImportRoute.upload db) : ImportRoute.upload db :=
  ImportRoute.mkUpload b (ImportRoute.headers u) (ImportRoute.batch u)
    (ImportRoute.processedRows u) (ImportRoute.successRows u)
    (ImportRoute.errorRows u) (ImportRoute.errors u) (ImportRoute.database u).

(** What the closed-over counters say once the rows [rows] have gone
    through the handlers; [slack] is the number of thrown rows that
    were not offered to the error list. *)
Record accountedFor {db : Type} (columnMapping : ImportRoute.mappingField)
  (slack : nat) (u : ImportRoute.upload db)
  (rows : list (Obj.t string)) : Prop := mkAccounted
  { acc_processed : ImportRoute.processedRows u = length rows;
    acc_errors : count (threw columnMapping) rows <= ImportRoute.errorRows u;
    acc_written :
      ImportRoute.successRows u + ImportRoute.errorRows u
      + length (ImportRoute.batch u)
      = count (threw columnMapping) rows + count (mapped columnMapping) rows;
    acc_cap : length (ImportRoute.errors u) <= 100;
    acc_reported :
      length (ImportRoute.errors u) = 100
      \/ count (threw columnMapping) rows <= length (ImportRoute.errors u) + slack }.

Definition memberRow (listId user voterId : nat) : VoterListMembers.row :=
  {| VoterListMembers.listId := listId;
     VoterListMembers.voterId := voterId;
     VoterListMembers.addedBy := Some user |}.

(** The store a successful populate leaves. *)
Definition populated (organizationId user listId : nat) (criteria : Criteria.t)
  (s : Store.t) : Store.t :=
  ListsRoute.storeCriteria listId criteria
    (Store.withMembers
       (filter (fun m => negb (Nat.eqb (VoterListMembers.listId m) listId))
               (Store.voterListMembers s)
        ++ map (memberRow listId user)
               (ListsRoute.matchingVoters organizationId criteria s))
       s).

(** The external identifier the loop reads from a line. *)
Definition externalId (headers : list string) (line : string) : string :=
  let row := ImportScript.buildRow headers (ImportScript.parseValues line) in
  match ImportScript.orElse (Obj.get "VoterId" row) (Obj.get "StateVoterId" row) with
  | Some s => s
  | None => EmptyString
  end.

Definition onStats (f : ImportScript.ImportStats -> ImportScript.ImportStats)
  (a : ImportScript.ImportStats * Store.t) : ImportScript.ImportStats * Store.t :=
  (f (fst a), snd a).

Definition lineVoter (validDate : string -> bool) (districtNum : Z) (orgId : nat)
  (headers : list string) (line : string)
  : ImportScript.VoterRecord :=
  ImportScript.voterRecord validDate districtNum orgId
    (ImportScript.buildRow headers (ImportScript.parseValues line)).

(** What one line does to the counters and the store once its batch
    has been written. *)
Definition effectOfLine (validDate : string -> bool) (districtNum : Z) (orgId : nat)
  (headers : list string)
  (a : ImportScript.ImportStats * Store.t) (line : string)
  : ImportScript.ImportStats * Store.t :=
  if negb (Js.truthy (externalId headers line))
  then onStats ImportScript.countSkipped (onStats ImportScript.countRow a)
  else ImportScript.upsertVoter (onStats ImportScript.countRow a)
         (lineVoter validDate districtNum orgId headers line).

(** The counters and the store a run would show if its pending batch
    were written now. *)
Definition settled (r : ImportScript.run) : ImportScript.ImportStats * Store.t :=
  fold_left ImportScript.upsertVoter (ImportScript.voterBatch r)
            (ImportScript.stats r, ImportScript.store r).

(** The key columns of a voter row: primary key, tenant, state voter id. *)
Definition keyOf (r : Voters.row) : nat * nat * option string :=
  (Voters.id r, Voters.organizationId r, Voters.stateVoterId r).

Definition tenantRows (organizationId : nat) (s : Store.t) : list Voters.row :=
  filter (fun v => Nat.eqb (Voters.organizationId v) organizationId) (Store.voters s).

(** The text of an upload: its chunks one after the other. *)
Definition wholeText (chunks : list string) : string :=
  fold_right String.append EmptyString chunks.

(** The job row and the store the end handler leaves for the
    closed-over state it has reached after the last batch. *)
Definition persisted {db : Type} (u : ImportRoute.upload db)
  : ImportRoute.importJob * db :=
  ({| ImportRoute.status := "completed";
      ImportRoute.totalRows := ImportRoute.processedRows u;
      ImportRoute.jobProcessedRows := ImportRoute.processedRows u;
      ImportRoute.jobSuccessRows := ImportRoute.successRows u;
      ImportRoute.jobErrorRows := ImportRoute.errorRows u;
      ImportRoute.jobErrors := ImportRoute.errors u |},
   ImportRoute.database u).

Definition withHeaders {db : Type} (h : list string) (u : ImportRoute.upload db)
  : ImportRoute.upload db :=
  ImportRoute.mkUpload (ImportRoute.buffer u) h (ImportRoute.batch u)
    (ImportRoute.processedRows u) (ImportRoute.successRows u)
    (ImportRoute.errorRows u) (ImportRoute.errors u) (ImportRoute.database u).

(** The loop body of the data handler on a non-blank line once the
    headers are known. *)
Definition dataStep {db : Type}
  (insertBatch : list (Obj.t ImportRoute.jsValue) -> db -> option string * db)
  (columnMapping : ImportRoute.mappingField)
  (u : ImportRoute.upload db) (line : string) : ImportRoute.upload db :=
  let u1 := ImportRoute.mapAndCount columnMapping true line u in
  if Nat.leb ImportRoute.BATCH_SIZE (length (ImportRoute.batch u1))
  then ImportRoute.flush insertBatch u1 else u1.

(** The records the mapping makes of the rows, in the order of the file. *)
Definition mappedRows (m : ImportRoute.mappingField) (rows : list (Obj.t string))
  : list (Obj.t ImportRoute.jsValue) :=
  flat_map (fun r => match ImportRoute.mapRowToSchema r m with
                     | ImportRoute.Returned o => [o]
                     | _ => []
                     end) rows.

(** Offering one batch to the writer: the rows of accepted batches,
    the rows of rejected batches, the store. *)
Definition offer {db : Type}
  (insertBatch : list (Obj.t ImportRoute.jsValue) -> db -> option string * db)
  (acc : nat * nat * db) (b : list (Obj.t ImportRoute.jsValue)) : nat * nat * db :=
  let '(ok, ko, d) := acc in
  match insertBatch b d with
  | (None, d') => (ok + length b, ko, d')
  | (Some _, d') => (ok, ko + length b, d')
  end.

Definition offerAll {db : Type}
  (insertBatch : list (Obj.t ImportRoute.jsValue) -> db -> option string * db)
  (batches : list (list (Obj.t ImportRoute.jsValue))) (d : db) : nat * nat * db :=
  fold_left (offer insertBatch) batches (0, 0, d).

(** The batches of an upload: its records, [BATCH_SIZE] at a time. *)
Definition batchesOf (m : ImportRoute.mappingField) (chunks : list string)
  : list (list (Obj.t ImportRoute.jsValue)) :=
  slicesOf (pred ImportRoute.BATCH_SIZE) (mappedRows m (observedRows chunks)).

(** The closed-over state against the rows read so far: the complete
    batches [done] have been offered to the writer, the rest waits in
    [batch]. *)
Record batchedAs {db : Type}
  (insertBatch : list (Obj.t ImportRoute.jsValue) -> db -> option string * db)
  (columnMapping : ImportRoute.mappingField) (d0 : db)
  (u : ImportRoute.upload db) (rows : list (Obj.t string))
  (done : list (list (Obj.t ImportRoute.jsValue))) (ko : nat) : Prop := mkBatched
  { bt_rows : mappedRows columnMapping rows = (concat done ++ ImportRoute.batch u)%list;
    bt_full : Forall (fun b => length b = ImportRoute.BATCH_SIZE) done;
    bt_offered :
      offerAll insertBatch done d0
      = (ImportRoute.successRows u, ko, ImportRoute.database u);
    bt_errors :
      ImportRoute.errorRows u = count (threw columnMapping) rows + ko }.

(** Every entry of the error list names a row that has been read. *)
Definition errorsInRange {db : Type} (u : ImportRoute.upload db) : Prop :=
  Forall (fun e => 1 <= ImportRoute.row e <= ImportRoute.processedRows u)
         (ImportRoute.errors u).

(** The target column the two tables give a header, the voter table
    first. *)
Definition columnOf (header : string) : option string :=
  match Obj.get header SharedTypes.MN_VOTER_FILE_COLUMNS with
  | Some target => Some target
  | None => Obj.get header SharedTypes.MN_ELECTION_FILE_COLUMNS
  end.

(** What the loop of [suggestColumnMapping] writes under a header, if
    it writes. *)
Definition memberOf (header : string) : option ImportPreview.member :=
  match Obj.get header SharedTypes.MN_VOTER_FILE_COLUMNS with
  | Some target => Some (ImportPreview.Column target)
  | None =>
      if ImportPreview.inherited header then
        if String.eqb header "__proto__" then None
        else Some ImportPreview.Inherited
      else option_map ImportPreview.Column
             (Obj.get header SharedTypes.MN_ELECTION_FILE_COLUMNS)
  end.

(** The texts the data events of a preview split: the buffer after
    each chunk. *)
Fixpoint accumulated (buffer : string) (chunks : list string) : list string :=
  match chunks with
  | [] => []
  | data :: rest => (buffer ++ data)%string :: accumulated (buffer ++ data) rest
  end.

(** The rows one data event of a preview offers as samples: the
    non-blank lines of the text after its first line. *)
Definition sampleLines (text : string) : list (list string) :=
  map ImportRoute.parseCSVLine (filter nonBlank (tl (Js.split Js.newline text))).

(** No two entries with the same value. *)
Definition injectiveTable (table : Obj.t string) : bool :=
  forallb (fun a =>
             forallb (fun b => implb (String.eqb (snd a) (snd b))
                                     (String.eqb (fst a) (fst b)))
                     table)
          table.

(** The voter is a member of the list. *)
Definition isMember (listId voterId : nat) (s : Store.t) : bool :=
  existsb (VoterListMembers.collide
             {| VoterListMembers.listId := listId;
                VoterListMembers.voterId := voterId;
                VoterListMembers.addedBy := None |})
          (Store.voterListMembers s).

Definition memberKey (m : VoterListMembers.row) : nat * nat :=
  (VoterListMembers.listId m, VoterListMembers.voterId m).

(** What the schema promises of [voter_list_members]: no (list, voter)
    pair twice, and every row references a stored list and a stored
    voter. *)
Record membersSound (s : Store.t) : Prop := mkSound
  { ms_unique : NoDup (map memberKey (Store.voterListMembers s));
    ms_refer : forallb (ListMembers.references s) (Store.voterListMembers s) = true }.

(** No list with this key belongs to the tenant. *)
Definition notOwned (organizationId listId : nat) (s : Store.t) : Prop :=
  forall l, In l (Store.voterLists s) -> VoterLists.id l = listId ->
            VoterLists.organizationId l <> organizationId.

(** A data line of the script's file that names no voter. *)
Definition anonymous (headers : list string) (line : string) : bool :=
  negb (Js.truthy (externalId headers line)).

(** The counters and the tables after the data lines [rows], against
    the counters [t0] and the store [s0] before them. *)
Record ranOver (headers : list string)
  (t0 : ImportScript.ImportStats) (s0 : Store.t) (rows : list string)
  (t : ImportScript.ImportStats) (s : Store.t) : Prop := mkRan
  { ran_total : ImportScript.totalRows t = ImportScript.totalRows t0 + length rows;
    ran_split :
      ImportScript.imported t + ImportScript.updated t + ImportScript.skipped t
      = ImportScript.imported t0 + ImportScript.updated t0 + ImportScript.skipped t0
        + length rows;
    ran_skipped :
      ImportScript.skipped t
      = ImportScript.skipped t0 + count (anonymous headers) rows;
    ran_imported : ImportScript.imported t0 <= ImportScript.imported t;
    ran_errors : ImportScript.errors t = ImportScript.errors t0;
    ran_elections : ImportScript.electionRecords t = ImportScript.electionRecords t0;
    ran_ids :
      map Voters.id (Store.voters s)
      = (map Voters.id (Store.voters s0)
         ++ seq (Store.nextVoterId s0)
                (ImportScript.imported t - ImportScript.imported t0))%list;
    ran_next :
      Store.nextVoterId s
      = Store.nextVoterId s0 + (ImportScript.imported t - ImportScript.imported t0);
    ran_history : Store.electionHistory s = Store.electionHistory s0;
    ran_nextElection : Store.nextElectionId s = Store.nextElectionId s0;
    ran_lists : Store.voterLists s = Store.voterLists s0;
    ran_members : Store.voterListMembers s = Store.voterListMembers s0 }.

(** The state voter ids of the stored voters, those that have one. *)
Definition storedStateIds (s : Store.t) : list string :=
  flat_map (fun v => match Voters.stateVoterId v with
                     | Some sid => [sid]
                     | None => []
                     end) (Store.voters s).

(** The rows of a page, none when the request was refused. *)
Definition rowsOf {A : Type} (a : Paging.answer A) : list A :=
  match a with
  | Paging.Found p => Paging.data p
  | _ => []
  end.

(** The voter table keeps what the schema promises of
    [election_history]: every row references a stored voter. *)
Definition historySound (s : Store.t) : Prop :=
  forallb (fun e => existsb (fun v => Nat.eqb (Voters.id v) (ElectionHistory.voterId e))
                            (Store.voters s))
          (Store.electionHistory s) = true.

(** * Inputs of the examples *)

(** Inputs of the tenant-isolation example: tenant 2 holds the voter
    V1; tenant 1 imports a file with the same state voter id. *)
Definition otherTenantsVoter : Voters.row :=
  {| Voters.id := 1; Voters.organizationId := 2;
     Voters.stateVoterId := Some "V1";
     Voters.firstName := Some "Zed"; Voters.lastName := Some "Roe";
     Voters.streetName := None; Voters.city := None; Voters.zipCode := None;
     Voters.phone := None; Voters.email := None; Voters.countyCode := None;
     Voters.precinctCode := None; Voters.legislativeDistrict := None;
     Voters.stateSenateDistrict := None; Voters.congressionalDistrict := None;
     Voters.supportLevel := None; Voters.registrationDate := None |}.

Definition sharedStore : Store.t :=
  Store.withVoters [otherTenantsVoter] 2 Store.empty.

Definition collidingFile : list string :=
  ["VoterId,FirstName,LastName"; "V1,Ann,Lee"].

(** Inputs of the election example: tenant 1 holds the voter V1 and
    imports one history record for the election of 2020-11-03. *)
Definition tenantsVoter : Voters.row :=
  {| Voters.id := 1; Voters.organizationId := 1;
     Voters.stateVoterId := Some "V1";
     Voters.firstName := Some "Ann"; Voters.lastName := Some "Lee";
     Voters.streetName := None; Voters.city := None; Voters.zipCode := None;
     Voters.phone := None; Voters.email := None; Voters.countyCode := None;
     Voters.precinctCode := None; Voters.legislativeDistrict := None;
     Voters.stateSenateDistrict := None; Voters.congressionalDistrict := None;
     Voters.supportLevel := None; Voters.registrationDate := None |}.

Definition oneVoterStore : Store.t :=
  Store.withVoters [tenantsVoter] 2 Store.empty.

Definition historyRecord : Obj.t ImportRoute.jsValue :=
  [("stateVoterId", ImportRoute.VStr "V1");
   ("electionDate", ImportRoute.VStr "2020-11-03");
   ("electionType", ImportRoute.VStr "STG")].

Definition historyColumns : ImportRoute.mappingField :=
  ImportRoute.MappingObject [("VoterId", "stateVoterId"); ("Date", "electionDate")].

Definition historyFile : list string :=
  ["VoterId,Date" ++ nl ++ "V1,11/3/2020" ++ nl ++ "V1,11/3/2020" ++ nl].

(** Inputs of the counter examples.  A three-row file whose second
    row has only empty cells, with a mapping of its two columns; and a
    file of a header and 500 rows uploaded with the mapping field set
    to null. *)
Definition sparseFile : list string :=
  ["VoterId,FirstName" ++ nl ++ "V1,Ann" ++ nl ++ "," ++ nl ++ "V2,Bo" ++ nl].

Definition twoColumns : ImportRoute.mappingField :=
  ImportRoute.MappingObject [("VoterId", "stateVoterId"); ("FirstName", "firstName")].

Fixpoint repeatLine (n : nat) (line : string) : string :=
  match n with
  | 0 => EmptyString
  | S k => line ++ nl ++ repeatLine k line
  end.

Definition fiveHundredRows : list string :=
  ["VoterId" ++ nl; repeatLine 500 "V1"].

(** Inputs of the populate example: two tenants hold a voter with the
    same state voter id; tenant 1 owns list 7, which already has a
    manually added member. *)
Definition voterIn (id org : nat) (sid city phone : string) : Voters.row :=
  {| Voters.id := id; Voters.organizationId := org;
     Voters.stateVoterId := Some sid;
     Voters.firstName := None; Voters.lastName := None;
     Voters.streetName := None; Voters.city := Some city; Voters.zipCode := None;
     Voters.phone := Some phone; Voters.email := None; Voters.countyCode := None;
     Voters.precinctCode := None; Voters.legislativeDistrict := None;
     Voters.stateSenateDistrict := None; Voters.congressionalDistrict := None;
     Voters.supportLevel := None; Voters.registrationDate := None |}.

Definition twoTenants : Store.t :=
  {| Store.voters := [voterIn 1 1 "V1" "Duluth" "";
                      voterIn 2 1 "V2" "Ely" "555-0101";
                      voterIn 3 2 "V1" "Duluth" "555-0102"];
     Store.nextVoterId := 4;
     Store.electionHistory := []; Store.nextElectionId := 1;
     Store.voterLists := [{| VoterLists.id := 7; VoterLists.organizationId := 1;
                             VoterLists.name := "Doors";
                             VoterLists.filterCriteria := None |}];
     Store.voterListMembers := [memberRow 7 9 2] |}.

Definition inDuluth : Criteria.t :=
  Criteria.mk [] [] [] [] ["Duluth"] [] [] false false.

Definition withPhone : Criteria.t :=
  Criteria.mk [] [] [] [] [] [] [] true false.

(** Inputs of the re-import examples. *)
Definition repeatedIdFile : list string :=
  ["VoterId,FirstName,LastName"; "V1,Ann,Lee"; "V1,Ann,Lee2"].

Definition distinctIdFile : list string :=
  ["VoterId,FirstName,LastName"; "V1,Ann,Lee"; "V2,Bo,Ng"].

(** Inputs of the page examples: a search without filters. *)
Definition anyVoter : VotersRoute.query :=
  VotersRoute.mkQuery None None None None None None None None None None None.

(** * Properties *)

(** ** Strings *)

Lemma append_nil_r (s : string) : s ++ EmptyString = s.
Proof. induction s; simpl; congruence. Qed.

Lemma append_assoc (a b c : string) : (a ++ b) ++ c = a ++ (b ++ c).
Proof. induction a; simpl; congruence. Qed.

(** ** The line parser *)

Section ParserFacts.

Variable finish : string -> string.

Lemma parseWith_nonempty (line : string) : Csv.parseWith finish line <> [].
Proof.
  unfold Csv.parseWith. destruct (Csv.result _); discriminate.
Qed.

(** A stretch without quotes can be scanned on its own: the look-ahead
    only happens at a quote. *)
Lemma scan_app_noQuote (p s : string) :
  noQuote p = true ->
  forall st, Csv.scan finish (p ++ s) st = Csv.scan finish s (Csv.scan finish p st).
Proof.
  induction p as [|c p IH]; intros Hp st; simpl in *.
  - reflexivity.
  - apply andb_true_iff in Hp as [Hc Hp].
    apply negb_true_iff in Hc. rewrite Hc.
    destruct (Ascii.eqb c Js.comma && negb (Csv.inQuotes st))%bool;
      apply IH; assumption.
Qed.

Lemma scan_noQuote_inQuotes (p : string) :
  noQuote p = true ->
  forall st, Csv.inQuotes (Csv.scan finish p st) = Csv.inQuotes st.
Proof.
  induction p as [|c p IH]; intros Hp st; simpl in *.
  - reflexivity.
  - apply andb_true_iff in Hp as [Hc Hp].
    apply negb_true_iff in Hc. rewrite Hc.
    destruct (Ascii.eqb c Js.comma && negb (Csv.inQuotes st))%bool;
      rewrite IH by assumption; reflexivity.
Qed.

(** Inside quotes a stretch without quotes goes to the current field,
    commas included. *)
Lemma scan_inside_quotes (r : string) :
  noQuote r = true ->
  forall res cur,
    Csv.scan finish r (Csv.mkScanner res cur true)
    = Csv.mkScanner res (cur ++ r) true.
Proof.
  induction r as [|c r IH]; intros Hr res cur; simpl in *.
  - rewrite append_nil_r. reflexivity.
  - apply andb_true_iff in Hr as [Hc Hr].
    apply negb_true_iff in Hc. rewrite Hc.
    rewrite andb_false_r. rewrite IH by assumption.
    f_equal. rewrite append_assoc. reflexivity.
Qed.

Lemma parseWith_unterminated (p r : string) :
  noQuote p = true -> noQuote r = true ->
  Csv.parseWith finish (p ++ dq ++ r)
  = (Csv.result (Csv.scan finish p Csv.start)
     ++ [finish (Csv.current (Csv.scan finish p Csv.start) ++ r)])%list.
Proof.
  intros Hp Hr. unfold Csv.parseWith.
  rewrite scan_app_noQuote by assumption.
  pose proof (scan_noQuote_inQuotes p Hp Csv.start) as Hq.
  destruct (Csv.scan finish p Csv.start) as [res cur inq].
  simpl in Hq. subst inq. simpl.
  rewrite scan_inside_quotes by assumption. reflexivity.
Qed.

End ParserFacts.

Lemma scan_step (finish : string -> string) (char : ascii) (rest : string)
  (st : Csv.scanner) :
  Csv.scan finish (String char rest) st
  = if Ascii.eqb char Js.dquote then
      match Csv.inQuotes st, rest with
      | true, String next rest' =>
          if Ascii.eqb next Js.dquote
          then Csv.scan finish rest'
                 (Csv.mkScanner (Csv.result st)
                                (Csv.current st ++ Js.str Js.dquote) true)
          else Csv.scan finish rest
                 (Csv.mkScanner (Csv.result st) (Csv.current st) false)
      | q, _ => Csv.scan finish rest
                  (Csv.mkScanner (Csv.result st) (Csv.current st) (negb q))
      end
    else if (Ascii.eqb char Js.comma && negb (Csv.inQuotes st))%bool then
      Csv.scan finish rest
        (Csv.mkScanner (Csv.result st ++ [finish (Csv.current st)])
                       EmptyString (Csv.inQuotes st))
    else
      Csv.scan finish rest
        (Csv.mkScanner (Csv.result st) (Csv.current st ++ Js.str char)
                       (Csv.inQuotes st)).
Proof. reflexivity. Qed.

(** The two copies of the parser differ by the trim at a push only. *)
Lemma scan_trim_related (finish : string -> string) (n : nat) :
  forall line, String.length line <= n ->
  forall st st',
    Csv.current st = Csv.current st' ->
    Csv.inQuotes st = Csv.inQuotes st' ->
    Csv.result st = map finish (Csv.result st') ->
    Csv.current (Csv.scan finish line st)
      = Csv.current (Csv.scan (fun s => s) line st')
    /\ Csv.inQuotes (Csv.scan finish line st)
      = Csv.inQuotes (Csv.scan (fun s => s) line st')
    /\ Csv.result (Csv.scan finish line st)
      = map finish (Csv.result (Csv.scan (fun s => s) line st')).
Proof.
  induction n as [|n IH]; intros line Hlen st st' Hc Hq Hr.
  - destruct line; simpl in *; [auto | lia].
  - destruct line as [|c rest]; [simpl; auto|].
    rewrite !scan_step, Hq, Hc, Hr.
    simpl in Hlen.
    destruct (Ascii.eqb c Js.dquote).
    + destruct (Csv.inQuotes st'); [destruct rest as [|c2 rest']|];
        [ | destruct (Ascii.eqb c2 Js.dquote) | ];
        apply IH; simpl in *; try lia; reflexivity.
    + destruct (Ascii.eqb c Js.comma && negb (Csv.inQuotes st'))%bool;
        apply IH; simpl; try lia; try reflexivity.
      rewrite map_app. reflexivity.
Qed.

(** Scanning can be cut before any character that is not a quote: the
    look-ahead of the loop only tells a quote from the rest. *)
Lemma scan_app_right (finish : string -> string) (s : string) (n : nat) :
  startsWithQuote s = false ->
  forall a, String.length a <= n ->
  forall st, Csv.scan finish (a ++ s) st = Csv.scan finish s (Csv.scan finish a st).
Proof.
  intro Hs. induction n as [|n IH]; intros a Hlen st.
  - destruct a; simpl in *; [reflexivity | lia].
  - destruct a as [|c rest]; [reflexivity|].
    change (String c rest ++ s) with (String c (rest ++ s)).
    rewrite !scan_step. simpl in Hlen.
    destruct (Ascii.eqb c Js.dquote).
    + destruct (Csv.inQuotes st).
      * destruct rest as [|c2 rest'].
        -- simpl. destruct s as [|c3 s']; [reflexivity|].
           simpl in Hs. rewrite Hs. reflexivity.
        -- change (String c2 rest' ++ s) with (String c2 (rest' ++ s)).
           cbv beta iota.
           destruct (Ascii.eqb c2 Js.dquote); [apply IH; simpl in *; lia|].
           change (String c2 (rest' ++ s)) with (String c2 rest' ++ s).
           apply IH. lia.
      * destruct (rest ++ s) eqn:E; rewrite <- ?E; apply IH; lia.
    + destruct (Ascii.eqb c Js.comma && negb (Csv.inQuotes st))%bool; apply IH; lia.
Qed.

Lemma noQuote_startsWithQuote (r : string) :
  noQuote r = true -> startsWithQuote r = false.
Proof.
  destruct r as [|c r]; simpl; [reflexivity|].
  intro H. apply andb_true_iff in H as [H _]. apply negb_true_iff, H.
Qed.

(** With the parser inside quotes after [a], a rest without quotes
    ends up in the field being read. *)
Lemma parseWith_never_closed (finish : string -> string) (a r : string) :
  Csv.inQuotes (readAs a) = true -> noQuote r = true ->
  Csv.parseWith finish (a ++ r)
  = (map finish (Csv.result (readAs a))
     ++ [finish (Csv.current (readAs a) ++ r)%string])%list.
Proof.
  intros Hin Hr. unfold Csv.parseWith.
  rewrite (scan_app_right finish r (String.length a))
    by (auto using noQuote_startsWithQuote).
  destruct (scan_trim_related finish (String.length a) a (le_n _)
              Csv.start Csv.start eq_refl eq_refl eq_refl) as (Hc & Hq & Hres).
  fold (readAs a) in Hc, Hq, Hres. rewrite Hin in Hq.
  destruct (Csv.scan finish a Csv.start) as [res cur inq].
  simpl in Hc, Hq, Hres. subst cur inq res.
  rewrite scan_inside_quotes by assumption. reflexivity.
Qed.

Lemma route_parse_is_trimmed_script_parse (line : string) :
  ImportRoute.parseCSVLine line = map Js.trim (ImportScript.parseCSVLine line).
Proof.
  unfold ImportRoute.parseCSVLine, ImportScript.parseCSVLine, Csv.parseWith.
  destruct (scan_trim_related Js.trim (String.length line) line (le_n _)
              Csv.start Csv.start eq_refl eq_refl eq_refl) as (Hc & _ & Hr).
  rewrite map_app, Hr, Hc. reflexivity.
Qed.

(** C8 - the quoting example parses to exactly two fields: the first
    is Smith, comma, space and Bob between single quotes (the doubled
    quotes un-escaped, the comma kept), the second is 555-1234. *)
Theorem parseCSVLine_quoting_example :
  ImportRoute.parseCSVLine quotingLine
  = ["Smith, " ++ dq ++ "Bob" ++ dq; "555-1234"].
Proof. vm_compute. reflexivity. Qed.

(** C9 - the line parser is total and never returns an empty array;
    once it is inside a quoted field that the rest of the line never
    closes, that rest, delimiters included, is absorbed into the field
    being read, and the field is flushed at the end of the line.  In
    particular, for a line whose only quote is an opening one, the
    text after the quote is appended to the field the quote was found
    in.  Stated for both copies of the parser. *)
Theorem parseCSVLine_total_on_unbalanced_quotes :
  (forall line,
      ImportRoute.parseCSVLine line <> []
      /\ ImportScript.parseCSVLine line <> [])
  /\ (forall a r,
        Csv.inQuotes (readAs a) = true -> noQuote r = true ->
        ImportScript.parseCSVLine (a ++ r)
        = (Csv.result (readAs a) ++ [(Csv.current (readAs a) ++ r)%string])%list
        /\ ImportRoute.parseCSVLine (a ++ r)
           = (map Js.trim (Csv.result (readAs a))
              ++ [Js.trim (Csv.current (readAs a) ++ r)%string])%list)
  /\ (forall p r,
        noQuote p = true -> noQuote r = true ->
        ImportScript.parseCSVLine (p ++ dq ++ r)
        = (removelast (ImportScript.parseCSVLine p)
           ++ [(last (ImportScript.parseCSVLine p) EmptyString ++ r)%string])%list
        /\ ImportRoute.parseCSVLine (p ++ dq ++ r)
           = (removelast (ImportRoute.parseCSVLine p)
              ++ [Js.trim (last (ImportScript.parseCSVLine p) EmptyString ++ r)%string])%list).
Proof.
  split; [|split].
  - intro line. split; apply parseWith_nonempty.
  - intros a r Ha Hr. split.
    + unfold ImportScript.parseCSVLine.
      rewrite parseWith_never_closed by assumption.
      rewrite map_id. reflexivity.
    + apply parseWith_never_closed; assumption.
  - intros p r Hp Hr.
    assert (Hs : ImportScript.parseCSVLine (p ++ dq ++ r)
                 = (removelast (ImportScript.parseCSVLine p)
                    ++ [(last (ImportScript.parseCSVLine p) EmptyString ++ r)%string])%list).
    { unfold ImportScript.parseCSVLine at 1.
      rewrite parseWith_unterminated by assumption.
      unfold ImportScript.parseCSVLine, Csv.parseWith.
      rewrite removelast_last, last_last. reflexivity. }
    split; [exact Hs|].
    rewrite !route_parse_is_trimmed_script_parse, Hs.
    rewrite map_app. simpl. f_equal.
    generalize (ImportScript.parseCSVLine p). intro l.
    induction l as [|a [|b l] IH]; simpl in *; try reflexivity.
    f_equal. exact IH.
Qed.

Lemma parseCSVLine_total_on_unbalanced_quotes_witness :
  ImportRoute.parseCSVLine ("a, b" ++ dq ++ "c,d ")%string = ["a"; "bc,d"]
  /\ ImportScript.parseCSVLine ("a, b" ++ dq ++ "c,d ")%string = ["a"; " bc,d "]
  /\ ImportRoute.parseCSVLine
       ((dq ++ "x" ++ dq ++ ",y," ++ dq ++ "z") ++ ",w")%string
     = ["x"; "y"; "z,w"].
Proof.
  destruct parseCSVLine_total_on_unbalanced_quotes as (_ & G & H).
  destruct (H "a, b" "c,d " eq_refl eq_refl) as [Hs Hr].
  destruct (G (dq ++ "x" ++ dq ++ ",y," ++ dq ++ "z")%string ",w" eq_refl eq_refl)
    as [_ Gr].
  split; [rewrite Hr | split; [rewrite Hs | rewrite Gr]]; reflexivity.
Defined.

(** ** The column mapper *)

Lemma obj_get_set {V : Type} (key k : string) (v : V) (o : Obj.t V) :
  Obj.get k (Obj.set key v o)
  = if String.eqb key k then Some v else Obj.get k o.
Proof.
  induction o as [|[k' w] o IH]; simpl.
  - reflexivity.
  - destruct (String.eqb k' key) eqn:Hk; simpl.
    + apply String.eqb_eq in Hk. subst k'.
      destruct (String.eqb key k); reflexivity.
    + rewrite IH. destruct (String.eqb k' k) eqn:Hk'; [|reflexivity].
      apply String.eqb_eq in Hk'. subst k'.
      rewrite String.eqb_sym, Hk. reflexivity.
Qed.

Lemma obj_in_set {V : Type} (key : string) (v : V) (o : Obj.t V) (k : string) (w : V) :
  In (k, w) (Obj.set key v o) -> (k = key /\ w = v) \/ In (k, w) o.
Proof.
  induction o as [|[k' w'] o IH]; simpl.
  - intros [H|[]]. inversion H. auto.
  - destruct (String.eqb k' key) eqn:Hk; simpl.
    + apply String.eqb_eq in Hk. subst k'.
      intros [H|H]; [inversion H; auto | auto].
    + intros [H|H]; [auto|]. destruct (IH H); auto.
Qed.

Lemma trimStart_startsClean (s : string) : startsClean (Js.trimStart s) = true.
Proof.
  induction s as [|c s IH]; simpl; [reflexivity|].
  destruct (Js.isWhiteSpace c) eqn:Hc; [exact IH|].
  simpl. rewrite Hc. reflexivity.
Qed.

Lemma trimEnd_startsClean (s : string) :
  startsClean s = true -> startsClean (Js.trimEnd s) = true.
Proof.
  destruct s as [|c s]; simpl; [reflexivity|].
  intro Hc. destruct (Js.trimEnd s); simpl.
  - apply negb_true_iff in Hc. rewrite Hc. simpl. rewrite Hc. reflexivity.
  - exact Hc.
Qed.

Lemma trim_startsClean (s : string) : startsClean (Js.trim s) = true.
Proof. apply trimEnd_startsClean, trimStart_startsClean. Qed.

Lemma parseCSVLine_startsClean (line : string) :
  Forall (fun v => startsClean v = true) (ImportRoute.parseCSVLine line).
Proof.
  rewrite route_parse_is_trimmed_script_parse.
  apply Forall_map, Forall_forall. intros. apply trim_startsClean.
Qed.

Lemma buildRowFrom_cells (values : list string) (P : string -> Prop) :
  P EmptyString -> Forall P values ->
  forall headers i acc,
    (forall k c, Obj.get k acc = Some c -> P c) ->
    forall k c,
      Obj.get k (ImportRoute.buildRowFrom i headers values acc) = Some c -> P c.
Proof.
  intros H0 Hv. induction headers as [|h headers IH]; intros i acc Hacc k c; simpl.
  - apply Hacc.
  - apply IH. intros k' c'. rewrite obj_get_set.
    destruct (String.eqb h k'); [|apply Hacc].
    intro E. inversion E. subst c'.
    destruct (nth_in_or_default i values EmptyString) as [Hin|Hd].
    + rewrite Forall_forall in Hv. apply Hv, Hin.
    + rewrite Hd. exact H0.
Qed.

(** The cells of a row the handlers build never start with white
    space: they come out of the trimming parser, or are empty. *)
Lemma import_row_cells_startClean (headers : list string) (line k c : string) :
  Obj.get k (ImportRoute.buildRow headers (ImportRoute.parseCSVLine line)) = Some c ->
  startsClean c = true.
Proof.
  unfold ImportRoute.buildRow.
  apply (buildRowFrom_cells _ (fun v => startsClean v = true));
    [reflexivity | apply parseCSVLine_startsClean | discriminate].
Qed.

Lemma split_head_of_clean (c : ascii) (r : string) :
  Ascii.eqb c Js.space = false ->
  hd EmptyString (Js.split Js.space (String c r)) <> EmptyString.
Proof.
  intro Hc. simpl. rewrite Hc.
  destruct (Js.split Js.space r); simpl; discriminate.
Qed.

Lemma convertDate_nonempty (cell : string) :
  cell <> EmptyString -> startsClean cell = true ->
  ImportRoute.convertDate cell <> EmptyString.
Proof.
  intros Hne Hclean. unfold ImportRoute.convertDate.
  destruct (Js.includes Js.slash cell).
  - destruct (Js.split Js.slash cell) as [|p0 [|p1 [|p2 [|? ?]]]]; try assumption.
    destruct p2; simpl; discriminate.
  - destruct (Js.includes Js.space cell); [|assumption].
    destruct cell as [|c r]; [congruence|].
    apply split_head_of_clean. simpl in Hclean.
    apply negb_true_iff in Hclean.
    destruct (Ascii.eqb c Js.space) eqn:E; [|reflexivity].
    apply Ascii.eqb_eq in E. subst c. discriminate.
Qed.

Lemma convert_nonempty (targetCol cell : string) :
  cell <> EmptyString -> startsClean cell = true ->
  ImportRoute.convert targetCol cell <> ImportRoute.VStr EmptyString.
Proof.
  intros Hne Hclean. unfold ImportRoute.convert.
  destruct (String.eqb targetCol "dobYear").
  - destruct (ImportRoute.parseInt10 cell) as [n|]; [destruct (Z.eqb n 0)|]; discriminate.
  - destruct (String.eqb targetCol "permanentAbsentee"); [discriminate|].
    destruct (ImportRoute.isDateColumn targetCol); intro E; inversion E.
    + apply (convertDate_nonempty cell); assumption.
    + congruence.
Qed.

Lemma truthy_nonempty (s : string) : Js.truthy s = true <-> s <> EmptyString.
Proof. destruct s; simpl; split; congruence. Qed.

(** What the fold of [mapRowToSchema] has put in [mapped]. *)
Lemma mapEntries_sound (row : Obj.t string) (entries : list (string * string)) :
  forall acc (P : string -> ImportRoute.jsValue -> Prop),
    (forall k v, In (k, v) acc -> P k v) ->
    (forall src k cell, In (src, k) entries -> Obj.get src row = Some cell ->
                        cell <> EmptyString -> P k (ImportRoute.convert k cell)) ->
    forall k v, In (k, v) (fold_left (ImportRoute.mapEntry row) entries acc) -> P k v.
Proof.
  induction entries as [|[src tgt] entries IH]; intros acc P Hacc Hstep k v; simpl.
  - apply Hacc.
  - apply IH.
    + intros k' v' Hin.
      destruct (Obj.get src row) as [cell|] eqn:Hget; [|auto].
      destruct (Js.truthy cell) eqn:Ht; [|auto].
      apply obj_in_set in Hin as [[-> ->]|Hin]; [|auto].
      apply (Hstep src tgt cell); [left; reflexivity | assumption |].
      apply truthy_nonempty, Ht.
    + intros src' k' cell' Hin. apply Hstep. right. exact Hin.
Qed.

Lemma mapEntries_idle (row : Obj.t string) (entries : list (string * string)) :
  forallb (fun e => negb (contributes row e)) entries = true ->
  forall acc, fold_left (ImportRoute.mapEntry row) entries acc = acc.
Proof.
  induction entries as [|[src tgt] entries IH]; simpl; intros H acc.
  - reflexivity.
  - apply andb_true_iff in H as [He H]. rewrite IH by assumption.
    unfold contributes in He. simpl in He.
    destruct (Obj.get src row) as [cell|]; [|reflexivity].
    apply negb_true_iff in He. rewrite He. reflexivity.
Qed.

Lemma mapEntries_filter (row : Obj.t string) (entries : list (string * string)) :
  forall acc,
    fold_left (ImportRoute.mapEntry row) entries acc
    = fold_left (ImportRoute.mapEntry row) (filter (contributes row) entries) acc.
Proof.
  induction entries as [|[src tgt] entries IH]; intro acc; simpl.
  - reflexivity.
  - unfold contributes at 1. simpl.
    destruct (Obj.get src row) as [cell|] eqn:Hget;
      [destruct (Js.truthy cell) eqn:Ht|]; simpl; rewrite ?Hget, ?Ht; apply IH.
Qed.

Lemma obj_set_nonempty {V : Type} (key : string) (v : V) (o : Obj.t V) :
  Obj.set key v o <> [].
Proof. destruct o as [|[k w] o]; simpl; [|destruct (String.eqb k key)]; discriminate. Qed.

Lemma mapEntries_nonempty (row : Obj.t string) (entries : list (string * string)) :
  forall acc, acc <> [] -> fold_left (ImportRoute.mapEntry row) entries acc <> [].
Proof.
  induction entries as [|[src tgt] entries IH]; intros acc Hacc; simpl.
  - exact Hacc.
  - apply IH. destruct (Obj.get src row) as [cell|]; [|exact Hacc].
    destruct (Js.truthy cell); [apply obj_set_nonempty | exact Hacc].
Qed.

Lemma mapEntries_busy (row : Obj.t string) (entries : list (string * string)) :
  forallb (fun e => negb (contributes row e)) entries = false ->
  forall acc, fold_left (ImportRoute.mapEntry row) entries acc <> [].
Proof.
  induction entries as [|[src tgt] entries IH]; simpl; intros H acc.
  - discriminate.
  - apply andb_false_iff in H as [He|H]; [|apply IH, H].
    apply mapEntries_nonempty.
    unfold contributes in He. simpl in He. apply negb_false_iff in He.
    destruct (Obj.get src row) as [cell|]; [|discriminate].
    rewrite He. apply obj_set_nonempty.
Qed.



(** The date branch on the inputs it is written for: a value of three
    slash-separated parts M/D/Y becomes Y-MM-DD, the month and the day
    padded to two characters; a value with neither slash nor space,
    such as one already in ISO form, is kept. *)
Lemma split_without_separator (c : ascii) (s : string) :
  Js.includes c s = false -> Js.split c s = [s].
Proof.
  induction s as [|d s IH]; simpl; [reflexivity|].
  intro H. apply orb_false_iff in H as [Hd Hs].
  rewrite Hd, IH by assumption. reflexivity.
Qed.

Lemma split_at_separator (c : ascii) (a b : string) :
  Js.includes c a = false ->
  Js.split c (a ++ String c b) = a :: Js.split c b.
Proof.
  induction a as [|d a IH]; simpl.
  - rewrite Ascii.eqb_refl. reflexivity.
  - intro H. apply orb_false_iff in H as [Hd Ha].
    rewrite Hd, IH by assumption. reflexivity.
Qed.

Lemma includes_separator (c : ascii) (a b : string) :
  Js.includes c (a ++ String c b) = true.
Proof.
  induction a as [|d a IH]; simpl.
  - rewrite Ascii.eqb_refl. reflexivity.
  - rewrite IH. apply orb_true_r.
Qed.

Lemma convertDate_slashed (m d y : string) :
  Js.includes Js.slash m = false ->
  Js.includes Js.slash d = false ->
  Js.includes Js.slash y = false ->
  ImportRoute.convertDate (m ++ "/" ++ d ++ "/" ++ y)
  = y ++ "-" ++ Js.padStart2 m ++ "-" ++ Js.padStart2 d.
Proof.
  intros Hm Hd Hy. unfold ImportRoute.convertDate.
  change (m ++ "/" ++ d ++ "/" ++ y)
    with (m ++ String Js.slash (d ++ String Js.slash y)).
  rewrite includes_separator, !split_at_separator by assumption.
  rewrite split_without_separator by assumption. reflexivity.
Qed.

Lemma convertDate_plain (value : string) :
  Js.includes Js.slash value = false ->
  Js.includes Js.space value = false ->
  ImportRoute.convertDate value = value.
Proof.
  intros H1 H2. unfold ImportRoute.convertDate. rewrite H1, H2. reflexivity.
Qed.

(** C7 - date coercion on an unparseable value.  For a date-typed
    target the route's mapper rewrites the text and never rejects it:
    a value that is no date is written to the field as it came, where
    the claim asks for null or undefined; the script's [parseDate]
    yields undefined for the same text, whatever the engine's date
    parser accepts. *)
Theorem mapRowToSchema_keeps_unparseable_date :
  ImportRoute.mapRowToSchema
    [("RegistrationDate", "garbage")]
    (ImportRoute.MappingObject [("RegistrationDate", "registrationDate")])
  = ImportRoute.Returned [("registrationDate", ImportRoute.VStr "garbage")]
  /\ ImportRoute.mapRowToSchema
       [("RegistrationDate", "13/45/2020")]
       (ImportRoute.MappingObject [("RegistrationDate", "registrationDate")])
     = ImportRoute.Returned [("registrationDate", ImportRoute.VStr "2020-13-45")]
  /\ (forall validDate, ImportScript.parseDate validDate (Some "garbage") = None).
Proof. repeat split. Qed.

(** ** Tenant scope of the conditions *)

(** The populate predicate only matches rows of the requesting tenant. *)
Lemma populate_conditions_scoped (organizationId : nat) (criteria : Criteria.t)
  (v : Voters.row) :
  ListsRoute.and_ (ListsRoute.conditions organizationId criteria) v = true ->
  Voters.organizationId v = organizationId.
Proof.
  unfold ListsRoute.and_, ListsRoute.conditions. simpl.
  intro H. apply andb_true_iff in H as [H _]. apply Nat.eqb_eq, H.
Qed.

(** So does the search predicate, whatever the pattern matcher is. *)
Lemma search_conditions_scoped (ilike : option string -> string -> bool)
  (organizationId : nat) (q : VotersRoute.query) (v : Voters.row) :
  ListsRoute.and_ (VotersRoute.conditions ilike organizationId q) v = true ->
  Voters.organizationId v = organizationId.
Proof.
  unfold ListsRoute.and_, VotersRoute.conditions. simpl.
  intro H. apply andb_true_iff in H as [H _]. apply Nat.eqb_eq, H.
Qed.

Lemma matchingVoters_scoped (organizationId : nat) (criteria : Criteria.t)
  (s : Store.t) (id : nat) :
  In id (ListsRoute.matchingVoters organizationId criteria s) ->
  exists v, In v (Store.voters s) /\ Voters.id v = id
            /\ Voters.organizationId v = organizationId.
Proof.
  unfold ListsRoute.matchingVoters. rewrite in_map_iff.
  intros (v & Hid & Hin). apply filter_In in Hin as [Hin Hc].
  exists v. repeat split; try assumption.
  eapply populate_conditions_scoped, Hc.
Qed.

(** C1 - tenant isolation in the import script.  The lookups of
    [processBatch] name the state voter id alone: importing V1 for
    tenant 1 finds the row of tenant 2, counts an update instead of an
    insert, and rewrites that row, tenant id included, so tenant 2 is
    left without its voter. *)
Theorem processBatch_lookup_crosses_tenants :
  forall validDate,
    ImportScript.findByStateVoterId "V1" sharedStore = Some otherTenantsVoter
    /\ Voters.organizationId otherTenantsVoter = 2
    /\ let (stats, s) :=
         ImportScript.importDistrict validDate 3 1 collidingFile sharedStore in
       ImportScript.imported stats = 0
       /\ ImportScript.updated stats = 1
       /\ map (fun v => (Voters.id v, Voters.organizationId v, Voters.lastName v))
              (Store.voters s)
          = [(1, 1, Some "Lee")].
Proof. intro validDate. repeat split. Qed.

(** ** Election history *)

(** The voter upsert of the route names (organizationId, stateVoterId)
    as its conflict target; the schema declares no unique index on
    these columns, so the statement is rejected and the store is left
    as it was. *)
Lemma insertVoterBatch_is_rejected (batch : list (Obj.t ImportRoute.jsValue))
  (organizationId : nat) (s : Store.t) :
  exists message, ImportRoute.insertVoterBatch batch organizationId s = (Some message, s).
Proof. eexists. reflexivity. Qed.

(** With the primary key as the only unique index, a new row, whose
    key is fresh, collides with no stored row. *)
(** An upload of type voters through the route therefore stores
    nothing: the two mapped rows of the file below are counted in
    errorRows and the table stays empty. *)
Lemma route_voter_upload_example :
  let (job, s) :=
    ImportRoute.upload_run (ImportRoute.insertBatchFor "voters" 1)
      twoColumns ["VoterId,FirstName" ++ nl ++ "V1,Ann" ++ nl ++ "V2,Bo" ++ nl]%string
      Store.empty in
  ImportRoute.jobSuccessRows job = 0
  /\ ImportRoute.jobErrorRows job = 2
  /\ Store.voters s = [].
Proof. repeat split. Qed.

Lemma fresh_election_row_never_collides (s : Store.t) (new : ElectionHistory.row) :
  storedIdsBelowCounter s ->
  ElectionHistory.id new = Store.nextElectionId s ->
  existsb (ElectionHistory.collide new) (Store.electionHistory s) = false.
Proof.
  unfold storedIdsBelowCounter. intros Hs Hid.
  induction (Store.electionHistory s) as [|e es IH]; simpl; [reflexivity|].
  inversion Hs as [|? ? He Hes]; subst.
  rewrite IH by assumption.
  unfold ElectionHistory.collide, ElectionHistory.uniqueIndexes. simpl.
  unfold ElectionHistory.agree. simpl.
  rewrite Hid. replace (Nat.eqb _ _) with false; [reflexivity|].
  symmetry. apply Nat.eqb_neq. lia.
Qed.

(** Every accepted insert into [election_history] adds a row, whether
    or not the voter already has one for that election date. *)
Lemma insertElection_always_adds (s : Store.t) (voterId org : nat) (date : string)
  (description type method : option string) :
  storedIdsBelowCounter s ->
  let (ok, s') :=
    insertElectionOnConflictDoNothing voterId (Some org) (Some date)
                                      description type method s in
  ok = true
  /\ length (Store.electionHistory s') = S (length (Store.electionHistory s))
  /\ storedIdsBelowCounter s'.
Proof.
  intro Hs. unfold insertElectionOnConflictDoNothing.
  rewrite fresh_election_row_never_collides by (assumption || reflexivity).
  split; [reflexivity|]. split.
  - simpl. rewrite length_app. simpl. lia.
  - unfold storedIdsBelowCounter in *. simpl.
    apply Forall_app. split.
    + eapply Forall_impl; [|exact Hs]. simpl. intros. lia.
    + constructor; [simpl; lia | constructor].
Qed.

(** C3 - election-history rows are not deduplicated.  The table has no
    unique index on (voter, election date), so [onConflictDoNothing]
    finds nothing to conflict with: the same record imported twice,
    in two runs, in one batch, or as two rows of one uploaded file, is
    stored twice. *)
Theorem insertElectionBatch_stores_duplicates :
  (let (_, s1) := ImportRoute.insertElectionBatch [historyRecord] 1 oneVoterStore in
   let (_, s2) := ImportRoute.insertElectionBatch [historyRecord] 1 s1 in
   map (fun e => (ElectionHistory.voterId e, ElectionHistory.electionDate e))
       (Store.electionHistory s2)
   = [(1, "2020-11-03"); (1, "2020-11-03")])
  /\ (let (_, s) :=
        ImportRoute.insertElectionBatch [historyRecord; historyRecord] 1 oneVoterStore in
      map (fun e => (ElectionHistory.voterId e, ElectionHistory.electionDate e))
          (Store.electionHistory s)
      = [(1, "2020-11-03"); (1, "2020-11-03")])
  /\ (let (job, s) :=
        ImportRoute.upload_run (ImportRoute.insertBatchFor "election_history" 1)
          historyColumns historyFile oneVoterStore in
      ImportRoute.status job = "completed"
      /\ map (fun e => (ElectionHistory.voterId e, ElectionHistory.electionDate e))
             (Store.electionHistory s)
         = [(1, "2020-11-03"); (1, "2020-11-03")]).
Proof. repeat split. Qed.

(** ** The upload handlers *)

Lemma count_app {A : Type} (p : A -> bool) (xs ys : list A) :
  count p (xs ++ ys) = count p xs + count p ys.
Proof. unfold count. rewrite filter_app, length_app. reflexivity. Qed.

Lemma count_partition (m : ImportRoute.mappingField) (rows : list (Obj.t string)) :
  count (threw m) rows + count (unmapped m) rows + count (mapped m) rows
  = length rows.
Proof.
  unfold count, threw, unmapped, mapped.
  induction rows as [|r rows IH]; simpl; [reflexivity|].
  destruct (ImportRoute.mapRowToSchema r m); simpl; lia.
Qed.

Lemma count_snoc {A : Type} (p : A -> bool) (xs : list A) (x : A) :
  count p (xs ++ [x]) = count p xs + (if p x then 1 else 0).
Proof.
  rewrite count_app. unfold count at 2. simpl. destruct (p x); reflexivity.
Qed.

Lemma outcome_cases (m : ImportRoute.mappingField) (r : Obj.t string) :
  (exists msg, ImportRoute.mapRowToSchema r m = ImportRoute.Threw msg
               /\ threw m r = true /\ mapped m r = false)
  \/ (ImportRoute.mapRowToSchema r m = ImportRoute.ReturnedNull
      /\ threw m r = false /\ mapped m r = false)
  \/ (exists o, ImportRoute.mapRowToSchema r m = ImportRoute.Returned o
                /\ threw m r = false /\ mapped m r = true).
Proof.
  unfold threw, mapped.
  destruct (ImportRoute.mapRowToSchema r m); eauto 6.
Qed.

Section UploadFacts.

Variable db : Type.
Variable insertBatch : list (Obj.t ImportRoute.jsValue) -> db -> option string * db.
Variable columnMapping : ImportRoute.mappingField.

Local Abbreviation processLine := (ImportRoute.processLine insertBatch columnMapping).
Local Abbreviation mapAndCount := (ImportRoute.mapAndCount columnMapping).
Local Abbreviation flush := (ImportRoute.flush insertBatch).

Lemma processLine_withBuffer (b : string) (u : ImportRoute.upload db) (line : string) :
  processLine (withBuffer b u) line = withBuffer b (processLine u line).
Proof.
  unfold ImportRoute.processLine.
  destruct (negb (Js.truthy (Js.trim line))); [reflexivity|].
  cbn [ImportRoute.headers withBuffer].
  destruct (ImportRoute.headers u) as [|h hs] eqn:Hh; [reflexivity|].
  unfold ImportRoute.mapAndCount. cbn [ImportRoute.headers withBuffer].
  rewrite Hh.
  destruct (ImportRoute.mapRowToSchema _ _); cbn -[Nat.leb ImportRoute.BATCH_SIZE];
    match goal with
    | |- context [Nat.leb ?a ?b] => destruct (Nat.leb a b)
    end; try reflexivity;
    unfold ImportRoute.flush; cbn -[Nat.leb ImportRoute.BATCH_SIZE];
    destruct (insertBatch _ _) as [[msg|] d]; reflexivity.
Qed.

Lemma fold_processLine_withBuffer (b : string) (lines : list string) :
  forall u, fold_left processLine lines (withBuffer b u)
            = withBuffer b (fold_left processLine lines u).
Proof.
  induction lines as [|l lines IH]; intro u; simpl; [reflexivity|].
  rewrite processLine_withBuffer. apply IH.
Qed.

Lemma withBuffer_twice (b b' : string) (u : ImportRoute.upload db) :
  withBuffer b (withBuffer b' u) = withBuffer b u.
Proof. reflexivity. Qed.

Lemma withBuffer_same (u : ImportRoute.upload db) :
  withBuffer (ImportRoute.buffer u) u = u.
Proof. destruct u. reflexivity. Qed.

(** The data handler, over all chunks, runs the loop body over the
    lines of [feed] and leaves its remainder in the buffer. *)
Lemma onData_chunks (chunks : list string) :
  forall u,
    fold_left (ImportRoute.onData insertBatch columnMapping) chunks u
    = withBuffer (snd (feed (ImportRoute.buffer u) chunks))
        (fold_left processLine (fst (feed (ImportRoute.buffer u) chunks)) u).
Proof.
  induction chunks as [|c chunks IH]; intro u; simpl.
  - symmetry. apply withBuffer_same.
  - rewrite IH. unfold ImportRoute.onData.
    fold (withBuffer (last (Js.split Js.newline (ImportRoute.buffer u ++ c)) EmptyString) u).
    rewrite fold_processLine_withBuffer. simpl.
    destruct (feed _ chunks) as [more final]. simpl.
    rewrite fold_left_app, !fold_processLine_withBuffer. reflexivity.
Qed.

End UploadFacts.

Section UploadInvariant.

Variable db : Type.
Variable insertBatch : list (Obj.t ImportRoute.jsValue) -> db -> option string * db.
Variable columnMapping : ImportRoute.mappingField.

Local Abbreviation processLine := (ImportRoute.processLine insertBatch columnMapping).
Local Abbreviation mapAndCount := (ImportRoute.mapAndCount columnMapping).
Local Abbreviation flush := (ImportRoute.flush insertBatch).
Local Abbreviation nThrew := (count (threw columnMapping)).
Local Abbreviation nMapped := (count (mapped columnMapping)).
Local Abbreviation accounted := (accountedFor columnMapping).

Lemma pushError_length (e : ImportRoute.importError) (es : list ImportRoute.importError) :
  length (ImportRoute.pushError e es)
  = if Nat.ltb (length es) 100 then S (length es) else length es.
Proof.
  unfold ImportRoute.pushError. destruct (Nat.ltb (length es) 100); [|reflexivity].
  rewrite length_app. simpl. lia.
Qed.

Lemma accounted_begin (d : db) : accounted 0 (ImportRoute.begin d) [].
Proof. constructor; unfold count; simpl; lia. Qed.

Lemma accounted_withBuffer (slack : nat) (b : string) (u : ImportRoute.upload db)
  (rows : list (Obj.t string)) :
  accounted slack u rows -> accounted slack (withBuffer b u) rows.
Proof. intros [H1 H2 H3 H4 H5]. constructor; assumption. Qed.

Lemma accounted_mapAndCount (report : bool) (slack : nat)
  (u : ImportRoute.upload db) (rows : list (Obj.t string)) (line : string) :
  accounted slack u rows ->
  accounted (if report then slack else S slack) (mapAndCount report line u)
            (rows ++ [rowOf (ImportRoute.headers u) line]).
Proof.
  intros [H1 H2 H3 H4 H5].
  unfold ImportRoute.mapAndCount. fold (rowOf (ImportRoute.headers u) line).
  set (r := rowOf (ImportRoute.headers u) line).
  pose proof (count_snoc (threw columnMapping) rows r) as Ct.
  pose proof (count_snoc (mapped columnMapping) rows r) as Cm.
  destruct (outcome_cases columnMapping r)
    as [(msg & -> & Et & Em) | [(-> & Et & Em) | (o & -> & Et & Em)]];
    rewrite Et in Ct; rewrite Em in Cm;
    constructor; cbn [ImportRoute.processedRows ImportRoute.errorRows
                      ImportRoute.successRows ImportRoute.batch ImportRoute.errors];
    rewrite ?length_app; simpl length; try lia.
  - destruct report; [rewrite pushError_length;
                      destruct (Nat.ltb (length (ImportRoute.errors u)) 100) eqn:E|];
      try lia.
    apply Nat.ltb_lt in E. lia.
  - destruct report.
    + rewrite pushError_length.
      destruct (Nat.ltb (length (ImportRoute.errors u)) 100) eqn:E.
      * apply Nat.ltb_lt in E. lia.
      * apply Nat.ltb_ge in E. lia.
    + lia.
  - destruct report; lia.
  - destruct report; lia.
Qed.

Lemma accounted_flush (slack : nat) (u : ImportRoute.upload db)
  (rows : list (Obj.t string)) :
  accounted slack u rows -> accounted slack (flush u) rows.
Proof.
  intros [H1 H2 H3 H4 H5]. unfold ImportRoute.flush.
  destruct (insertBatch _ _) as [[msg|] d]; constructor;
    cbn [ImportRoute.processedRows ImportRoute.errorRows
         ImportRoute.successRows ImportRoute.batch ImportRoute.errors];
    rewrite ?pushError_length; simpl length; try lia;
    destruct (Nat.ltb (length (ImportRoute.errors u)) 100) eqn:E;
    [apply Nat.ltb_lt in E | apply Nat.ltb_ge in E | apply Nat.ltb_lt in E
     | apply Nat.ltb_ge in E]; lia.
Qed.

Lemma processLine_blank (u : ImportRoute.upload db) (line : string) :
  nonBlank line = false -> processLine u line = u.
Proof.
  unfold nonBlank, ImportRoute.processLine. intros ->. reflexivity.
Qed.

Lemma processLine_data (u : ImportRoute.upload db) (line : string) :
  nonBlank line = true -> ImportRoute.headers u <> [] ->
  processLine u line
  = if Nat.leb ImportRoute.BATCH_SIZE
               (length (ImportRoute.batch (mapAndCount true line u)))
    then flush (mapAndCount true line u)
    else mapAndCount true line u.
Proof.
  unfold nonBlank, ImportRoute.processLine. intros -> Hh.
  destruct (ImportRoute.headers u); [congruence | reflexivity].
Qed.

Lemma headers_mapAndCount (report : bool) (line : string) (u : ImportRoute.upload db) :
  ImportRoute.headers (mapAndCount report line u) = ImportRoute.headers u.
Proof.
  unfold ImportRoute.mapAndCount.
  destruct (ImportRoute.mapRowToSchema _ _); reflexivity.
Qed.

Lemma headers_flush (u : ImportRoute.upload db) :
  ImportRoute.headers (flush u) = ImportRoute.headers u.
Proof.
  unfold ImportRoute.flush. destruct (insertBatch _ _) as [[msg|] d]; reflexivity.
Qed.

(** Once the headers are known, each non-blank line is one row. *)
Lemma data_phase (lines : list string) :
  forall u rows,
    ImportRoute.headers u <> [] ->
    accounted 0 u rows ->
    accounted 0 (fold_left processLine lines u)
      (rows ++ map (rowOf (ImportRoute.headers u)) (filter nonBlank lines))
    /\ ImportRoute.headers (fold_left processLine lines u) = ImportRoute.headers u.
Proof.
  induction lines as [|l lines IH]; intros u rows Hh Hacc; simpl.
  - rewrite app_nil_r. auto.
  - destruct (nonBlank l) eqn:Hl.
    + rewrite processLine_data by assumption.
      pose proof (accounted_mapAndCount true 0 u rows l Hacc) as H1.
      pose proof (headers_mapAndCount true l u) as Hh1.
      set (u1 := mapAndCount true l u) in *.
      assert (H2 : accounted 0
                     (if Nat.leb ImportRoute.BATCH_SIZE (length (ImportRoute.batch u1))
                      then flush u1 else u1)
                     (rows ++ [rowOf (ImportRoute.headers u) l])).
      { destruct (Nat.leb _ _); [apply accounted_flush|]; exact H1. }
      assert (Hh2 : ImportRoute.headers
                      (if Nat.leb ImportRoute.BATCH_SIZE (length (ImportRoute.batch u1))
                       then flush u1 else u1)
                    = ImportRoute.headers u).
      { destruct (Nat.leb _ _); [rewrite headers_flush|]; exact Hh1. }
      destruct (IH _ _ (eq_ind_r (fun h => h <> []) Hh Hh2) H2) as [Ha Hb].
      rewrite Hh2 in Ha, Hb. simpl. rewrite <- app_assoc in Ha. auto.
    + rewrite processLine_blank by assumption. apply IH; assumption.
Qed.

(** Before that, blank lines are skipped and the first other line
    gives the headers. *)
Lemma header_phase (lines : list string) :
  forall u,
    ImportRoute.headers u = [] ->
    accounted 0 u [] ->
    match filter nonBlank lines with
    | [] => fold_left processLine lines u = u
    | header :: data =>
        ImportRoute.headers (fold_left processLine lines u)
        = ImportRoute.parseCSVLine header
        /\ accounted 0 (fold_left processLine lines u)
             (map (rowOf (ImportRoute.parseCSVLine header)) data)
    end.
Proof.
  induction lines as [|l lines IH]; intros u Hh Hacc; simpl.
  - reflexivity.
  - destruct (nonBlank l) eqn:Hl.
    + set (u1 := processLine u l).
      assert (Hu1 : ImportRoute.headers u1 = ImportRoute.parseCSVLine l
                    /\ accounted 0 u1 []).
      { unfold u1, ImportRoute.processLine. unfold nonBlank in Hl. rewrite Hl, Hh.
        simpl. split; [reflexivity|].
        destruct Hacc as [H1 H2 H3 H4 H5]. constructor; assumption. }
      destruct Hu1 as [Hh1 Hacc1].
      assert (Hne : ImportRoute.headers u1 <> []).
      { rewrite Hh1. apply parseWith_nonempty. }
      destruct (data_phase lines u1 [] Hne Hacc1) as [Ha Hb].
      rewrite Hh1 in Ha, Hb. simpl in Ha. auto.
    + rewrite processLine_blank by assumption. apply IH; assumption.
Qed.

Lemma accounted_flushLast (slack : nat) (u : ImportRoute.upload db)
  (rows : list (Obj.t string)) :
  accounted slack u rows ->
  let u2 := ImportRoute.flushLast insertBatch u in
  ImportRoute.processedRows u2 = length rows
  /\ ImportRoute.successRows u2 + ImportRoute.errorRows u2
     = nThrew rows + nMapped rows
  /\ nThrew rows <= ImportRoute.errorRows u2
  /\ ImportRoute.errors u2 = ImportRoute.errors u.
Proof.
  intros [H1 H2 H3 H4 H5]. unfold ImportRoute.flushLast.
  destruct (ImportRoute.batch u) as [|m ms] eqn:Hb.
  - simpl in *. repeat split; try lia.
  - destruct (insertBatch _ _) as [[msg|] d]; simpl in *; repeat split; lia.
Qed.

(** The job row an upload leaves behind, against the rows it read. *)
Lemma upload_run_accounts (chunks : list string) (d : db) :
  let job := fst (ImportRoute.upload_run insertBatch columnMapping chunks d) in
  let rows := observedRows chunks in
  ImportRoute.status job = "completed"
  /\ ImportRoute.totalRows job = length rows
  /\ ImportRoute.jobProcessedRows job = length rows
  /\ ImportRoute.jobSuccessRows job + ImportRoute.jobErrorRows job
     = nThrew rows + nMapped rows
  /\ nThrew rows <= ImportRoute.jobErrorRows job
  /\ length (ImportRoute.jobErrors job) <= 100
  /\ (length (ImportRoute.jobErrors job) = 100
      \/ nThrew rows <= length (ImportRoute.jobErrors job) + 1).
Proof.
  unfold ImportRoute.upload_run. rewrite onData_chunks.
  unfold observedRows.
  change (ImportRoute.buffer (ImportRoute.begin d)) with EmptyString.
  destruct (feed EmptyString chunks) as [lines final]. cbn [fst snd].
  pose proof (header_phase lines (ImportRoute.begin d) eq_refl (accounted_begin d)) as Hp.
  set (u := fold_left processLine lines (ImportRoute.begin d)) in *.
  assert (Hend : exists slack u1 rows,
             rows = match filter nonBlank lines with
                    | [] => []
                    | header :: data =>
                        map (fun l => ImportRoute.buildRow
                                        (ImportRoute.parseCSVLine header)
                                        (ImportRoute.parseCSVLine l))
                            (data ++ (if nonBlank final then [final] else []))
                    end
             /\ slack <= 1
             /\ accounted slack u1 rows
             /\ ImportRoute.onEnd insertBatch columnMapping (withBuffer final u)
                = (let u2 := ImportRoute.flushLast insertBatch u1 in
                   ({| ImportRoute.status := "completed";
                       ImportRoute.totalRows := ImportRoute.processedRows u2;
                       ImportRoute.jobProcessedRows := ImportRoute.processedRows u2;
                       ImportRoute.jobSuccessRows := ImportRoute.successRows u2;
                       ImportRoute.jobErrorRows := ImportRoute.errorRows u2;
                       ImportRoute.jobErrors := ImportRoute.errors u2 |},
                    ImportRoute.database u2))).
  { unfold ImportRoute.onEnd. cbn [ImportRoute.buffer ImportRoute.headers withBuffer].
    fold (nonBlank final).
    destruct (filter nonBlank lines) as [|header data].
    - rewrite Hp. simpl. rewrite andb_false_r.
      exists 0, (withBuffer final (ImportRoute.begin d)), [].
      split; [reflexivity|]. split; [lia|]. split; [|reflexivity].
      apply accounted_withBuffer, accounted_begin.
    - destruct Hp as [Hh Hacc].
      assert (Hlt : Nat.ltb 0 (length (ImportRoute.headers u)) = true).
      { apply Nat.ltb_lt. rewrite Hh.
        pose proof (parseWith_nonempty Js.trim header) as Hne.
        unfold ImportRoute.parseCSVLine.
        destruct (Csv.parseWith Js.trim header); [congruence | simpl; lia]. }
      rewrite Hlt, andb_true_r.
      destruct (nonBlank final).
      + exists 1, (mapAndCount false final (withBuffer final u)),
          (map (rowOf (ImportRoute.parseCSVLine header)) data
           ++ [rowOf (ImportRoute.parseCSVLine header) final])%list.
        split; [rewrite map_app; reflexivity|]. split; [lia|]. split; [|reflexivity].
        rewrite <- Hh.
        apply (accounted_mapAndCount false 0 (withBuffer final u)).
        apply accounted_withBuffer. rewrite Hh. exact Hacc.
      + exists 0, (withBuffer final u),
          (map (rowOf (ImportRoute.parseCSVLine header)) data).
        split; [rewrite app_nil_r; reflexivity|]. split; [lia|].
        split; [|reflexivity]. apply accounted_withBuffer, Hacc. }
  destruct Hend as (slack & u1 & rows & Hrows & Hslack & Hacc & ->).
  rewrite <- Hrows. cbv zeta. cbn [fst].
  destruct (accounted_flushLast slack u1 rows Hacc) as (F1 & F2 & F3 & F4).
  destruct Hacc as [H1 H2 H3 H4 H5].
  cbn [ImportRoute.status ImportRoute.totalRows ImportRoute.jobProcessedRows
       ImportRoute.jobSuccessRows ImportRoute.jobErrorRows ImportRoute.jobErrors].
  rewrite F4. repeat split; try assumption. lia.
Qed.

End UploadInvariant.



(** C6 - when more than 100 rows of an upload throw in the mapper, the
    error list persisted with the job has exactly 100 entries, while
    errorRows counts every errored row: the rows that threw, and the
    rows of the batches whose write failed (the mapped rows that are
    not in successRows). *)
Theorem error_list_is_capped_at_100
  (db : Type)
  (insertBatch : list (Obj.t ImportRoute.jsValue) -> db -> option string * db)
  (columnMapping : ImportRoute.mappingField) (chunks : list string) (d : db) :
  let job := fst (ImportRoute.upload_run insertBatch columnMapping chunks d) in
  let rows := observedRows chunks in
  100 < count (threw columnMapping) rows ->
  length (ImportRoute.jobErrors job) = 100
  /\ ImportRoute.jobSuccessRows job <= count (mapped columnMapping) rows
  /\ ImportRoute.jobErrorRows job
     = count (threw columnMapping) rows
       + (count (mapped columnMapping) rows - ImportRoute.jobSuccessRows job).
Proof.
  intros job rows Hmany.
  destruct (upload_run_accounts db insertBatch columnMapping chunks d)
    as (_ & _ & _ & H4 & H5 & H6 & H7).
  fold job in H4, H5, H6, H7. fold rows in H4, H5, H7.
  repeat split; lia.
Qed.

Lemma error_list_is_capped_at_100_witness :
  let job := fst (ImportRoute.upload_run (ImportRoute.insertBatchFor "voters" 1)
                    ImportRoute.MappingNull fiveHundredRows Store.empty) in
  length (ImportRoute.jobErrors job) = 100
  /\ ImportRoute.jobErrorRows job = 500.
Proof.
  intro job.
  assert (Ht : count (threw ImportRoute.MappingNull) (observedRows fiveHundredRows) = 500)
    by (vm_compute; reflexivity).
  assert (Hm : count (mapped ImportRoute.MappingNull) (observedRows fiveHundredRows) = 0)
    by (vm_compute; reflexivity).
  destruct (error_list_is_capped_at_100 Store.t
              (ImportRoute.insertBatchFor "voters" 1)
              ImportRoute.MappingNull fiveHundredRows Store.empty)
    as (H1 & H2 & H3).
  - rewrite Ht. lia.
  - fold job in H1, H2, H3. rewrite Ht, Hm in H3. split; [exact H1 | lia].
Defined.

(** ** Populate *)

Lemma slicesOf_concat {A : Type} (n : nat) (xs : list A) :
  concat (slicesOf n xs) = xs.
Proof.
  funelim (slicesOf n xs).
  - reflexivity.
  - simp slicesOf. cbn [concat].
    match goal with IH : concat _ = _ |- _ => rewrite IH end.
    apply firstn_skipn.
Qed.

Lemma distinctRows_memberRows (listId user : nat) (ids : list nat) :
  NoDup ids -> ListsRoute.distinctRows (map (memberRow listId user) ids) = true.
Proof.
  induction 1 as [|id ids Hnotin Hnd IH]; simpl; [reflexivity|].
  rewrite IH, andb_true_r. apply negb_true_iff.
  destruct (existsb _ _) eqn:E; [|reflexivity].
  apply existsb_exists in E as (r & Hin & Hc).
  apply in_map_iff in Hin as (id' & <- & Hin).
  unfold VoterListMembers.collide in Hc. simpl in Hc.
  apply andb_true_iff in Hc as [_ Hc]. apply Nat.eqb_eq in Hc.
  subst id'. contradiction.
Qed.

Lemma no_collision_with_stored (listId user : nat) (ids : list nat)
  (stored : list VoterListMembers.row) :
  (forall m, In m stored -> VoterListMembers.listId m = listId ->
             ~ In (VoterListMembers.voterId m) ids) ->
  forallb (fun r => negb (existsb (VoterListMembers.collide r) stored))
          (map (memberRow listId user) ids) = true.
Proof.
  intro H. apply forallb_forall. intros r Hr.
  apply in_map_iff in Hr as (id & <- & Hin).
  apply negb_true_iff. destruct (existsb _ _) eqn:E; [|reflexivity].
  apply existsb_exists in E as (m & Hm & Hc).
  unfold VoterListMembers.collide in Hc. simpl in Hc.
  apply andb_true_iff in Hc as [Hl Hv].
  apply Nat.eqb_eq in Hl. apply Nat.eqb_eq in Hv.
  exfalso. apply (H m Hm); [congruence | rewrite <- Hv; exact Hin].
Qed.

(** When the ids to insert are distinct and none is a member yet, the
    batch loop writes them all, in order. *)
Lemma insertBatches_writes_all (listId user : nat) (batches : list (list nat)) :
  forall added s,
    NoDup (concat batches) ->
    (forall m, In m (Store.voterListMembers s) ->
               VoterListMembers.listId m = listId ->
               ~ In (VoterListMembers.voterId m) (concat batches)) ->
    ListsRoute.insertBatches listId user batches added s
    = (true, added + length (concat batches),
       Store.withMembers
         (Store.voterListMembers s ++ map (memberRow listId user) (concat batches)) s).
Proof.
  induction batches as [|batch rest IH]; intros added s Hnd Hfree; simpl.
  - rewrite app_nil_r, Nat.add_0_r. destruct s; reflexivity.
  - simpl in Hnd, Hfree.
    apply NoDup_app_remove_r in Hnd as Hbatch.
    apply NoDup_app_remove_l in Hnd as Hrest.
    unfold ListsRoute.insertMembers.
    fold (memberRow listId user).
    rewrite distinctRows_memberRows by assumption.
    rewrite no_collision_with_stored.
    2:{ intros m Hm Hl Hin. apply (Hfree m Hm Hl), in_or_app. left. exact Hin. }
    simpl. rewrite IH.
    + simpl. rewrite length_app, map_app, <- app_assoc, Nat.add_assoc. reflexivity.
    + exact Hrest.
    + simpl. intros m Hm Hl Hin.
      apply in_app_or in Hm as [Hm|Hm].
      * apply (Hfree m Hm Hl), in_or_app. right. exact Hin.
      * apply in_map_iff in Hm as (id & <- & Hid). simpl in Hin.
        rewrite NoDup_nth_error in Hnd.
        clear - Hnd Hid Hin Hbatch Hrest.
        apply In_nth_error in Hid as (i & Hi).
        apply In_nth_error in Hin as (j & Hj).
        assert (Hi' : nth_error (batch ++ concat rest) i = Some id).
        { rewrite nth_error_app1; [exact Hi|].
          apply nth_error_Some. congruence. }
        assert (Hj' : nth_error (batch ++ concat rest) (length batch + j) = Some id).
        { rewrite nth_error_app2 by lia.
          replace (length batch + j - length batch) with j by lia. exact Hj. }
        assert (i < length batch) by (apply nth_error_Some; congruence).
        assert (i = length batch + j).
        { apply Hnd; [rewrite length_app; lia | congruence]. }
        lia.
Qed.

Lemma NoDup_map_filter {A B : Type} (f : A -> B) (p : A -> bool) (xs : list A) :
  NoDup (map f xs) -> NoDup (map f (filter p xs)).
Proof.
  induction xs as [|x xs IH]; simpl; intro H; [constructor|].
  inversion H as [|? ? Hnotin Hnd]; subst.
  destruct (p x); simpl; [constructor|]; auto.
  intro Hin. apply Hnotin.
  apply in_map_iff in Hin as (y & Hy & Hin).
  apply filter_In in Hin as [Hin _].
  apply in_map_iff. exists y. auto.
Qed.

Lemma matchingVoters_NoDup (organizationId : nat) (criteria : Criteria.t) (s : Store.t) :
  Store.keysFresh s -> NoDup (ListsRoute.matchingVoters organizationId criteria s).
Proof. intros [H _]. apply NoDup_map_filter, H. Qed.

(** Populate with criteria in the body, on a list of the tenant:
    the request succeeds, and the store it leaves is [populated]. *)
Lemma populate_succeeds (organizationId user listId : nat) (criteria : Criteria.t)
  (s : Store.t) :
  Store.keysFresh s ->
  ListsRoute.findList listId organizationId s <> None ->
  ListsRoute.populate organizationId user listId (Some criteria) s
  = (ListsRoute.Populated
       (length (ListsRoute.matchingVoters organizationId criteria s)),
     populated organizationId user listId criteria s).
Proof.
  intros Hfresh Hlist. unfold ListsRoute.populate.
  destruct (ListsRoute.findList listId organizationId s) as [l|]; [|congruence].
  rewrite insertBatches_writes_all.
  - unfold slices. rewrite slicesOf_concat. reflexivity.
  - unfold slices. rewrite slicesOf_concat.
    apply matchingVoters_NoDup, Hfresh.
  - simpl. intros m Hm Hl _. apply filter_In in Hm as [_ Hm].
    apply negb_true_iff, Nat.eqb_neq in Hm. contradiction.
Qed.

Lemma membersOf_populated (organizationId user listId : nat) (criteria : Criteria.t)
  (s : Store.t) :
  ListsRoute.membersOf listId (populated organizationId user listId criteria s)
  = map (memberRow listId user)
        (ListsRoute.matchingVoters organizationId criteria s).
Proof.
  unfold ListsRoute.membersOf, populated. simpl.
  rewrite filter_app.
  replace (filter _ (filter _ (Store.voterListMembers s))) with (@nil VoterListMembers.row).
  - simpl. induction (ListsRoute.matchingVoters organizationId criteria s) as [|v vs IH];
      simpl; [reflexivity|]. rewrite Nat.eqb_refl, IH. reflexivity.
  - induction (Store.voterListMembers s) as [|m ms IH]; simpl; [reflexivity|].
    destruct (Nat.eqb (VoterListMembers.listId m) listId) eqn:E; simpl;
      rewrite ?E; exact IH.
Qed.

Lemma membersOf_other_list (organizationId user listId other : nat)
  (criteria : Criteria.t) (s : Store.t) :
  other <> listId ->
  ListsRoute.membersOf other (populated organizationId user listId criteria s)
  = ListsRoute.membersOf other s.
Proof.
  intro Hne. unfold ListsRoute.membersOf, populated. simpl.
  rewrite filter_app.
  replace (filter _ (map (memberRow listId user) _)) with (@nil VoterListMembers.row).
  - rewrite app_nil_r.
    induction (Store.voterListMembers s) as [|m ms IH]; simpl; [reflexivity|].
    destruct (Nat.eqb (VoterListMembers.listId m) listId) eqn:E; simpl.
    + apply Nat.eqb_eq in E.
      replace (Nat.eqb (VoterListMembers.listId m) other) with false; [exact IH|].
      symmetry. apply Nat.eqb_neq. congruence.
    + destruct (Nat.eqb (VoterListMembers.listId m) other); rewrite IH; reflexivity.
  - induction (ListsRoute.matchingVoters organizationId criteria s) as [|v vs IH];
      simpl; [reflexivity|].
    replace (Nat.eqb listId other) with false; [exact IH|].
    symmetry. apply Nat.eqb_neq. congruence.
Qed.

Lemma findList_populated (organizationId user listId : nat) (criteria : Criteria.t)
  (s : Store.t) :
  ListsRoute.findList listId organizationId s <> None ->
  exists l,
    ListsRoute.findList listId organizationId
      (populated organizationId user listId criteria s) = Some l
    /\ VoterLists.filterCriteria l = Some criteria.
Proof.
  unfold ListsRoute.findList, populated. simpl.
  induction (Store.voterLists s) as [|l ls IH]; simpl; [congruence|].
  destruct (Nat.eqb (VoterLists.id l) listId) eqn:E; simpl; rewrite E; simpl.
  - destruct (Nat.eqb (VoterLists.organizationId l) organizationId); [eauto | exact IH].
  - exact IH.
Qed.

Lemma keysFresh_members (ms : list VoterListMembers.row) (s : Store.t) :
  Store.keysFresh s -> Store.keysFresh (Store.withMembers ms s).
Proof. intro H. exact H. Qed.

Lemma keysFresh_populated (organizationId user listId : nat) (criteria : Criteria.t)
  (s : Store.t) :
  Store.keysFresh s -> Store.keysFresh (populated organizationId user listId criteria s).
Proof. intro H. exact H. Qed.

(** C5 - dynamic list replacement.  On a list of the tenant, a
    populate with criteria c1 followed by a populate with criteria c2
    both succeed, whatever members the list had before and whatever
    was added or removed in between, and leave as members of the list
    exactly the tenant's voters matching c2, each once: nothing of the
    first evaluation or of manual adds stays unless it matches c2.
    The count returned is the size of that set, c2 is stored as the
    list's criteria, and the voters and the other lists are left as
    they were. *)
Theorem populate_twice_keeps_second_match_set
  (organizationId user listId : nat) (c1 c2 : Criteria.t) (s : Store.t)
  (stored : VoterLists.row) (between : list VoterListMembers.row) :
  Store.keysFresh s ->
  ListsRoute.findList listId organizationId s = Some stored ->
  exists n1 s1 n2 s2,
    ListsRoute.populate organizationId user listId (Some c1) s
    = (ListsRoute.Populated n1, s1)
    /\ ListsRoute.populate organizationId user listId (Some c2)
         (Store.withMembers between s1)
       = (ListsRoute.Populated n2, s2)
    /\ ListsRoute.membersOf listId s2
       = map (memberRow listId user)
             (ListsRoute.matchingVoters organizationId c2 s)
    /\ NoDup (map VoterListMembers.voterId (ListsRoute.membersOf listId s2))
    /\ (forall id,
          In id (map VoterListMembers.voterId (ListsRoute.membersOf listId s2))
          <-> exists v, In v (Store.voters s) /\ Voters.id v = id
                        /\ Voters.organizationId v = organizationId
                        /\ ListsRoute.and_ (ListsRoute.conditions organizationId c2) v
                           = true)
    /\ n2 = length (ListsRoute.matchingVoters organizationId c2 s)
    /\ (exists l, ListsRoute.findList listId organizationId s2 = Some l
                  /\ VoterLists.filterCriteria l = Some c2)
    /\ (forall other, other <> listId ->
          ListsRoute.membersOf other s2
          = filter (fun m => Nat.eqb (VoterListMembers.listId m) other) between)
    /\ Store.voters s2 = Store.voters s.
Proof.
  intros Hfresh Hlist.
  assert (Hsome : ListsRoute.findList listId organizationId s <> None) by congruence.
  set (s1 := populated organizationId user listId c1 s).
  set (s1' := Store.withMembers between s1).
  assert (Hfresh' : Store.keysFresh s1') by exact Hfresh.
  assert (Hsome' : ListsRoute.findList listId organizationId s1' <> None).
  { destruct (findList_populated organizationId user listId c1 s Hsome) as (l & Hl & _).
    unfold s1', ListsRoute.findList. simpl.
    unfold ListsRoute.findList, populated in Hl. simpl in Hl. congruence. }
  assert (Hsame : ListsRoute.matchingVoters organizationId c2 s1'
                  = ListsRoute.matchingVoters organizationId c2 s) by reflexivity.
  assert (Hids : map VoterListMembers.voterId
                   (map (memberRow listId user)
                        (ListsRoute.matchingVoters organizationId c2 s))
                 = ListsRoute.matchingVoters organizationId c2 s).
  { rewrite map_map. simpl. apply map_id. }
  exists (length (ListsRoute.matchingVoters organizationId c1 s)), s1,
         (length (ListsRoute.matchingVoters organizationId c2 s1')),
         (populated organizationId user listId c2 s1').
  split; [apply populate_succeeds; assumption|].
  split; [apply populate_succeeds; assumption|].
  rewrite membersOf_populated, Hsame, Hids.
  split; [reflexivity|].
  split; [apply matchingVoters_NoDup, Hfresh|].
  split.
  { intro id. split.
    - intro Hin. apply matchingVoters_scoped in Hin as Hv.
      destruct Hv as (v & Hv & Hid & Horg).
      unfold ListsRoute.matchingVoters in Hin.
      apply in_map_iff in Hin as (w & Hw & Hin).
      apply filter_In in Hin as [Hin Hc].
      exists w. repeat split; try assumption.
      eapply populate_conditions_scoped, Hc.
    - intros (v & Hv & Hid & _ & Hc).
      unfold ListsRoute.matchingVoters. apply in_map_iff.
      exists v. split; [exact Hid|]. apply filter_In. auto. }
  split; [reflexivity|].
  split; [apply findList_populated, Hsome'|].
  split; [|reflexivity].
  intros other Hne. rewrite membersOf_other_list by assumption. reflexivity.
Qed.

Lemma populate_twice_keeps_second_match_set_witness :
  map VoterListMembers.voterId
      (ListsRoute.membersOf 7
         (snd (ListsRoute.populate 1 9 7 (Some withPhone)
                 (Store.withMembers [memberRow 7 9 1; memberRow 7 9 3]
                    (snd (ListsRoute.populate 1 9 7 (Some inDuluth) twoTenants))))))
  = [2].
Proof.
  destruct (populate_twice_keeps_second_match_set 1 9 7 inDuluth withPhone twoTenants
              {| VoterLists.id := 7; VoterLists.organizationId := 1;
                 VoterLists.name := "Doors"; VoterLists.filterCriteria := None |}
              [memberRow 7 9 1; memberRow 7 9 3])
    as (n1 & s1 & n2 & s2 & H1 & H2 & H3 & _).
  - split; [repeat constructor; simpl; intuition discriminate
           | repeat constructor; simpl; lia].
  - reflexivity.
  - rewrite H1. cbn [snd]. rewrite H2. cbn [snd]. rewrite H3. reflexivity.
Defined.

(** ** The import script, row by row *)

Section ScriptFacts.

Variable validDate : string -> bool.
Variable districtNum : Z.
Variable orgId : nat.

Local Abbreviation upsertVoter := ImportScript.upsertVoter.
Local Abbreviation voterOfLine := (lineVoter validDate districtNum orgId).
Local Abbreviation lineEffect := (effectOfLine validDate districtNum orgId).

Lemma voterOfLine_id (headers : list string) (line : string) :
  ImportScript.stateVoterId (voterOfLine headers line) = externalId headers line.
Proof. reflexivity. Qed.

Lemma voterOfLine_org (headers : list string) (line : string) :
  ImportScript.organizationId (voterOfLine headers line) = orgId.
Proof. reflexivity. Qed.

(** The history inserts of the script are all rejected: the object has
    no [organizationId]. *)
Lemma insertElections_idle (a : ImportScript.ImportStats * Store.t)
  (item : string * list ImportScript.ElectionRecord) :
  ImportScript.insertElections a item = a.
Proof.
  destruct a as [t s]. unfold ImportScript.insertElections.
  destruct (ImportScript.findByStateVoterId (fst item) s) as [voter|]; [|reflexivity].
  induction (snd item) as [|e es IH]; simpl; [reflexivity | exact IH].
Qed.

Lemma fold_insertElections_idle (items : list (string * list ImportScript.ElectionRecord))
  (a : ImportScript.ImportStats * Store.t) :
  fold_left ImportScript.insertElections items a = a.
Proof.
  induction items as [|i items IH]; simpl; [reflexivity|].
  rewrite insertElections_idle. exact IH.
Qed.

Lemma upsertVoter_onStats (f : ImportScript.ImportStats -> ImportScript.ImportStats)
  (a : ImportScript.ImportStats * Store.t) (v : ImportScript.VoterRecord) :
  (forall t, f (ImportScript.countUpdated t) = ImportScript.countUpdated (f t)) ->
  (forall t, f (ImportScript.countImported t) = ImportScript.countImported (f t)) ->
  upsertVoter (onStats f a) v = onStats f (upsertVoter a v).
Proof.
  intros Hu Hi. destruct a as [t s]. unfold onStats, ImportScript.upsertVoter. simpl.
  destruct (ImportScript.findByStateVoterId _ s); simpl; [rewrite Hu | rewrite Hi];
    reflexivity.
Qed.

Lemma fold_upsertVoter_onStats (f : ImportScript.ImportStats -> ImportScript.ImportStats)
  (vs : list ImportScript.VoterRecord) :
  (forall t, f (ImportScript.countUpdated t) = ImportScript.countUpdated (f t)) ->
  (forall t, f (ImportScript.countImported t) = ImportScript.countImported (f t)) ->
  forall a, fold_left upsertVoter vs (onStats f a)
            = onStats f (fold_left upsertVoter vs a).
Proof.
  intros Hu Hi. induction vs as [|v vs IH]; intro a; cbn [fold_left]; [reflexivity|].
  rewrite upsertVoter_onStats by assumption. apply IH.
Qed.

Lemma settled_processBatch (r : ImportScript.run) :
  settled (ImportScript.processBatch r) = settled r
  /\ (ImportScript.stats (ImportScript.processBatch r),
      ImportScript.store (ImportScript.processBatch r)) = settled r.
Proof.
  unfold ImportScript.processBatch, settled.
  destruct (ImportScript.voterBatch r) as [|v vs] eqn:Hb; [rewrite Hb; auto|].
  cbv beta iota. rewrite fold_insertElections_idle.
  destruct (fold_left upsertVoter (v :: vs) _) as [t s]. auto.
Qed.

Lemma settled_processLine (headers : list string) (r : ImportScript.run)
  (line : string) :
  settled (ImportScript.processLine validDate districtNum orgId headers r line)
  = lineEffect headers (settled r) line.
Proof.
  unfold ImportScript.processLine, effectOfLine.
  fold (voterOfLine headers line). rewrite voterOfLine_id.
  destruct (negb (Js.truthy (externalId headers line))).
  - unfold settled. simpl.
    change (ImportScript.countSkipped (ImportScript.countRow (ImportScript.stats r)),
            ImportScript.store r)
      with (onStats (fun t => ImportScript.countSkipped (ImportScript.countRow t))
                    (ImportScript.stats r, ImportScript.store r)).
    rewrite fold_upsertVoter_onStats by reflexivity. reflexivity.
  - match goal with
    | |- settled (if ?c then ImportScript.processBatch ?r1 else ?r1) = _ =>
        assert (E : settled (if c then ImportScript.processBatch r1 else r1) = settled r1)
          by (destruct c; [apply settled_processBatch | reflexivity]);
        rewrite E; clear E
    end.
    unfold settled. simpl. rewrite fold_left_app. simpl.
    change (ImportScript.countRow (ImportScript.stats r), ImportScript.store r)
      with (onStats ImportScript.countRow (ImportScript.stats r, ImportScript.store r)).
    rewrite fold_upsertVoter_onStats by reflexivity.
    reflexivity.
Qed.

(** The batches do not show in the result: a run is the fold of the
    line effects. *)
Lemma importDistrict_by_line (header : string) (rows : list string) (s : Store.t) :
  ImportScript.importDistrict validDate districtNum orgId (header :: rows) s
  = fold_left (lineEffect (ImportScript.parseHeaders header)) rows
              (ImportScript.mkStats 0 0 0 0 0 0, s).
Proof.
  unfold ImportScript.importDistrict.
  set (r0 := ImportScript.mkRun (ImportScript.mkStats 0 0 0 0 0 0) [] [] s).
  change (ImportScript.mkStats 0 0 0 0 0 0, s) with (settled r0).
  generalize r0. clear r0.
  induction rows as [|l rows IH]; intro r; simpl.
  - apply settled_processBatch.
  - rewrite <- settled_processLine. apply IH.
Qed.

End ScriptFacts.

Lemma find_absent {A : Type} (p : A -> bool) (xs : list A) :
  (forall x, In x xs -> p x = false) -> find p xs = None.
Proof.
  induction xs as [|x xs IH]; simpl; intro H; [reflexivity|].
  rewrite (H x) by auto. apply IH. auto.
Qed.

Lemma find_present {A : Type} (p : A -> bool) (xs : list A) (x : A) :
  In x xs -> p x = true -> exists y, find p xs = Some y /\ In y xs /\ p y = true.
Proof.
  induction xs as [|a xs IH]; simpl; intros Hin Hp; [contradiction|].
  destruct (p a) eqn:Ea; [eauto|].
  destruct Hin as [->|Hin]; [congruence|].
  destruct (IH Hin Hp) as (y & Hy & Hyin & Hyp). eauto.
Qed.

Lemma eqText_true (column : option string) (text : string) :
  Store.eqText column text = true <-> column = Some text.
Proof.
  unfold Store.eqText. destruct column as [v|]; [|split; discriminate].
  rewrite String.eqb_eq. split; congruence.
Qed.

Lemma NoDup_map_inj {A B : Type} (f : A -> B) (xs : list A) (a b : A) :
  NoDup (map f xs) -> In a xs -> In b xs -> f a = f b -> a = b.
Proof.
  induction xs as [|x xs IH]; simpl; intros Hnd Ha Hb Hf; [contradiction|].
  inversion Hnd as [|? ? Hnotin Hnd']; subst.
  destruct Ha as [->|Ha], Hb as [->|Hb]; auto.
  - exfalso. apply Hnotin. rewrite Hf. apply in_map, Hb.
  - exfalso. apply Hnotin. rewrite <- Hf. apply in_map, Ha.
Qed.

Lemma tenantRows_by_keys (organizationId : nat) (s s' : Store.t) :
  map keyOf (Store.voters s') = map keyOf (Store.voters s) ->
  length (tenantRows organizationId s') = length (tenantRows organizationId s).
Proof.
  unfold tenantRows. generalize (Store.voters s'), (Store.voters s).
  induction l as [|a l IH]; intros [|b l'] H; simpl in *; try discriminate; auto.
  inversion H as [[Hid Horg Hsid Hrest]]. rewrite Horg.
  destruct (Nat.eqb (Voters.organizationId b) organizationId); simpl; auto.
Qed.

Section Reimport.

Variable validDate : string -> bool.
Variable districtNum : Z.
Variable orgId : nat.
Variable headers : list string.

Local Abbreviation effect := (effectOfLine validDate districtNum orgId headers).
Local Abbreviation idOf := (externalId headers).

Lemma effect_on_identified (a : ImportScript.ImportStats * Store.t) (line : string) :
  idOf line <> EmptyString ->
  effect a line
  = ImportScript.upsertVoter (onStats ImportScript.countRow a)
      (lineVoter validDate districtNum orgId headers line).
Proof.
  intro H. unfold effectOfLine.
  destruct (idOf line); [congruence | reflexivity].
Qed.

(** First import: none of the identifiers is stored, each row is
    inserted. *)
Lemma first_run (rows : list string) :
  forall t s,
    Forall (fun id => id <> EmptyString) (map idOf rows) ->
    NoDup (map idOf rows) ->
    (forall v id, In v (Store.voters s) -> In id (map idOf rows) ->
                  Voters.stateVoterId v <> Some id) ->
    Store.keysFresh s ->
    exists t' s',
      fold_left effect rows (t, s) = (t', s')
      /\ ImportScript.imported t' = ImportScript.imported t + length rows
      /\ ImportScript.updated t' = ImportScript.updated t
      /\ ImportScript.skipped t' = ImportScript.skipped t
      /\ ImportScript.totalRows t' = ImportScript.totalRows t + length rows
      /\ Store.keysFresh s'
      /\ length (tenantRows orgId s') = length (tenantRows orgId s) + length rows
      /\ incl (Store.voters s) (Store.voters s')
      /\ (forall id, In id (map idOf rows) ->
                     In (Some id) (map Voters.stateVoterId (Store.voters s')))
      /\ (forall v, In v (Store.voters s') ->
                    In v (Store.voters s)
                    \/ (Voters.organizationId v = orgId
                        /\ exists id, In id (map idOf rows)
                                      /\ Voters.stateVoterId v = Some id)).
Proof.
  induction rows as [|l rows IH]; intros t s Hne Hnd Hfree Hfresh.
  - exists t, s. simpl.
    split; [reflexivity|]. split; [lia|]. split; [reflexivity|].
    split; [reflexivity|]. split; [lia|]. split; [exact Hfresh|].
    split; [lia|]. split; [apply incl_refl|]. split; [contradiction | auto].
  - simpl in Hne, Hnd. inversion Hne as [|? ? Hl Hne']; subst.
    inversion Hnd as [|? ? Hnotin Hnd']; subst.
    cbn [fold_left]. rewrite effect_on_identified by assumption.
    unfold ImportScript.upsertVoter, onStats. cbn [fst snd].
    unfold ImportScript.findByStateVoterId.
    rewrite find_absent.
    2:{ intros v Hv. destruct (Store.eqText _ _) eqn:E; [|reflexivity].
        apply eqText_true in E. rewrite voterOfLine_id in E.
        exfalso. apply (Hfree v (idOf l)); simpl; auto. }
    set (new := ImportScript.newVoter (Store.nextVoterId s)
                  (lineVoter validDate districtNum orgId headers l)).
    set (s1 := Store.withVoters (Store.voters s ++ [new]) (S (Store.nextVoterId s)) s).
    destruct Hfresh as [Hkeys Hbound].
    assert (Hfresh1 : Store.keysFresh s1).
    { split; simpl.
      - rewrite map_app. simpl. apply NoDup_app; [exact Hkeys | repeat constructor; auto |].
        intros k Hk [<-|[]]. simpl in Hk.
        apply in_map_iff in Hk as (v & Hv & Hin).
        rewrite Forall_forall in Hbound. specialize (Hbound v Hin). lia.
      - apply Forall_app. split.
        + eapply Forall_impl; [|exact Hbound]. simpl. intros. lia.
        + repeat constructor; simpl; lia. }
    destruct (IH (ImportScript.countImported (ImportScript.countRow t)) s1 Hne' Hnd')
      as (t' & s' & Hrun & Hi & Hu & Hs & Ht & Hf & Hlen & Hincl & Hp & Hq);
      [|exact Hfresh1|].
    { intros v id Hv Hid. simpl in Hv. apply in_app_or in Hv as [Hv|[<-|[]]].
      - apply (Hfree v id Hv). simpl. auto.
      - simpl. intro E. inversion E. subst id. contradiction. }
    assert (Hnew : In new (Store.voters s')).
    { apply Hincl. simpl. apply in_or_app. right. left. reflexivity. }
    exists t', s'. split; [exact Hrun|].
    simpl in Hi, Hu, Hs, Ht. simpl length.
    split; [lia|]. split; [lia|]. split; [lia|]. split; [lia|].
    split; [exact Hf|].
    split.
    { rewrite Hlen. unfold tenantRows. simpl. rewrite filter_app, length_app. simpl.
      rewrite Nat.eqb_refl. simpl. lia. }
    split.
    { intros v Hv. apply Hincl. simpl. apply in_or_app. left. exact Hv. }
    split.
    { intros id [<-|Hid]; [|apply Hp, Hid].
      apply in_map_iff. exists new. split; [reflexivity | exact Hnew]. }
    intros v Hv. destruct (Hq v Hv) as [Hin|(Horg & id & Hid & E)].
    + simpl in Hin. apply in_app_or in Hin as [Hin|[<-|[]]]; [left; exact Hin|].
      right. split; [reflexivity|]. exists (idOf l). split; [left|]; reflexivity.
    + right. split; [exact Horg|]. exists id. split; [right; exact Hid | exact E].
Qed.

(** An update of the row the lookup found leaves the key columns of
    the table as they were, when that row is the tenant's. *)
Lemma update_keeps_keys (voters : list Voters.row) (existing : Voters.row)
  (voter : ImportScript.VoterRecord) :
  NoDup (map Voters.id voters) ->
  In existing voters ->
  Voters.stateVoterId existing = Some (ImportScript.stateVoterId voter) ->
  Voters.organizationId existing = ImportScript.organizationId voter ->
  map keyOf (map (fun r => if Nat.eqb (Voters.id r) (Voters.id existing)
                           then ImportScript.applyVoter voter r else r) voters)
  = map keyOf voters.
Proof.
  intros Hnd Hin Hsid Horg. rewrite map_map. apply map_ext_in.
  intros r Hr. destruct (Nat.eqb (Voters.id r) (Voters.id existing)) eqn:E;
    [|reflexivity].
  apply Nat.eqb_eq in E.
  assert (r = existing) as -> by (eapply NoDup_map_inj; eassumption).
  unfold keyOf. simpl. rewrite Hsid, Horg. reflexivity.
Qed.

(** Second import: every identifier is stored under the tenant, each
    row is an update and the key columns do not move. *)
Lemma second_run (rows : list string) :
  forall t s,
    Forall (fun id => id <> EmptyString) (map idOf rows) ->
    NoDup (map Voters.id (Store.voters s)) ->
    (forall id, In id (map idOf rows) ->
                In (Some id) (map Voters.stateVoterId (Store.voters s))) ->
    (forall v id, In v (Store.voters s) -> In id (map idOf rows) ->
                  Voters.stateVoterId v = Some id ->
                  Voters.organizationId v = orgId) ->
    exists t' s',
      fold_left effect rows (t, s) = (t', s')
      /\ ImportScript.imported t' = ImportScript.imported t
      /\ ImportScript.updated t' = ImportScript.updated t + length rows
      /\ ImportScript.skipped t' = ImportScript.skipped t
      /\ ImportScript.totalRows t' = ImportScript.totalRows t + length rows
      /\ map keyOf (Store.voters s') = map keyOf (Store.voters s).
Proof.
  induction rows as [|l rows IH]; intros t s Hne Hnd Hpresent Htenant.
  - exists t, s. simpl. repeat split; lia.
  - simpl in Hne. inversion Hne as [|? ? Hl Hne']; subst.
    cbn [fold_left]. rewrite effect_on_identified by assumption.
    unfold ImportScript.upsertVoter, onStats. cbn [fst snd].
    unfold ImportScript.findByStateVoterId.
    set (voter := lineVoter validDate districtNum orgId headers l).
    assert (Hfound : exists existing,
               find (fun r => Store.eqText (Voters.stateVoterId r)
                                           (ImportScript.stateVoterId voter))
                    (Store.voters s) = Some existing
               /\ In existing (Store.voters s)
               /\ Voters.stateVoterId existing = Some (idOf l)).
    { assert (Hin : In (Some (idOf l)) (map Voters.stateVoterId (Store.voters s)))
        by (apply Hpresent; simpl; auto).
      apply in_map_iff in Hin as (r & Hr & Hin).
      destruct (find_present
                  (fun r => Store.eqText (Voters.stateVoterId r)
                                         (ImportScript.stateVoterId voter))
                  (Store.voters s) r Hin) as (y & Hy & Hyin & Hyp).
      - apply eqText_true. exact Hr.
      - exists y. split; [exact Hy|]. split; [exact Hyin|].
        apply eqText_true in Hyp. exact Hyp. }
    destruct Hfound as (existing & -> & Hexisting & Hsid).
    assert (Hkeys :
      map keyOf (map (fun r => if Nat.eqb (Voters.id r) (Voters.id existing)
                               then ImportScript.applyVoter voter r else r)
                     (Store.voters s))
      = map keyOf (Store.voters s)).
    { apply update_keeps_keys; try assumption.
      apply (Htenant existing (idOf l)); simpl; auto. }
    set (s1 := Store.withVoters _ (Store.nextVoterId s) s).
    assert (Hids : forall a b : Store.t,
               map keyOf (Store.voters a) = map keyOf (Store.voters b) ->
               map Voters.id (Store.voters a) = map Voters.id (Store.voters b)
               /\ map Voters.stateVoterId (Store.voters a)
                  = map Voters.stateVoterId (Store.voters b)).
    { intros a b E. split.
      - change Voters.id with (fun r => fst (fst (keyOf r))).
        rewrite <- !(map_map keyOf (fun k => fst (fst k))), E. reflexivity.
      - change Voters.stateVoterId with (fun r => snd (keyOf r)).
        rewrite <- !(map_map keyOf snd), E. reflexivity. }
    destruct (Hids s1 s Hkeys) as [Hid1 Hsid1].
    destruct (IH (ImportScript.countUpdated (ImportScript.countRow t)) s1 Hne')
      as (t' & s' & Hrun & Hi & Hu & Hs & Ht & Hk).
    + rewrite Hid1. exact Hnd.
    + intros id Hid. rewrite Hsid1. apply Hpresent. simpl. auto.
    + intros v id Hv Hid Hvs.
      assert (Hkv : In (keyOf v) (map keyOf (Store.voters s)))
        by (rewrite <- Hkeys; apply in_map, Hv).
      apply in_map_iff in Hkv as (w & Hw & Hwin).
      unfold keyOf in Hw. injection Hw as Hwid Hworg Hwsid.
      rewrite <- Hworg. apply (Htenant w id Hwin); simpl; auto. congruence.
    + exists t', s'. split; [exact Hrun|].
      simpl in Hi, Hu, Hs, Ht. simpl length.
      repeat split; try lia. rewrite Hk. exact Hkeys.
Qed.

End Reimport.




(** * Further properties of the code *)

(** ** The upload does not depend on how the stream is cut *)

Lemma split_nonempty (c : ascii) (s : string) : Js.split c s <> [].
Proof.
  induction s as [|d s IH]; simpl; [discriminate|].
  destruct (Ascii.eqb d c); [discriminate|].
  destruct (Js.split c s); discriminate.
Qed.

Lemma removelast_app_nonempty {A : Type} (xs ys : list A) :
  ys <> [] -> removelast (xs ++ ys) = (xs ++ removelast ys)%list.
Proof. intro H. apply removelast_app, H. Qed.

Lemma last_app_nonempty {A : Type} (xs ys : list A) (d : A) :
  ys <> [] -> last (xs ++ ys) d = last ys d.
Proof.
  intro H. induction xs as [|x xs IH]; simpl; [reflexivity|].
  rewrite IH. destruct (xs ++ ys)%list eqn:E; [|reflexivity].
  apply app_eq_nil in E as [_ E]. contradiction.
Qed.

(** Splitting a text that continues: the last piece of the first part
    is completed by the second part. *)
Lemma split_app (c : ascii) (a b : string) :
  Js.split c (a ++ b)
  = (removelast (Js.split c a)
     ++ Js.split c (last (Js.split c a) EmptyString ++ b))%list.
Proof.
  induction a as [|d a IH]; [reflexivity|].
  change (String d a ++ b) with (String d (a ++ b)).
  cbn [Js.split]. rewrite IH.
  pose proof (split_nonempty c a) as Hne.
  pose proof (split_nonempty c (last (Js.split c a) EmptyString ++ b)) as Hne'.
  destruct (Ascii.eqb d c) eqn:Hd.
  - destruct (Js.split c a) as [|h t]; [congruence|]. reflexivity.
  - destruct (Js.split c a) as [|h [|t1 ts]]; [congruence| |].
    + cbn [removelast last app]. 
      change (String d h ++ b) with (String d (h ++ b)).
      cbn [Js.split]. rewrite Hd. reflexivity.
    + cbn [removelast last app]. reflexivity.
Qed.

Lemma feed_whole (chunks : list string) :
  forall c buffer,
    feed buffer (c :: chunks)
    = (removelast (Js.split Js.newline (buffer ++ wholeText (c :: chunks))),
       last (Js.split Js.newline (buffer ++ wholeText (c :: chunks))) EmptyString).
Proof.
  induction chunks as [|c' chunks IH]; intros c buffer.
  - cbn [feed wholeText fold_right]. rewrite append_nil_r, app_nil_r. reflexivity.
  - change (feed buffer (c :: c' :: chunks))
      with (let lines := Js.split Js.newline (buffer ++ c) in
            let (more, final) := feed (last lines EmptyString) (c' :: chunks) in
            ((removelast lines ++ more)%list, final)).
    cbv zeta. rewrite IH.
    change (wholeText (c :: c' :: chunks)) with (c ++ wholeText (c' :: chunks)).
    rewrite <- append_assoc.
    rewrite (split_app Js.newline (buffer ++ c) (wholeText (c' :: chunks))).
    rewrite removelast_app_nonempty, last_app_nonempty by apply split_nonempty.
    reflexivity.
Qed.

Section Chunking.

Variable db : Type.
Variable insertBatch : list (Obj.t ImportRoute.jsValue) -> db -> option string * db.
Variable columnMapping : ImportRoute.mappingField.


End Chunking.

(** ** The upload as a fold over its rows *)

Lemma slicesOf_full {A : Type} (n : nat) (done : list (list A)) (rest : list A) :
  Forall (fun b => length b = S n) done ->
  slicesOf n (concat done ++ rest) = (done ++ slicesOf n rest)%list.
Proof.
  induction 1 as [|b done Hb Hdone IH]; [reflexivity|].
  cbn [concat app]. rewrite <- app_assoc.
  destruct b as [|x b]; [discriminate|].
  cbn [app]. simp slicesOf.
  change (x :: (b ++ concat done ++ rest))%list
    with ((x :: b) ++ (concat done ++ rest))%list.
  rewrite <- Hb, firstn_app, skipn_app, firstn_all, skipn_all, Nat.sub_diag.
  cbn [firstn skipn app]. rewrite app_nil_r, IH. reflexivity.
Qed.

Lemma slicesOf_short {A : Type} (n : nat) (rest : list A) :
  rest <> [] -> length rest <= S n -> slicesOf n rest = [rest].
Proof.
  intros Hne Hlen. destruct rest as [|x rest]; [congruence|].
  simp slicesOf. rewrite firstn_all2, skipn_all2 by exact Hlen.
  simp slicesOf. reflexivity.
Qed.

Lemma mappedRows_snoc (m : ImportRoute.mappingField) (rows : list (Obj.t string))
  (r : Obj.t string) :
  mappedRows m (rows ++ [r])
  = (mappedRows m rows
     ++ match ImportRoute.mapRowToSchema r m with
        | ImportRoute.Returned o => [o]
        | _ => []
        end)%list.
Proof.
  unfold mappedRows. rewrite flat_map_app. cbn [flat_map]. rewrite app_nil_r.
  reflexivity.
Qed.

Lemma BATCH_SIZE_pos : 0 < ImportRoute.BATCH_SIZE.
Proof. unfold ImportRoute.BATCH_SIZE. lia. Qed.

Lemma BATCH_SIZE_pred : S (pred ImportRoute.BATCH_SIZE) = ImportRoute.BATCH_SIZE.
Proof. reflexivity. Qed.

Section UploadShape.

Variable db : Type.
Variable insertBatch : list (Obj.t ImportRoute.jsValue) -> db -> option string * db.
Variable columnMapping : ImportRoute.mappingField.

Local Abbreviation processLine := (ImportRoute.processLine insertBatch columnMapping).
Local Abbreviation mapAndCount := (ImportRoute.mapAndCount columnMapping).
Local Abbreviation flush := (ImportRoute.flush insertBatch).
Local Abbreviation flushLast := (ImportRoute.flushLast insertBatch).
Local Abbreviation step := (dataStep insertBatch columnMapping).

Lemma headers_dataStep (u : ImportRoute.upload db) (line : string) :
  ImportRoute.headers (step u line) = ImportRoute.headers u.
Proof.
  unfold dataStep.
  destruct (Nat.leb _ _); rewrite ?headers_flush; apply headers_mapAndCount.
Qed.

Lemma headers_fold_dataStep (data : list string) :
  forall u, ImportRoute.headers (fold_left step data u) = ImportRoute.headers u.
Proof.
  induction data as [|l data IH]; intro u; [reflexivity|].
  cbn [fold_left]. rewrite IH. apply headers_dataStep.
Qed.

Lemma data_fold (lines : list string) :
  forall u, ImportRoute.headers u <> [] ->
            fold_left processLine lines u
            = fold_left step (filter nonBlank lines) u.
Proof.
  induction lines as [|l lines IH]; intros u Hh; [reflexivity|].
  cbn [fold_left filter]. destruct (nonBlank l) eqn:Hl.
  - rewrite processLine_data by assumption. cbn [fold_left].
    apply IH. fold (step u l). rewrite headers_dataStep. exact Hh.
  - rewrite processLine_blank by assumption. apply IH, Hh.
Qed.

Lemma header_fold (lines : list string) :
  forall u, ImportRoute.headers u = [] ->
            fold_left processLine lines u
            = match filter nonBlank lines with
              | [] => u
              | header :: data =>
                  fold_left step data
                    (withHeaders (ImportRoute.parseCSVLine header) u)
              end.
Proof.
  induction lines as [|l lines IH]; intros u Hh; [reflexivity|].
  cbn [fold_left filter]. destruct (nonBlank l) eqn:Hl.
  - assert (E : processLine u l = withHeaders (ImportRoute.parseCSVLine l) u).
    { unfold ImportRoute.processLine. unfold nonBlank in Hl. rewrite Hl, Hh.
      reflexivity. }
    rewrite E. apply data_fold. cbn [withHeaders ImportRoute.headers].
    apply parseWith_nonempty.
  - rewrite processLine_blank by assumption. apply IH, Hh.
Qed.

Lemma mapAndCount_withBuffer (report : bool) (b line : string)
  (u : ImportRoute.upload db) :
  mapAndCount report line (withBuffer b u) = withBuffer b (mapAndCount report line u).
Proof.
  unfold ImportRoute.mapAndCount. cbn [withBuffer ImportRoute.headers].
  destruct (ImportRoute.mapRowToSchema _ _); reflexivity.
Qed.

Lemma flushLast_withBuffer (b : string) (u : ImportRoute.upload db) :
  flushLast (withBuffer b u) = withBuffer b (flushLast u).
Proof.
  unfold ImportRoute.flushLast. cbn [withBuffer ImportRoute.batch ImportRoute.database].
  destruct (ImportRoute.batch u); [reflexivity|].
  destruct (insertBatch _ _) as [[msg|] d]; reflexivity.
Qed.

(** The whole upload: the first non-blank line gives the headers, the
    other complete lines go through the loop body, the unterminated
    last line is mapped without a flush, and the last batch is
    written. *)
Lemma upload_run_shape (chunks : list string) (d : db) :
  ImportRoute.upload_run insertBatch columnMapping chunks d
  = match filter nonBlank (fst (feed EmptyString chunks)) with
    | [] => persisted (ImportRoute.begin d)
    | header :: data =>
        let u := fold_left step data
                   (withHeaders (ImportRoute.parseCSVLine header)
                                (ImportRoute.begin d)) in
        let final := snd (feed EmptyString chunks) in
        persisted (flushLast (if nonBlank final
                              then mapAndCount false final u else u))
    end.
Proof.
  unfold ImportRoute.upload_run. rewrite onData_chunks.
  change (ImportRoute.buffer (ImportRoute.begin d)) with EmptyString.
  destruct (feed EmptyString chunks) as [lines final]. cbn [fst snd].
  rewrite header_fold by reflexivity.
  unfold ImportRoute.onEnd. cbn [withBuffer ImportRoute.buffer ImportRoute.headers].
  fold (nonBlank final).
  destruct (filter nonBlank lines) as [|header data].
  - cbn. rewrite andb_false_r. reflexivity.
  - cbv zeta.
    set (u := fold_left step data _).
    assert (Hh : ImportRoute.headers u = ImportRoute.parseCSVLine header).
    { unfold u. rewrite headers_fold_dataStep. reflexivity. }
    assert (Hlt : Nat.ltb 0 (length (ImportRoute.headers u)) = true).
    { apply Nat.ltb_lt. rewrite Hh.
      pose proof (parseWith_nonempty Js.trim header) as Hne.
      unfold ImportRoute.parseCSVLine.
      destruct (Csv.parseWith Js.trim header); [congruence | simpl; lia]. }
    rewrite Hlt, andb_true_r.
    fold (withBuffer final u).
    destruct (nonBlank final);
      rewrite ?mapAndCount_withBuffer, flushLast_withBuffer; reflexivity.
Qed.

End UploadShape.

Section UploadBatches.

Variable db : Type.
Variable insertBatch : list (Obj.t ImportRoute.jsValue) -> db -> option string * db.
Variable columnMapping : ImportRoute.mappingField.

Local Abbreviation mapAndCount := (ImportRoute.mapAndCount columnMapping).
Local Abbreviation flush := (ImportRoute.flush insertBatch).
Local Abbreviation flushLast := (ImportRoute.flushLast insertBatch).
Local Abbreviation step := (dataStep insertBatch columnMapping).
Local Abbreviation batched := (batchedAs insertBatch columnMapping).

Lemma offerAll_snoc (done : list (list (Obj.t ImportRoute.jsValue)))
  (b : list (Obj.t ImportRoute.jsValue)) (d : db) :
  offerAll insertBatch (done ++ [b]) d
  = offer insertBatch (offerAll insertBatch done d) b.
Proof. unfold offerAll. rewrite fold_left_app. reflexivity. Qed.

Lemma batched_mapAndCount (report : bool) (d0 : db) (u : ImportRoute.upload db)
  (rows : list (Obj.t string)) (done : list (list (Obj.t ImportRoute.jsValue)))
  (ko : nat) (line : string) :
  batched d0 u rows done ko ->
  batched d0 (mapAndCount report line u)
          (rows ++ [rowOf (ImportRoute.headers u) line]) done ko
  /\ length (ImportRoute.batch (mapAndCount report line u))
     <= S (length (ImportRoute.batch u)).
Proof.
  intros [H1 H2 H3 H4].
  unfold ImportRoute.mapAndCount. fold (rowOf (ImportRoute.headers u) line).
  set (r := rowOf (ImportRoute.headers u) line).
  pose proof (count_snoc (threw columnMapping) rows r) as Ct.
  pose proof (mappedRows_snoc columnMapping rows r) as Cm.
  destruct (outcome_cases columnMapping r)
    as [(msg & E & Et & _) | [(E & Et & _) | (o & E & Et & _)]];
    rewrite E in *; rewrite Et in Ct;
    (split; [constructor|]);
    cbn [ImportRoute.processedRows ImportRoute.errorRows ImportRoute.database
         ImportRoute.successRows ImportRoute.batch ImportRoute.errors];
    rewrite ?length_app; cbn [length]; try assumption; try lia.
  - rewrite Cm, H1, app_nil_r. reflexivity.
  - rewrite Cm, H1, app_nil_r. reflexivity.
  - rewrite Cm, H1, app_assoc. reflexivity.
Qed.

Lemma batched_dataStep (d0 : db) (u : ImportRoute.upload db)
  (rows : list (Obj.t string)) (done : list (list (Obj.t ImportRoute.jsValue)))
  (ko : nat) (line : string) :
  batched d0 u rows done ko ->
  length (ImportRoute.batch u) < ImportRoute.BATCH_SIZE ->
  exists done' ko',
    batched d0 (step u line) (rows ++ [rowOf (ImportRoute.headers u) line]) done' ko'
    /\ length (ImportRoute.batch (step u line)) < ImportRoute.BATCH_SIZE.
Proof.
  intros Hb Hlen.
  destruct (batched_mapAndCount true d0 u rows done ko line Hb) as [Hb1 Hlen1].
  unfold dataStep.
  set (u1 := mapAndCount true line u) in *.
  destruct (Nat.leb _ _) eqn:Hfull.
  - apply Nat.leb_le in Hfull.
    assert (Hsize : length (ImportRoute.batch u1) = ImportRoute.BATCH_SIZE) by lia.
    destruct Hb1 as [H1 H2 H3 H4].
    unfold ImportRoute.flush.
    destruct (insertBatch (ImportRoute.batch u1) (ImportRoute.database u1))
      as [[msg|] d'] eqn:Hw.
    + exists (done ++ [ImportRoute.batch u1])%list, (ko + length (ImportRoute.batch u1)).
      split; [constructor|];
        cbn [ImportRoute.processedRows ImportRoute.errorRows ImportRoute.database
             ImportRoute.successRows ImportRoute.batch ImportRoute.errors length].
      * rewrite H1, concat_app. cbn [concat]. rewrite !app_nil_r. reflexivity.
      * apply Forall_app. split; [exact H2|]. constructor; [exact Hsize | constructor].
      * rewrite offerAll_snoc, H3. unfold offer. rewrite Hw. reflexivity.
      * lia.
      * apply BATCH_SIZE_pos.
    + exists (done ++ [ImportRoute.batch u1])%list, ko.
      split; [constructor|];
        cbn [ImportRoute.processedRows ImportRoute.errorRows ImportRoute.database
             ImportRoute.successRows ImportRoute.batch ImportRoute.errors length].
      * rewrite H1, concat_app. cbn [concat]. rewrite !app_nil_r. reflexivity.
      * apply Forall_app. split; [exact H2|]. constructor; [exact Hsize | constructor].
      * rewrite offerAll_snoc, H3. unfold offer. rewrite Hw. reflexivity.
      * exact H4.
      * apply BATCH_SIZE_pos.
  - apply Nat.leb_gt in Hfull. exists done, ko. split; assumption.
Qed.

Lemma batched_fold (d0 : db) (hdr : list string) (data : list string) :
  forall u rows done ko,
    ImportRoute.headers u = hdr ->
    batched d0 u rows done ko ->
    length (ImportRoute.batch u) < ImportRoute.BATCH_SIZE ->
    exists done' ko',
      batched d0 (fold_left step data u) (rows ++ map (rowOf hdr) data) done' ko'
      /\ length (ImportRoute.batch (fold_left step data u)) < ImportRoute.BATCH_SIZE.
Proof.
  induction data as [|l data IH]; intros u rows done ko Hh Hb Hlen.
  - cbn [fold_left map]. rewrite app_nil_r. eauto.
  - cbn [fold_left map].
    destruct (batched_dataStep d0 u rows done ko l Hb Hlen) as (done1 & ko1 & Hb1 & Hlen1).
    rewrite Hh in Hb1.
    destruct (IH (step u l) (rows ++ [rowOf hdr l])%list done1 ko1) as (done2 & ko2 & Hb2 & Hlen2);
      [rewrite headers_dataStep; exact Hh | exact Hb1 | exact Hlen1 |].
    rewrite <- app_assoc in Hb2. eauto.
Qed.

Lemma batched_flushLast (d0 : db) (u : ImportRoute.upload db)
  (rows : list (Obj.t string)) (done : list (list (Obj.t ImportRoute.jsValue)))
  (ko : nat) :
  batched d0 u rows done ko ->
  length (ImportRoute.batch u) <= ImportRoute.BATCH_SIZE ->
  offerAll insertBatch
    (slicesOf (pred ImportRoute.BATCH_SIZE) (mappedRows columnMapping rows)) d0
  = (ImportRoute.successRows (flushLast u),
     ImportRoute.errorRows (flushLast u) - count (threw columnMapping) rows,
     ImportRoute.database (flushLast u))
  /\ count (threw columnMapping) rows <= ImportRoute.errorRows (flushLast u).
Proof.
  intros [H1 H2 H3 H4] Hlen.
  rewrite H1, slicesOf_full by (rewrite BATCH_SIZE_pred; exact H2).
  unfold ImportRoute.flushLast.
  destruct (ImportRoute.batch u) as [|m ms] eqn:Hbatch.
  - simp slicesOf. rewrite app_nil_r, H3, H4.
    split; [f_equal; f_equal|]; lia.
  - rewrite slicesOf_short by (rewrite ?BATCH_SIZE_pred; first [discriminate | exact Hlen]).
    rewrite offerAll_snoc, H3. unfold offer.
    destruct (insertBatch (m :: ms) (ImportRoute.database u)) as [[msg|] d'];
      cbn [ImportRoute.processedRows ImportRoute.errorRows ImportRoute.database
           ImportRoute.successRows ImportRoute.batch ImportRoute.errors];
      (split; [f_equal; f_equal|]); lia.
Qed.

(** The job row and the store against the batches of the upload. *)
Lemma upload_run_offers (chunks : list string) (d : db) :
  let job := fst (ImportRoute.upload_run insertBatch columnMapping chunks d) in
  let rows := observedRows chunks in
  offerAll insertBatch (batchesOf columnMapping chunks) d
  = (ImportRoute.jobSuccessRows job,
     ImportRoute.jobErrorRows job - count (threw columnMapping) rows,
     snd (ImportRoute.upload_run insertBatch columnMapping chunks d))
  /\ count (threw columnMapping) rows <= ImportRoute.jobErrorRows job.
Proof.
  cbv zeta. rewrite upload_run_shape. unfold batchesOf, observedRows.
  destruct (feed EmptyString chunks) as [lines final]. cbn [fst snd].
  destruct (filter nonBlank lines) as [|header data].
  - simp slicesOf. cbn. split; [reflexivity | lia].
  - cbv zeta. set (hdr := ImportRoute.parseCSVLine header).
    set (u0 := withHeaders hdr (ImportRoute.begin d)).
    assert (Hb0 : batched d u0 [] [] 0).
    { constructor; try reflexivity. constructor. }
    destruct (batched_fold d hdr data u0 [] [] 0 eq_refl Hb0 BATCH_SIZE_pos)
      as (done & ko & Hb & Hlen).
    cbn [app] in Hb.
    set (u := fold_left step data u0) in *.
    change (fun l => ImportRoute.buildRow hdr (ImportRoute.parseCSVLine l))
      with (rowOf hdr).
    unfold persisted. cbn [fst snd ImportRoute.jobSuccessRows ImportRoute.jobErrorRows].
    destruct (nonBlank final).
    + rewrite map_app. cbn [map].
      destruct (batched_mapAndCount false d u _ done ko final Hb) as [Hb1 Hlen1].
      assert (Hh : ImportRoute.headers u = hdr).
      { unfold u. rewrite headers_fold_dataStep. reflexivity. }
      rewrite Hh in Hb1.
      apply (batched_flushLast d _ _ done ko Hb1). lia.
    + rewrite app_nil_r. apply (batched_flushLast d _ _ done ko Hb). lia.
Qed.



End UploadBatches.

Section UploadErrors.

Variable db : Type.
Variable insertBatch : list (Obj.t ImportRoute.jsValue) -> db -> option string * db.
Variable columnMapping : ImportRoute.mappingField.

Local Abbreviation mapAndCount := (ImportRoute.mapAndCount columnMapping).
Local Abbreviation flush := (ImportRoute.flush insertBatch).
Local Abbreviation flushLast := (ImportRoute.flushLast insertBatch).
Local Abbreviation step := (dataStep insertBatch columnMapping).

Lemma Forall_pushError (P : ImportRoute.importError -> Prop)
  (e : ImportRoute.importError) (es : list ImportRoute.importError) :
  Forall P es -> P e -> Forall P (ImportRoute.pushError e es).
Proof.
  intros Hes He. unfold ImportRoute.pushError.
  destruct (Nat.ltb _ _); [|exact Hes].
  apply Forall_app. split; [exact Hes | constructor; [exact He | constructor]].
Qed.

Lemma errorsInRange_mapAndCount (report : bool) (line : string)
  (u : ImportRoute.upload db) :
  errorsInRange u ->
  errorsInRange (mapAndCount report line u)
  /\ 1 <= ImportRoute.processedRows (mapAndCount report line u).
Proof.
  unfold errorsInRange, ImportRoute.mapAndCount. intro H.
  assert (Hw : Forall (fun e => 1 <= ImportRoute.row e
                                <= S (ImportRoute.processedRows u))
                      (ImportRoute.errors u)).
  { eapply Forall_impl; [|exact H]. cbv beta. intros e He. lia. }
  destruct (ImportRoute.mapRowToSchema _ _);
    cbn [ImportRoute.processedRows ImportRoute.errors];
    (split; [|lia]); try exact Hw.
  destruct report; [|exact Hw].
  apply Forall_pushError; [exact Hw|]. cbn [ImportRoute.row]. lia.
Qed.

Lemma errorsInRange_dataStep (u : ImportRoute.upload db) (line : string) :
  errorsInRange u -> errorsInRange (step u line).
Proof.
  intro H. destruct (errorsInRange_mapAndCount true line u H) as [H1 Hpos].
  unfold dataStep. destruct (Nat.leb _ _); [|exact H1].
  unfold ImportRoute.flush, errorsInRange in *.
  destruct (insertBatch _ _) as [[msg|] d];
    cbn [ImportRoute.processedRows ImportRoute.errors]; [|exact H1].
  apply Forall_pushError; [exact H1|]. cbn [ImportRoute.row]. lia.
Qed.

Lemma errorsInRange_fold (data : list string) :
  forall u, errorsInRange u -> errorsInRange (fold_left step data u).
Proof.
  induction data as [|l data IH]; intros u H; [exact H|].
  cbn [fold_left]. apply IH, errorsInRange_dataStep, H.
Qed.

Lemma errorsInRange_flushLast (u : ImportRoute.upload db) :
  errorsInRange u -> errorsInRange (flushLast u).
Proof.
  unfold errorsInRange, ImportRoute.flushLast. intro H.
  destruct (ImportRoute.batch u); [exact H|].
  destruct (insertBatch _ _) as [[msg|] d]; exact H.
Qed.


End UploadErrors.

(** ** Rows and mapped records *)

Lemma buildRowFrom_other (values : list string) (k : string) :
  forall headers i acc,
    ~ In k headers ->
    Obj.get k (ImportRoute.buildRowFrom i headers values acc) = Obj.get k acc.
Proof.
  induction headers as [|h headers IH]; intros i acc Hk; [reflexivity|].
  cbn [ImportRoute.buildRowFrom]. rewrite IH by (intro; apply Hk; right; assumption).
  rewrite obj_get_set.
  destruct (String.eqb h k) eqn:E; [|reflexivity].
  apply String.eqb_eq in E. exfalso. apply Hk. left. exact E.
Qed.

Lemma buildRowFrom_at (values : list string) :
  forall headers j i acc,
    j < length headers ->
    (forall j', j < j' < length headers ->
                nth j' headers EmptyString <> nth j headers EmptyString) ->
    Obj.get (nth j headers EmptyString)
            (ImportRoute.buildRowFrom i headers values acc)
    = Some (nth (i + j) values EmptyString).
Proof.
  induction headers as [|h headers IH]; intros j i acc Hj Hlast; [inversion Hj|].
  cbn [ImportRoute.buildRowFrom]. destruct j as [|j].
  - cbn [nth]. rewrite buildRowFrom_other.
    + rewrite obj_get_set, String.eqb_refl, Nat.add_0_r. reflexivity.
    + intro Hin. apply (In_nth _ _ EmptyString) in Hin as (n & Hn & En).
      apply (Hlast (S n)); [cbn [length]; lia | exact En].
  - cbn [nth]. rewrite IH.
    + f_equal. f_equal. lia.
    + cbn [length] in Hj. lia.
    + intros j' Hj'. apply (Hlast (S j')). cbn [length]. lia.
Qed.



Lemma mapEntries_other (row : Obj.t string) (k : string)
  (entries : list (string * string)) :
  (forall src, In (src, k) entries -> contributes row (src, k) = false) ->
  forall acc,
    Obj.get k (fold_left (ImportRoute.mapEntry row) entries acc) = Obj.get k acc.
Proof.
  induction entries as [|[src tgt] entries IH]; intros Hidle acc; [reflexivity|].
  cbn [fold_left]. rewrite IH by (intros s Hs; apply Hidle; right; exact Hs).
  unfold ImportRoute.mapEntry.
  destruct (Obj.get src row) as [cell|] eqn:Hget; [|reflexivity].
  destruct (Js.truthy cell) eqn:Ht; [|reflexivity].
  rewrite obj_get_set. destruct (String.eqb tgt k) eqn:E; [|reflexivity].
  apply String.eqb_eq in E. subst tgt.
  specialize (Hidle src (or_introl eq_refl)).
  unfold contributes in Hidle. cbn [fst] in Hidle. rewrite Hget, Ht in Hidle.
  discriminate.
Qed.



(** ** The election-history writer of the route *)

Lemma insertElection_appends (voterId : nat) (org : option nat)
  (date description type method : option string) (s : Store.t) :
  let s' := snd (insertElectionOnConflictDoNothing voterId org date
                                                   description type method s) in
  Store.voters s' = Store.voters s
  /\ Store.nextVoterId s' = Store.nextVoterId s
  /\ Store.voterLists s' = Store.voterLists s
  /\ Store.voterListMembers s' = Store.voterListMembers s
  /\ exists added,
       Store.electionHistory s' = (Store.electionHistory s ++ added)%list
       /\ Forall (fun e => Some (ElectionHistory.organizationId e) = org
                           /\ ElectionHistory.voterId e = voterId) added.
Proof.
  unfold insertElectionOnConflictDoNothing.
  destruct org as [org|]; [destruct date as [date|]|]; cbn [snd].
  - destruct (existsb _ _); cbn [snd]; repeat (split; [reflexivity|]).
    + exists []. rewrite app_nil_r. split; [reflexivity | constructor].
    + eexists. split; [reflexivity|]. constructor; [|constructor].
      split; reflexivity.
  - repeat (split; [reflexivity|]). exists []. rewrite app_nil_r.
    split; [reflexivity | constructor].
  - repeat (split; [reflexivity|]). exists []. rewrite app_nil_r.
    split; [reflexivity | constructor].
Qed.

(** X7.  The election-history writer of the route stays inside the
    tenant: it leaves the voters, the lists and their members as they
    are, it only appends to the history, and every row it appends
    carries the tenant's id and the key of a stored voter of that
    tenant. *)
Theorem insertElectionBatch_stays_in_tenant
  (batch : list (Obj.t ImportRoute.jsValue)) (organizationId : nat) (s : Store.t) :
  let s' := snd (ImportRoute.insertElectionBatch batch organizationId s) in
  Store.voters s' = Store.voters s
  /\ Store.voterLists s' = Store.voterLists s
  /\ Store.voterListMembers s' = Store.voterListMembers s
  /\ exists added,
       Store.electionHistory s' = (Store.electionHistory s ++ added)%list
       /\ Forall (fun e =>
                    ElectionHistory.organizationId e = organizationId
                    /\ exists v, In v (Store.voters s)
                                 /\ Voters.id v = ElectionHistory.voterId e
                                 /\ Voters.organizationId v = organizationId)
                 added.
Proof.
  cbv zeta. revert s.
  induction batch as [|record rest IH]; intro s.
  - cbn. repeat (split; [reflexivity|]). exists []. rewrite app_nil_r.
    split; [reflexivity | constructor].
  - cbn [ImportRoute.insertElectionBatch].
    destruct (ImportRoute.text record "stateVoterId") as [sid|]; [|apply IH].
    destruct (if Js.truthy sid then _ else None) as [voter|] eqn:Hfind; [|apply IH].
    assert (Hvoter : In voter (Store.voters s)
                     /\ Voters.organizationId voter = organizationId).
    { destruct (Js.truthy sid); [|discriminate].
      apply find_some in Hfind as [Hin Hp]. split; [exact Hin|].
      apply andb_true_iff in Hp as [Hp _]. apply Nat.eqb_eq in Hp. exact Hp. }
    destruct Hvoter as [Hin Horg].
    pose proof (insertElection_appends (Voters.id voter) (Some organizationId)
                  (ImportRoute.text record "electionDate")
                  (ImportRoute.text record "electionDescription")
                  (ImportRoute.text record "electionType")
                  (ImportRoute.text record "votingMethod") s) as Hone.
    cbv zeta in Hone.
    destruct (insertElectionOnConflictDoNothing _ _ _ _ _ _ s) as [ok s1].
    cbn [snd] in Hone. destruct Hone as (V1 & _ & L1 & M1 & added1 & E1 & F1).
    assert (Hadded1 : Forall (fun e =>
                        ElectionHistory.organizationId e = organizationId
                        /\ exists v, In v (Store.voters s)
                                     /\ Voters.id v = ElectionHistory.voterId e
                                     /\ Voters.organizationId v = organizationId)
                      added1).
    { eapply Forall_impl; [|exact F1]. cbv beta. intros e [Ho Hv].
      split; [congruence|]. exists voter. auto. }
    destruct ok.
    + destruct (IH s1) as (V2 & L2 & M2 & added2 & E2 & F2).
      rewrite V2, L2, M2, E2, V1, L1, M1, E1. repeat (split; [reflexivity|]).
      exists (added1 ++ added2)%list. rewrite app_assoc. split; [reflexivity|].
      apply Forall_app. split; [exact Hadded1|].
      rewrite V1 in F2. exact F2.
    + cbn [snd]. rewrite V1, L1, M1, E1. repeat (split; [reflexivity|]).
      exists added1. split; [reflexivity | exact Hadded1].
Qed.

(** X8.  A batch is written record by record with nothing to undo: a
    batch made of two parts is the first part followed, when it did not
    fail, by the second part on the store the first one left; when the
    first part fails, what it had written before the failing record
    stays and the second part is not attempted. *)
Theorem insertElectionBatch_is_written_record_by_record
  (first second : list (Obj.t ImportRoute.jsValue)) (organizationId : nat)
  (s : Store.t) :
  ImportRoute.insertElectionBatch (first ++ second) organizationId s
  = match ImportRoute.insertElectionBatch first organizationId s with
    | (None, s1) => ImportRoute.insertElectionBatch second organizationId s1
    | (Some message, s1) => (Some message, s1)
    end.
Proof.
  revert s. induction first as [|record rest IH]; intro s; [reflexivity|].
  cbn [app ImportRoute.insertElectionBatch].
  destruct (ImportRoute.text record "stateVoterId") as [sid|]; [|apply IH].
  destruct (if Js.truthy sid then _ else None) as [voter|]; [|apply IH].
  destruct (insertElectionOnConflictDoNothing _ _ _ _ _ _ s) as [[|] s1];
    [apply IH | reflexivity].
Qed.

(** ** Column suggestions *)

Lemma obj_get_in {V : Type} (k : string) (v : V) (o : Obj.t V) :
  Obj.get k o = Some v -> In (k, v) o.
Proof.
  induction o as [|[k' w] o IH]; cbn [Obj.get]; [discriminate|].
  destruct (String.eqb k' k) eqn:E.
  - intro H. inversion H. apply String.eqb_eq in E. subst. left. reflexivity.
  - intro H. right. apply IH, H.
Qed.

Lemma obj_get_absent {V : Type} (k : string) (o : Obj.t V) :
  ~ In k (map fst o) -> Obj.get k o = None.
Proof.
  induction o as [|[k' w] o IH]; cbn [Obj.get map fst In]; [reflexivity|].
  intro H. destruct (String.eqb k' k) eqn:E.
  - apply String.eqb_eq in E. exfalso. apply H. left. exact E.
  - apply IH. intro Hin. apply H. right. exact Hin.
Qed.

Lemma obj_set_keys {V : Type} (key : string) (v : V) (o : Obj.t V) (k : string) :
  In k (map fst (Obj.set key v o)) -> k = key \/ In k (map fst o).
Proof.
  induction o as [|[k' w] o IH]; cbn [Obj.set map fst In].
  - intros [H|[]]. left. congruence.
  - destruct (String.eqb k' key) eqn:E; cbn [map fst In].
    + tauto.
    + intros [H|H]; [tauto|]. destruct (IH H); tauto.
Qed.

Lemma obj_set_NoDup {V : Type} (key : string) (v : V) (o : Obj.t V) :
  NoDup (map fst o) -> NoDup (map fst (Obj.set key v o)).
Proof.
  induction o as [|[k' w] o IH]; cbn [Obj.set map fst]; intro H.
  - constructor; [intros [] | constructor].
  - inversion H as [|? ? Hnotin Hnd]; subst.
    destruct (String.eqb k' key) eqn:E; cbn [map fst].
    + constructor; assumption.
    + constructor; [|apply IH, Hnd].
      intro Hin. apply obj_set_keys in Hin as [Hk|Hin]; [|contradiction].
      subst. rewrite String.eqb_refl in E. discriminate.
Qed.

Lemma suggest_cases (mapping : Obj.t ImportPreview.member) (header : string) :
  ImportPreview.suggest mapping header
  = match memberOf (Js.trim header) with
    | Some m => Obj.set (Js.trim header) m mapping
    | None => mapping
    end.
Proof.
  unfold ImportPreview.suggest, memberOf. cbv zeta.
  destruct (Obj.get (Js.trim header) SharedTypes.MN_VOTER_FILE_COLUMNS); [reflexivity|].
  destruct (ImportPreview.inherited (Js.trim header)).
  - destruct (String.eqb (Js.trim header) "__proto__"); reflexivity.
  - destruct (Obj.get (Js.trim header) SharedTypes.MN_ELECTION_FILE_COLUMNS); reflexivity.
Qed.

Lemma suggest_fold_get (k : string) (headers : list string) :
  forall acc,
    Obj.get k (fold_left ImportPreview.suggest headers acc)
    = if existsb (String.eqb k) (map Js.trim headers)
      then match memberOf k with
           | Some m => Some m
           | None => Obj.get k acc
           end
      else Obj.get k acc.
Proof.
  induction headers as [|h headers IH]; intro acc; [reflexivity|].
  cbn [fold_left map existsb]. rewrite IH, suggest_cases.
  destruct (String.eqb k (Js.trim h)) eqn:E.
  - apply String.eqb_eq in E. subst k. cbn [orb].
    destruct (memberOf (Js.trim h)) as [m|];
      destruct (existsb _ _); rewrite ?obj_get_set, ?String.eqb_refl; reflexivity.
  - cbn [orb].
    assert (Hsame : Obj.get k match memberOf (Js.trim h) with
                              | Some m => Obj.set (Js.trim h) m acc
                              | None => acc
                              end = Obj.get k acc).
    { destruct (memberOf (Js.trim h)); [|reflexivity].
      rewrite obj_get_set, String.eqb_sym, E. reflexivity. }
    rewrite Hsame. reflexivity.
Qed.

Lemma suggest_fold_NoDup (headers : list string) :
  forall acc, NoDup (map fst acc) ->
              NoDup (map fst (fold_left ImportPreview.suggest headers acc)).
Proof.
  induction headers as [|h headers IH]; intros acc H; [exact H|].
  cbn [fold_left]. apply IH. rewrite suggest_cases.
  destruct (memberOf (Js.trim h)); [apply obj_set_NoDup|]; exact H.
Qed.

Lemma serialized_in (k c : string) (mapping : Obj.t ImportPreview.member) :
  In (k, c) (ImportPreview.serialized mapping)
  <-> In (k, ImportPreview.Column c) mapping.
Proof.
  unfold ImportPreview.serialized. rewrite in_flat_map. split.
  - intros ([k' v] & Hin & H). cbn [fst snd] in H.
    destruct v; [|destruct H]. destruct H as [H|[]]. inversion H. subst. exact Hin.
  - intro Hin. exists (k, ImportPreview.Column c). split; [exact Hin|].
    left. reflexivity.
Qed.

Lemma serialized_get (k : string) (mapping : Obj.t ImportPreview.member) :
  NoDup (map fst mapping) ->
  Obj.get k (ImportPreview.serialized mapping)
  = match Obj.get k mapping with
    | Some (ImportPreview.Column c) => Some c
    | _ => None
    end.
Proof.
  induction mapping as [|[k' v] mapping IH]; intro H; [reflexivity|].
  inversion H as [|? ? Hnotin Hnd]; subst. cbn [map fst] in Hnotin.
  cbn [Obj.get]. destruct (String.eqb k' k) eqn:E.
  - apply String.eqb_eq in E. subst k'.
    destruct v as [c|].
    + cbn. rewrite String.eqb_refl. reflexivity.
    + change (ImportPreview.serialized ((k, ImportPreview.Inherited) :: mapping))
        with (ImportPreview.serialized mapping).
      rewrite IH by exact Hnd. rewrite (obj_get_absent k mapping Hnotin).
      reflexivity.
  - rewrite <- IH by exact Hnd.
    destruct v as [c|]; [|reflexivity].
    change (ImportPreview.serialized ((k', ImportPreview.Column c) :: mapping))
      with ((k', c) :: ImportPreview.serialized mapping).
    cbn [Obj.get]. rewrite E. reflexivity.
Qed.

Lemma inherited_not_in_election (k : string) :
  ImportPreview.inherited k = true ->
  Obj.get k SharedTypes.MN_ELECTION_FILE_COLUMNS = None.
Proof.
  unfold ImportPreview.inherited. intro H.
  apply existsb_exists in H as (name & Hin & E).
  apply String.eqb_eq in E. subst name.
  cbv [ImportPreview.inheritedNames In] in Hin.
  repeat (destruct Hin as [<-|Hin]; [reflexivity|]). destruct Hin.
Qed.

Lemma suggested_mapping_lookup_aux (headers : list string) (k : string) :
  Obj.get k (ImportPreview.serialized (ImportPreview.suggestColumnMapping headers))
  = if existsb (String.eqb k) (map Js.trim headers) then columnOf k else None.
Proof.
  unfold ImportPreview.suggestColumnMapping.
  rewrite serialized_get by (apply suggest_fold_NoDup; constructor).
  rewrite suggest_fold_get. cbn [Obj.get].
  destruct (existsb _ _); [|reflexivity].
  unfold memberOf, columnOf.
  destruct (Obj.get k SharedTypes.MN_VOTER_FILE_COLUMNS); [reflexivity|].
  destruct (ImportPreview.inherited k) eqn:Hi.
  - rewrite (inherited_not_in_election k Hi).
    destruct (String.eqb k "__proto__"); reflexivity.
  - destruct (Obj.get k SharedTypes.MN_ELECTION_FILE_COLUMNS); reflexivity.
Qed.

(** X9.  The suggested mapping of a preview has an entry for exactly
    the headers that, once trimmed, name a column of the voter file or
    of the election file, and the entry is the target the voter table
    gives, or else the election table's; the order of the headers and
    their repetition make no difference to what a header is given. *)
Theorem suggested_mapping_lookup (headers : list string) (k : string) :
  Obj.get k (ImportPreview.serialized (ImportPreview.suggestColumnMapping headers))
  = if existsb (String.eqb k) (map Js.trim headers) then columnOf k else None.
Proof. apply suggested_mapping_lookup_aux. Qed.

Lemma injectiveTable_sound (table : Obj.t string) (k1 k2 c : string) :
  injectiveTable table = true ->
  In (k1, c) table -> In (k2, c) table -> k1 = k2.
Proof.
  unfold injectiveTable. intros H H1 H2.
  rewrite forallb_forall in H. specialize (H _ H1).
  rewrite forallb_forall in H. specialize (H _ H2).
  cbn [fst snd] in H. rewrite String.eqb_refl in H. cbn [implb] in H.
  apply String.eqb_eq, H.
Qed.

Lemma columnOf_in (k c : string) :
  columnOf k = Some c ->
  In (k, c) (SharedTypes.MN_VOTER_FILE_COLUMNS
             ++ SharedTypes.MN_ELECTION_FILE_COLUMNS)%list.
Proof.
  unfold columnOf. intro H. apply in_or_app.
  destruct (Obj.get k SharedTypes.MN_VOTER_FILE_COLUMNS) as [t|] eqn:E.
  - inversion H. subst. left. apply obj_get_in, E.
  - right. apply obj_get_in, H.
Qed.

Lemma columnOf_injective (k1 k2 c : string) :
  columnOf k1 = Some c -> columnOf k2 = Some c -> k1 = k2.
Proof.
  intros H1 H2.
  apply (injectiveTable_sound
           (SharedTypes.MN_VOTER_FILE_COLUMNS
            ++ SharedTypes.MN_ELECTION_FILE_COLUMNS)%list k1 k2 c);
    [vm_compute; reflexivity | apply columnOf_in, H1 | apply columnOf_in, H2].
Qed.

Lemma serialized_NoDup_keys (mapping : Obj.t ImportPreview.member) :
  NoDup (map fst mapping) -> NoDup (map fst (ImportPreview.serialized mapping)).
Proof.
  induction mapping as [|[k v] mapping IH]; intro H; [constructor|].
  inversion H as [|? ? Hnotin Hnd]; subst. cbn [map fst] in Hnotin.
  destruct v as [c|].
  - change (ImportPreview.serialized ((k, ImportPreview.Column c) :: mapping))
      with ((k, c) :: ImportPreview.serialized mapping).
    cbn [map fst]. constructor; [|apply IH, Hnd].
    intro Hin. apply in_map_iff in Hin as ([k' c'] & Hk & Hin).
    cbn [fst] in Hk. subst k'. apply serialized_in in Hin.
    apply Hnotin. apply in_map_iff. exists (k, ImportPreview.Column c'). auto.
  - apply IH, Hnd.
Qed.

Lemma NoDup_values (table : Obj.t string) :
  NoDup (map fst table) ->
  (forall k1 k2 c, In (k1, c) table -> In (k2, c) table -> k1 = k2) ->
  NoDup (map snd table).
Proof.
  induction table as [|[k c] table IH]; intros Hk Hinj; [constructor|].
  inversion Hk as [|? ? Hnotin Hnd]; subst. cbn [map fst snd] in *.
  constructor.
  - intro Hin. apply in_map_iff in Hin as ([k' c'] & Hc & Hin).
    cbn [snd] in Hc. subst c'.
    assert (k' = k) by (apply (Hinj k' k c); [right; exact Hin | left; reflexivity]).
    subst k'. apply Hnotin. apply in_map_iff. exists (k, c). auto.
  - apply IH; [exact Hnd|]. intros k1 k2 c0 H1 H2.
    apply (Hinj k1 k2 c0); right; assumption.
Qed.

(** X10.  The suggested mapping never sends two source columns to the
    same target column, whatever the headers: its targets are pairwise
    distinct, so a record mapped with it has no column written twice. *)
Theorem suggested_targets_are_distinct (headers : list string) :
  NoDup (map snd (ImportPreview.serialized
                    (ImportPreview.suggestColumnMapping headers))).
Proof.
  assert (Hkeys : NoDup (map fst (ImportPreview.serialized
                                    (ImportPreview.suggestColumnMapping headers)))).
  { apply serialized_NoDup_keys. unfold ImportPreview.suggestColumnMapping.
    apply suggest_fold_NoDup. constructor. }
  apply NoDup_values; [exact Hkeys|].
  intros k1 k2 c H1 H2.
  assert (Hget : forall k, In (k, c) (ImportPreview.serialized
                                        (ImportPreview.suggestColumnMapping headers)) ->
                           columnOf k = Some c).
  { intros k Hin.
    assert (G : Obj.get k (ImportPreview.serialized
                             (ImportPreview.suggestColumnMapping headers)) = Some c).
    { clear H1 H2. revert Hkeys Hin.
      generalize (ImportPreview.serialized (ImportPreview.suggestColumnMapping headers)).
      induction t as [|[k' c'] t IHt]; intros Hnd Hin; [destruct Hin|].
      inversion Hnd as [|? ? Hnotin Hnd']; subst. cbn [map fst] in Hnotin.
      cbn [Obj.get]. destruct Hin as [Hin|Hin].
      - inversion Hin. subst. rewrite String.eqb_refl. reflexivity.
      - destruct (String.eqb k' k) eqn:E; [|apply IHt; assumption].
        apply String.eqb_eq in E. subst k'. exfalso. apply Hnotin.
        apply in_map_iff. exists (k, c). auto. }
    rewrite suggested_mapping_lookup_aux in G.
    destruct (existsb _ _); [exact G | discriminate]. }
  apply (columnOf_injective k1 k2 c); apply Hget; assumption.
Qed.

(** ** The preview *)

Lemma preview_headers_kept (chunks : list string) :
  forall p, ImportPreview.headers p <> [] ->
            ImportPreview.headers (fold_left ImportPreview.onData chunks p)
            = ImportPreview.headers p.
Proof.
  induction chunks as [|c chunks IH]; intros p Hp; [reflexivity|].
  cbn [fold_left].
  assert (E : ImportPreview.headers (ImportPreview.onData p c) = ImportPreview.headers p).
  { unfold ImportPreview.onData. cbn [ImportPreview.headers].
    destruct (ImportPreview.headers p); [congruence | reflexivity]. }
  rewrite IH by (rewrite E; exact Hp). exact E.
Qed.

Lemma split_length_pos (c : ascii) (s : string) :
  Nat.ltb 0 (length (Js.split c s)) = true.
Proof.
  pose proof (split_nonempty c s) as H.
  destruct (Js.split c s); [congruence | reflexivity].
Qed.

(** X11.  The headers a preview reports are read from the first line
    of the first chunk alone (of the empty text when the stream
    delivers nothing); later chunks never change them, also when the
    first chunk ends inside the header line. *)
Theorem preview_headers_come_from_first_chunk (chunks : list string) :
  ImportPreview.dataHeaders (ImportPreview.preview_run chunks)
  = ImportRoute.parseCSVLine
      (hd EmptyString (Js.split Js.newline (hd EmptyString chunks))).
Proof.
  unfold ImportPreview.preview_run. cbn [ImportPreview.dataHeaders].
  destruct chunks as [|c chunks]; [reflexivity|].
  cbn [fold_left hd].
  assert (E : ImportPreview.headers (ImportPreview.onData ImportPreview.begin c)
              = ImportRoute.parseCSVLine (hd EmptyString (Js.split Js.newline c))).
  { unfold ImportPreview.onData. cbn [ImportPreview.headers ImportPreview.begin
                                      ImportPreview.buffer length Nat.eqb andb].
    change (EmptyString ++ c) with c. rewrite split_length_pos. reflexivity. }
  assert (Hne : ImportPreview.headers
                  (fold_left ImportPreview.onData chunks
                             (ImportPreview.onData ImportPreview.begin c)) <> []).
  { rewrite preview_headers_kept; rewrite E; apply parseWith_nonempty. }
  unfold ImportPreview.onEnd.
  destruct (ImportPreview.headers (fold_left _ chunks _)) eqn:Hh; [congruence|].
  cbn [length Nat.eqb]. rewrite Hh. rewrite <- Hh.
  rewrite preview_headers_kept by (rewrite E; apply parseWith_nonempty).
  exact E.
Qed.

Lemma firstn_firstn_app {A : Type} (n : nat) (a b : list A) :
  firstn n (firstn n a ++ b) = firstn n (a ++ b).
Proof.
  destruct (Nat.le_gt_cases (length a) n) as [H|H].
  - rewrite (firstn_all2 a) by exact H. reflexivity.
  - rewrite !firstn_app, length_firstn, Nat.min_l by lia.
    replace (n - n) with 0 by lia. replace (n - length a) with 0 by lia.
    rewrite !firstn_O, firstn_firstn, Nat.min_id. reflexivity.
Qed.

Lemma sample_firstn (lines : list string) :
  forall rows, length rows <= 5 ->
               ImportPreview.sample lines rows
               = firstn 5 (rows ++ map ImportRoute.parseCSVLine
                                       (filter nonBlank lines)).
Proof.
  induction lines as [|l lines IH]; intros rows Hlen.
  - cbn [ImportPreview.sample filter map]. rewrite app_nil_r, firstn_all2; auto.
  - cbn [ImportPreview.sample filter]. fold (nonBlank l).
    destruct (Nat.ltb (length rows) 5) eqn:Hlt.
    + apply Nat.ltb_lt in Hlt. destruct (nonBlank l).
      * rewrite IH by (rewrite length_app; cbn [length]; lia).
        cbn [map]. rewrite <- app_assoc. reflexivity.
      * apply IH, Hlen.
    + apply Nat.ltb_ge in Hlt.
      rewrite firstn_app. replace (5 - length rows) with 0 by lia.
      rewrite firstn_O, app_nil_r, firstn_all2 by lia. reflexivity.
Qed.

Lemma preview_samples_fold (chunks : list string) :
  forall p,
    length (ImportPreview.sampleRows p) <= 5 ->
    ImportPreview.sampleRows (fold_left ImportPreview.onData chunks p)
    = firstn 5 (ImportPreview.sampleRows p
                ++ flat_map sampleLines (accumulated (ImportPreview.buffer p) chunks)).
Proof.
  induction chunks as [|c chunks IH]; intros p Hlen.
  - cbn [fold_left accumulated flat_map]. rewrite app_nil_r, firstn_all2; auto.
  - cbn [fold_left accumulated flat_map].
    assert (E : ImportPreview.sampleRows (ImportPreview.onData p c)
                = firstn 5 (ImportPreview.sampleRows p
                            ++ sampleLines (ImportPreview.buffer p ++ c))).
    { unfold ImportPreview.onData. cbn [ImportPreview.sampleRows].
      apply sample_firstn, Hlen. }
    rewrite IH by (rewrite E; rewrite length_firstn; lia).
    rewrite E. change (ImportPreview.buffer (ImportPreview.onData p c))
                 with (ImportPreview.buffer p ++ c).
    rewrite firstn_firstn_app, <- app_assoc. reflexivity.
Qed.

(** X12.  The sample rows of a preview are the first five of the rows
    its data events read, each event reading the whole text received
    so far again from its second line and skipping blank lines: never
    more than five, and for a file that arrives as one chunk the first
    five non-blank lines after the header line. *)
Theorem preview_samples_first_five (chunks : list string) :
  ImportPreview.dataSampleRows (ImportPreview.preview_run chunks)
  = firstn 5 (flat_map sampleLines (accumulated EmptyString chunks))
  /\ length (ImportPreview.dataSampleRows (ImportPreview.preview_run chunks)) <= 5.
Proof.
  assert (E : ImportPreview.dataSampleRows (ImportPreview.preview_run chunks)
              = firstn 5 (flat_map sampleLines (accumulated EmptyString chunks))).
  { unfold ImportPreview.preview_run. cbn [ImportPreview.dataSampleRows].
    assert (Hend : forall p, ImportPreview.sampleRows (ImportPreview.onEnd p)
                             = ImportPreview.sampleRows p).
    { intro p. unfold ImportPreview.onEnd.
      destruct (Nat.eqb _ _); [|reflexivity].
      destruct (Nat.ltb _ _); reflexivity. }
    rewrite Hend, preview_samples_fold by (cbn; lia). reflexivity. }
  split; [exact E|]. rewrite E, length_firstn. lia.
Qed.

(** ** Members of a list *)

Lemma collide_iff (a b : VoterListMembers.row) :
  VoterListMembers.collide a b = true <-> memberKey a = memberKey b.
Proof.
  unfold VoterListMembers.collide, memberKey.
  rewrite andb_true_iff, !Nat.eqb_eq. split.
  - intros [-> ->]. reflexivity.
  - intro H. inversion H. auto.
Qed.

Lemma existsb_collide_iff (r : VoterListMembers.row) (stored : list VoterListMembers.row) :
  existsb (VoterListMembers.collide r) stored = true
  <-> In (memberKey r) (map memberKey stored).
Proof.
  rewrite existsb_exists, in_map_iff. split.
  - intros (m & Hin & Hc). apply collide_iff in Hc. eauto.
  - intros (m & Hk & Hin). exists m. split; [exact Hin|].
    apply collide_iff. congruence.
Qed.

(** What [on conflict do nothing] adds: rows of the statement, none
    that collides with a stored row, and afterwards every row of the
    statement has its pair stored. *)
Lemma addRows_result (rows : list VoterListMembers.row) :
  forall stored,
  exists added,
    fold_left ListMembers.addRow rows stored = (stored ++ added)%list
    /\ (forall a, In a added -> In a rows)
    /\ (forall a, In a added -> ~ In (memberKey a) (map memberKey stored))
    /\ (forall r, In r rows -> In (memberKey r) (map memberKey (stored ++ added)))
    /\ (NoDup (map memberKey stored) -> NoDup (map memberKey (stored ++ added))).
Proof.
  induction rows as [|r rows IH]; intro stored.
  - exists []. rewrite app_nil_r. cbn [fold_left]. repeat split; auto; intros a [].
  - cbn [fold_left]. unfold ListMembers.addRow at 2.
    destruct (existsb (VoterListMembers.collide r) stored) eqn:Hc.
    + destruct (IH stored) as (added & E & Hin & Hnew & Hall & Hnd).
      exists added. split; [exact E|]. split; [|split; [exact Hnew|split; [|exact Hnd]]].
      * intros a Ha. right. apply Hin, Ha.
      * intros r' [<-|Hr']; [|apply Hall, Hr'].
        apply existsb_collide_iff in Hc. rewrite map_app. apply in_or_app. left. exact Hc.
    + destruct (IH (stored ++ [r])%list) as (added & E & Hin & Hnew & Hall & Hnd).
      assert (Hfresh : ~ In (memberKey r) (map memberKey stored)).
      { intro H. apply existsb_collide_iff in H. congruence. }
      exists (r :: added). rewrite E, <- app_assoc. cbn [app].
      split; [reflexivity|]. split; [|split; [|split]].
      * intros a [<-|Ha]; [left; reflexivity | right; apply Hin, Ha].
      * intros a [<-|Ha]; [exact Hfresh|].
        intro H. apply (Hnew a Ha). rewrite map_app. apply in_or_app. left. exact H.
      * intros r' [<-|Hr'].
        -- rewrite map_app. apply in_or_app. right. left. reflexivity.
        -- specialize (Hall r' Hr'). rewrite <- app_assoc in Hall. exact Hall.
      * intro H. rewrite <- app_assoc in Hnd. apply Hnd.
        rewrite map_app. cbn [map]. apply NoDup_app; [exact H | | ].
        -- constructor; [intros [] | constructor].
        -- intros k Hk [<-|[]]. exact (Hfresh Hk).
Qed.

Lemma addRows_idle (rows : list VoterListMembers.row) :
  forall stored,
    (forall r, In r rows -> In (memberKey r) (map memberKey stored)) ->
    fold_left ListMembers.addRow rows stored = stored.
Proof.
  induction rows as [|r rows IH]; intros stored H; [reflexivity|].
  cbn [fold_left]. unfold ListMembers.addRow at 2.
  replace (existsb (VoterListMembers.collide r) stored) with true.
  - apply IH. intros r' Hr'. apply H. right. exact Hr'.
  - symmetry. apply existsb_collide_iff, H. left. reflexivity.
Qed.

Lemma withMembers_same (s : Store.t) :
  Store.withMembers (Store.voterListMembers s) s = s.
Proof. destruct s. reflexivity. Qed.

Lemma findList_exists (listId organizationId : nat) (s : Store.t) (l : VoterLists.row) :
  ListsRoute.findList listId organizationId s = Some l ->
  existsb (fun l' => Nat.eqb (VoterLists.id l') listId) (Store.voterLists s) = true.
Proof.
  unfold ListsRoute.findList. intro H. apply find_some in H as [Hin Hp].
  apply existsb_exists. exists l. split; [exact Hin|].
  apply andb_true_iff in Hp as [Hp _]. exact Hp.
Qed.

Lemma findList_notOwned (organizationId listId : nat) (s : Store.t) :
  notOwned organizationId listId s ->
  ListsRoute.findList listId organizationId s = None.
Proof.
  unfold notOwned, ListsRoute.findList. intro H.
  destruct (find _ _) as [l|] eqn:E; [|reflexivity].
  apply find_some in E as [Hin Hp]. apply andb_true_iff in Hp as [Hid Horg].
  apply Nat.eqb_eq in Hid. apply Nat.eqb_eq in Horg.
  exfalso. exact (H l Hin Hid Horg).
Qed.

Lemma addVoters_rows_refer (user listId : nat) (ids : list nat) (s : Store.t) :
  existsb (fun l => Nat.eqb (VoterLists.id l) listId) (Store.voterLists s) = true ->
  (forall id, In id ids ->
              existsb (fun v => Nat.eqb (Voters.id v) id) (Store.voters s) = true) ->
  forallb (ListMembers.references s)
          (map (fun voterId =>
                  {| VoterListMembers.listId := listId;
                     VoterListMembers.voterId := voterId;
                     VoterListMembers.addedBy := Some user |}) ids) = true.
Proof.
  intros Hl Hv. apply forallb_forall. intros r Hr.
  apply in_map_iff in Hr as (id & <- & Hid).
  unfold ListMembers.references. cbn [VoterListMembers.listId VoterListMembers.voterId].
  rewrite Hl, (Hv id Hid). reflexivity.
Qed.

Lemma addVoters_accepts_voters_aux
  (organizationId user listId : nat) (ids : list nat) (s : Store.t) :
  ListsRoute.findList listId organizationId s <> None ->
  ids <> [] ->
  (forall id, In id ids -> exists v, In v (Store.voters s) /\ Voters.id v = id) ->
  exists s',
    ListMembers.addVoters organizationId user listId (Some ids) s
    = (ListMembers.Done (length ids), s')
    /\ (forall id, In id ids -> isMember listId id s' = true)
    /\ Store.voters s' = Store.voters s
    /\ (Store.voterLists s' = Store.voterLists s
        /\ Store.nextVoterId s' = Store.nextVoterId s).
Proof.
  intros Hlist Hne Hvoters. unfold ListMembers.addVoters.
  destruct ids as [|id0 ids0] eqn:Hids; [congruence|]. rewrite <- Hids in *.
  destruct (ListsRoute.findList listId organizationId s) as [l|] eqn:Hfind; [|congruence].
  unfold ListMembers.insertOnConflictDoNothing.
  rewrite addVoters_rows_refer.
  - destruct (addRows_result
                (map (fun voterId =>
                        {| VoterListMembers.listId := listId;
                           VoterListMembers.voterId := voterId;
                           VoterListMembers.addedBy := Some user |}) ids)
                (Store.voterListMembers s)) as (added & E & _ & _ & Hall & _).
    eexists. split; [reflexivity|]. split; [|repeat split].
    intros id Hid. unfold isMember. cbn [Store.voterListMembers Store.withMembers].
    rewrite E. apply existsb_collide_iff.
    apply (Hall {| VoterListMembers.listId := listId;
                   VoterListMembers.voterId := id;
                   VoterListMembers.addedBy := Some user |}).
    apply in_map_iff. exists id. auto.
  - apply (findList_exists listId organizationId s l Hfind).
  - intros id Hid. destruct (Hvoters id Hid) as (v & Hv & <-).
    apply existsb_exists. exists v. split; [exact Hv | apply Nat.eqb_refl].
Qed.

(** X13.  Adding voters to a list checks that the list belongs to the
    tenant and nothing about the voters: when every id names a stored
    voter, of whatever tenant, the request succeeds, reports the
    number of ids it was given, and each of the ids is then a member
    of the list. *)
Theorem addVoters_accepts_voters_of_any_tenant
  (organizationId user listId : nat) (ids : list nat) (s : Store.t) :
  ListsRoute.findList listId organizationId s <> None ->
  ids <> [] ->
  (forall id, In id ids -> exists v, In v (Store.voters s) /\ Voters.id v = id) ->
  exists s',
    ListMembers.addVoters organizationId user listId (Some ids) s
    = (ListMembers.Done (length ids), s')
    /\ (forall id, In id ids -> isMember listId id s' = true)
    /\ Store.voters s' = Store.voters s.
Proof.
  intros Hlist Hne Hvoters.
  destruct (addVoters_accepts_voters_aux organizationId user listId ids s
              Hlist Hne Hvoters) as (s' & E & Hmember & Hsame & _).
  exists s'. auto.
Qed.

Lemma addVoters_accepts_voters_of_any_tenant_witness :
  exists s',
    ListMembers.addVoters 1 9 7 (Some [3]) twoTenants = (ListMembers.Done 1, s')
    /\ (forall id, In id [3] -> isMember 7 id s' = true)
    /\ Store.voters s' = Store.voters twoTenants.
Proof.
  apply (addVoters_accepts_voters_of_any_tenant 1 9 7 [3] twoTenants).
  - discriminate.
  - discriminate.
  - intros id [<-|[]]. exists (voterIn 3 2 "V1" "Duluth" "555-0102").
    split; [right; right; left; reflexivity | reflexivity].
Defined.

Lemma addVoters_done (organizationId user listId : nat) (voterIds : option (list nat))
  (s s1 : Store.t) (n : nat) :
  ListMembers.addVoters organizationId user listId voterIds s = (ListMembers.Done n, s1) ->
  exists ids added,
    voterIds = Some ids /\ ids <> [] /\ n = length ids
    /\ ListsRoute.findList listId organizationId s <> None
    /\ forallb (ListMembers.references s)
               (map (fun voterId =>
                       {| VoterListMembers.listId := listId;
                          VoterListMembers.voterId := voterId;
                          VoterListMembers.addedBy := Some user |}) ids) = true
    /\ s1 = Store.withMembers (Store.voterListMembers s ++ added) s
    /\ (forall a, In a added ->
                  VoterListMembers.listId a = listId
                  /\ In (VoterListMembers.voterId a) ids
                  /\ ~ In (memberKey a) (map memberKey (Store.voterListMembers s)))
    /\ (forall id, In id ids ->
                   In (listId, id)
                      (map memberKey (Store.voterListMembers s ++ added)))
    /\ (NoDup (map memberKey (Store.voterListMembers s)) ->
        NoDup (map memberKey (Store.voterListMembers s ++ added))).
Proof.
  unfold ListMembers.addVoters. intro H.
  destruct voterIds as [[|id0 ids0]|]; try discriminate.
  set (ids := id0 :: ids0) in *.
  destruct (ListsRoute.findList listId organizationId s) as [l|] eqn:Hfind;
    [|discriminate].
  unfold ListMembers.insertOnConflictDoNothing in H.
  destruct (forallb _ _) eqn:Hrefs; [|discriminate].
  destruct (addRows_result
              (map (fun voterId =>
                      {| VoterListMembers.listId := listId;
                         VoterListMembers.voterId := voterId;
                         VoterListMembers.addedBy := Some user |}) ids)
              (Store.voterListMembers s)) as (added & E & Hin & Hnew & Hall & Hnd).
  rewrite E in H. inversion H. subst n s1.
  exists ids, added. split; [reflexivity|]. split; [discriminate|].
  split; [reflexivity|]. split; [discriminate|]. split; [exact Hrefs|].
  split; [reflexivity|]. split; [|split; [|exact Hnd]].
  - intros a Ha. specialize (Hnew a Ha). apply Hin in Ha.
    apply in_map_iff in Ha as (id & <- & Hid). auto.
  - intros id Hid.
    apply (Hall {| VoterListMembers.listId := listId;
                   VoterListMembers.voterId := id;
                   VoterListMembers.addedBy := Some user |}).
    apply in_map_iff. exists id. auto.
Qed.

(** X14.  Adding the same voters again changes nothing: the second
    request, by whichever user of the tenant, gets the same answer and
    leaves the store of the first, with the rows of the first request
    as they were. *)
Theorem addVoters_is_idempotent
  (organizationId user user' listId : nat) (voterIds : option (list nat))
  (s s1 : Store.t) (n : nat) :
  ListMembers.addVoters organizationId user listId voterIds s = (ListMembers.Done n, s1) ->
  ListMembers.addVoters organizationId user' listId voterIds s1 = (ListMembers.Done n, s1).
Proof.
  intro H.
  destruct (addVoters_done _ _ _ _ _ _ _ H)
    as (ids & added & -> & Hne & -> & Hfind & Hrefs & -> & _ & Hall & _).
  unfold ListMembers.addVoters.
  destruct ids as [|id0 ids0] eqn:Hids; [congruence|]. rewrite <- Hids in *.
  change (ListsRoute.findList listId organizationId
            (Store.withMembers (Store.voterListMembers s ++ added) s))
    with (ListsRoute.findList listId organizationId s).
  destruct (ListsRoute.findList listId organizationId s) as [l|]; [|congruence].
  unfold ListMembers.insertOnConflictDoNothing.
  assert (Hrefs' : forallb (ListMembers.references
                              (Store.withMembers (Store.voterListMembers s ++ added) s))
                     (map (fun voterId =>
                             {| VoterListMembers.listId := listId;
                                VoterListMembers.voterId := voterId;
                                VoterListMembers.addedBy := Some user' |}) ids) = true).
  { rewrite forallb_forall in *. intros r Hr.
    apply in_map_iff in Hr as (id & <- & Hid).
    apply (Hrefs {| VoterListMembers.listId := listId;
                    VoterListMembers.voterId := id;
                    VoterListMembers.addedBy := Some user |}).
    apply in_map_iff. exists id. auto. }
  rewrite Hrefs'. rewrite addRows_idle.
  - cbn [Store.voterListMembers Store.withMembers]. destruct s; reflexivity.
  - intros r Hr. apply in_map_iff in Hr as (id & <- & Hid).
    cbn [Store.voterListMembers Store.withMembers]. apply Hall, Hid.
Qed.

Lemma addVoters_is_idempotent_witness :
  let s1 := snd (ListMembers.addVoters 1 9 7 (Some [1; 2]) twoTenants) in
  ListMembers.addVoters 1 8 7 (Some [1; 2]) s1 = (ListMembers.Done 2, s1).
Proof.
  cbv zeta.
  apply (addVoters_is_idempotent 1 9 8 7 (Some [1; 2]) twoTenants).
  reflexivity.
Defined.

(** X15.  Removing voters undoes adding them: when none of the ids was
    a member of the list, a remove request with the same ids after a
    successful add request leaves the store as it was before the two,
    whatever tenant sends the remove request. *)
Theorem removeVoters_undoes_addVoters
  (organizationId organizationId' user listId : nat) (voterIds : option (list nat))
  (s s1 : Store.t) (n : nat) :
  (forall ids id, voterIds = Some ids -> In id ids -> isMember listId id s = false) ->
  ListMembers.addVoters organizationId user listId voterIds s = (ListMembers.Done n, s1) ->
  ListMembers.removeVoters organizationId' listId voterIds s1 = (ListMembers.Done n, s).
Proof.
  intros Hfree H.
  destruct (addVoters_done _ _ _ _ _ _ _ H)
    as (ids & added & -> & Hne & -> & _ & _ & -> & Hadded & _ & _).
  specialize (Hfree ids).
  unfold ListMembers.removeVoters.
  destruct ids as [|id0 ids0] eqn:Hids; [congruence|]. rewrite <- Hids in *.
  f_equal. cbn [Store.voterListMembers Store.withMembers].
  rewrite filter_app.
  assert (Hold : filter (fun m => negb (Nat.eqb (VoterListMembers.listId m) listId
                                        && existsb (Nat.eqb (VoterListMembers.voterId m)) ids))
                        (Store.voterListMembers s) = Store.voterListMembers s).
  { apply forallb_filter_id. apply forallb_forall. intros m Hm.
    apply negb_true_iff. apply andb_false_iff.
    destruct (Nat.eqb (VoterListMembers.listId m) listId) eqn:El; [right | left; reflexivity].
    destruct (existsb _ ids) eqn:Ex; [|reflexivity].
    apply existsb_exists in Ex as (id & Hid & Ev).
    apply Nat.eqb_eq in El. apply Nat.eqb_eq in Ev.
    specialize (Hfree id eq_refl Hid). unfold isMember in Hfree.
    assert (Ht : existsb (VoterListMembers.collide
                            {| VoterListMembers.listId := listId;
                               VoterListMembers.voterId := id;
                               VoterListMembers.addedBy := None |})
                         (Store.voterListMembers s) = true).
    { apply existsb_exists. exists m. split; [exact Hm|].
      apply collide_iff. unfold memberKey. cbn. congruence. }
    congruence. }
  assert (Hnew : filter (fun m => negb (Nat.eqb (VoterListMembers.listId m) listId
                                        && existsb (Nat.eqb (VoterListMembers.voterId m)) ids))
                        added = []).
  { clear - Hadded. induction added as [|a added IH]; [reflexivity|].
    cbn [filter]. destruct (Hadded a (or_introl eq_refl)) as (Hl & Hv & _).
    replace (Nat.eqb (VoterListMembers.listId a) listId) with true
      by (symmetry; apply Nat.eqb_eq, Hl).
    replace (existsb (Nat.eqb (VoterListMembers.voterId a)) ids) with true.
    - cbn [andb negb]. apply IH. intros a' Ha'. apply Hadded. right. exact Ha'.
    - symmetry. apply existsb_exists. exists (VoterListMembers.voterId a).
      split; [exact Hv | apply Nat.eqb_refl]. }
  rewrite Hold, Hnew, app_nil_r. destruct s; reflexivity.
Qed.

Lemma removeVoters_undoes_addVoters_witness :
  ListMembers.removeVoters 2 7 (Some [1; 3])
    (snd (ListMembers.addVoters 1 9 7 (Some [1; 3]) twoTenants))
  = (ListMembers.Done 2, twoTenants).
Proof.
  apply (removeVoters_undoes_addVoters 1 2 9 7 (Some [1; 3]) twoTenants _ 2).
  - intros ids id E Hid. inversion E. subst ids.
    destruct Hid as [<-|[<-|[]]]; reflexivity.
  - reflexivity.
Defined.

Lemma filter_all {A : Type} (p : A -> bool) (xs : list A) :
  (forall x, In x xs -> p x = true) -> filter p xs = xs.
Proof. intro H. apply forallb_filter_id, forallb_forall, H. Qed.

Lemma filter_none {A : Type} (p : A -> bool) (xs : list A) :
  (forall x, In x xs -> p x = false) -> filter p xs = [].
Proof.
  induction xs as [|x xs IH]; intro H; [reflexivity|].
  cbn [filter]. rewrite (H x (or_introl eq_refl)).
  apply IH. intros y Hy. apply H. right. exact Hy.
Qed.

(** X16.  A tenant cannot populate, extend or delete a list that is
    not its own: for a list key that no list of the tenant carries,
    populate and add answer that the list was not found, and all three
    requests leave the store as it is. *)
Theorem lists_of_other_tenants_are_out_of_reach
  (organizationId user listId : nat) (criteria : option Criteria.t)
  (id0 : nat) (ids : list nat) (s : Store.t) :
  notOwned organizationId listId s ->
  ListsRoute.populate organizationId user listId criteria s = (ListsRoute.NotFound, s)
  /\ ListMembers.addVoters organizationId user listId (Some (id0 :: ids)) s
     = (ListMembers.NotFound, s)
  /\ ListMembers.deleteList organizationId listId s = s.
Proof.
  intro H. pose proof (findList_notOwned _ _ _ H) as Hfind.
  split; [|split].
  - unfold ListsRoute.populate. rewrite Hfind. reflexivity.
  - unfold ListMembers.addVoters. rewrite Hfind. reflexivity.
  - unfold ListMembers.deleteList. cbv zeta.
    rewrite (filter_none (fun l => (Nat.eqb (VoterLists.id l) listId
                                    && Nat.eqb (VoterLists.organizationId l)
                                               organizationId)%bool)).
    + cbn [existsb negb]. rewrite filter_all by reflexivity.
      rewrite filter_all.
      * destruct s; reflexivity.
      * intros l Hl. apply negb_true_iff, andb_false_iff.
        destruct (Nat.eqb (VoterLists.id l) listId) eqn:E; [right | left; reflexivity].
        apply Nat.eqb_eq in E. apply Nat.eqb_neq. exact (H l Hl E).
    + intros l Hl. apply andb_false_iff.
      destruct (Nat.eqb (VoterLists.id l) listId) eqn:E; [right | left; reflexivity].
      apply Nat.eqb_eq in E. apply Nat.eqb_neq. exact (H l Hl E).
Qed.

Lemma lists_of_other_tenants_are_out_of_reach_witness :
  ListsRoute.populate 2 9 7 (Some inDuluth) twoTenants = (ListsRoute.NotFound, twoTenants)
  /\ ListMembers.addVoters 2 9 7 (Some [3]) twoTenants
     = (ListMembers.NotFound, twoTenants)
  /\ ListMembers.deleteList 2 7 twoTenants = twoTenants.
Proof.
  apply (lists_of_other_tenants_are_out_of_reach 2 9 7 (Some inDuluth) 3 [] twoTenants).
  intros l [<-|[]] _. discriminate.
Defined.

(** ** The members table stays sound *)

Lemma references_same (s s' : Store.t) (r : VoterListMembers.row) :
  map VoterLists.id (Store.voterLists s') = map VoterLists.id (Store.voterLists s) ->
  Store.voters s' = Store.voters s ->
  ListMembers.references s' r = ListMembers.references s r.
Proof.
  intros Hl Hv. unfold ListMembers.references. rewrite Hv. f_equal.
  assert (G : forall ls,
             existsb (fun l => Nat.eqb (VoterLists.id l) (VoterListMembers.listId r)) ls
             = existsb (fun i => Nat.eqb i (VoterListMembers.listId r))
                       (map VoterLists.id ls)).
  { induction ls as [|l ls IH]; [reflexivity|]. cbn [existsb map]. rewrite IH.
    reflexivity. }
  rewrite !G, Hl. reflexivity.
Qed.

Lemma references_key (s : Store.t) (a b : VoterListMembers.row) :
  memberKey a = memberKey b ->
  ListMembers.references s a = ListMembers.references s b.
Proof.
  unfold memberKey, ListMembers.references. intro H. inversion H as [[Hl Hv]].
  rewrite Hl, Hv. reflexivity.
Qed.

Lemma NoDup_map_sub {A B : Type} (f : A -> B) (p : A -> bool) (xs : list A) :
  NoDup (map f xs) -> NoDup (map f (filter p xs)).
Proof.
  induction xs as [|x xs IH]; intro H; [constructor|].
  inversion H as [|? ? Hnotin Hnd]; subst. cbn [filter].
  destruct (p x); [|apply IH, Hnd].
  cbn [map]. constructor; [|apply IH, Hnd].
  intro Hin. apply Hnotin. apply in_map_iff in Hin as (y & Hy & Hin).
  apply filter_In in Hin as [Hin _]. apply in_map_iff. eauto.
Qed.

Lemma NoDup_map_injective {A B : Type} (f : A -> B) (xs : list A) :
  (forall a b, f a = f b -> a = b) -> NoDup xs -> NoDup (map f xs).
Proof.
  intros Hf. induction 1 as [|x xs Hnotin Hnd IH]; cbn [map]; constructor.
  - intro Hin. apply in_map_iff in Hin as (y & Hy & Hin).
    apply Hf in Hy. subst y. contradiction.
  - exact IH.
Qed.

Lemma forallb_filter {A : Type} (q p : A -> bool) (xs : list A) :
  forallb q xs = true -> forallb q (filter p xs) = true.
Proof.
  rewrite !forallb_forall. intros H x Hx. apply filter_In in Hx as [Hx _]. auto.
Qed.

Lemma sound_addVoters (organizationId user listId : nat)
  (voterIds : option (list nat)) (s : Store.t) :
  membersSound s ->
  membersSound (snd (ListMembers.addVoters organizationId user listId voterIds s)).
Proof.
  intros [Hu Hr].
  destruct (ListMembers.addVoters organizationId user listId voterIds s)
    as [r s'] eqn:E.
  assert (Hcases : (exists n, r = ListMembers.Done n) \/ s' = s).
  { unfold ListMembers.addVoters in E.
    destruct voterIds as [[|id0 ids0]|]; try (inversion E; auto; fail).
    destruct (ListsRoute.findList _ _ _); [|inversion E; auto].
    destruct (ListMembers.insertOnConflictDoNothing _ _); inversion E; eauto. }
  cbn [snd]. destruct Hcases as [[n ->]| ->]; [|constructor; assumption].
  destruct (addVoters_done _ _ _ _ _ _ _ E)
    as (ids & added & -> & Hne & -> & _ & Hrefs & -> & Hadded & _ & Hnd).
  constructor; cbn [Store.voterListMembers Store.withMembers].
  - apply Hnd, Hu.
  - rewrite forallb_forall in *. intros m Hm.
    rewrite (references_same s) by reflexivity.
    apply in_app_or in Hm as [Hm|Hm]; [apply Hr, Hm|].
    destruct (Hadded m Hm) as (Hl & Hv & _).
    rewrite (references_key s m {| VoterListMembers.listId := listId;
                                   VoterListMembers.voterId := VoterListMembers.voterId m;
                                   VoterListMembers.addedBy := Some user |})
      by (unfold memberKey; cbn; congruence).
    apply Hrefs. apply in_map_iff. exists (VoterListMembers.voterId m). auto.
Qed.

Lemma sound_removeVoters (organizationId listId : nat)
  (voterIds : option (list nat)) (s : Store.t) :
  membersSound s ->
  membersSound (snd (ListMembers.removeVoters organizationId listId voterIds s)).
Proof.
  intros [Hu Hr]. unfold ListMembers.removeVoters.
  destruct voterIds as [[|id0 ids0]|]; cbn [snd]; try (constructor; assumption).
  constructor; cbn [Store.voterListMembers Store.withMembers].
  - apply NoDup_map_sub, Hu.
  - apply forallb_filter.
    rewrite forallb_forall in *. intros m Hm.
    rewrite (references_same s) by reflexivity. apply Hr, Hm.
Qed.

Lemma sound_deleteList (organizationId listId : nat) (s : Store.t) :
  membersSound s -> membersSound (ListMembers.deleteList organizationId listId s).
Proof.
  intros [Hu Hr]. unfold ListMembers.deleteList. cbv zeta.
  constructor; cbn [Store.voterListMembers Store.withMembers].
  - apply NoDup_map_sub, Hu.
  - apply forallb_forall. intros m Hm.
    apply filter_In in Hm as [Hm Hkept].
    rewrite forallb_forall in Hr. specialize (Hr m Hm).
    unfold ListMembers.references in *.
    cbn [Store.voterLists Store.voters Store.withMembers Store.withLists].
    apply andb_true_iff in Hr as [Hl Hv]. rewrite Hv, andb_true_r.
    apply existsb_exists in Hl as (l & Hl & Hid).
    apply existsb_exists. exists l. split; [|exact Hid].
    apply filter_In. split; [exact Hl|].
    destruct (Nat.eqb (VoterLists.id l) listId
              && Nat.eqb (VoterLists.organizationId l) organizationId)%bool eqn:Hd;
      [|reflexivity].
    apply negb_true_iff in Hkept.
    assert (Ht : existsb (fun l0 => Nat.eqb (VoterLists.id l0) (VoterListMembers.listId m))
                   (filter (fun l0 => (Nat.eqb (VoterLists.id l0) listId
                                       && Nat.eqb (VoterLists.organizationId l0)
                                                  organizationId)%bool)
                           (Store.voterLists s)) = true).
    { apply existsb_exists. exists l. split; [|exact Hid].
      apply filter_In. auto. }
    congruence.
Qed.

Lemma sound_populated (organizationId user listId : nat) (criteria : Criteria.t)
  (s : Store.t) :
  Store.keysFresh s ->
  ListsRoute.findList listId organizationId s <> None ->
  membersSound s ->
  membersSound (populated organizationId user listId criteria s).
Proof.
  intros Hfresh Hfind [Hu Hr].
  assert (Hlists : map VoterLists.id (Store.voterLists
                      (populated organizationId user listId criteria s))
                   = map VoterLists.id (Store.voterLists s)).
  { unfold populated, ListsRoute.storeCriteria.
    cbn [Store.voterLists Store.withLists Store.withMembers].
    rewrite map_map. apply map_ext. intro l.
    destruct (Nat.eqb (VoterLists.id l) listId); reflexivity. }
  constructor.
  - unfold populated, ListsRoute.storeCriteria.
    cbn [Store.voterListMembers Store.withLists Store.withMembers].
    rewrite map_app. apply NoDup_app.
    + apply NoDup_map_sub, Hu.
    + rewrite map_map. unfold memberKey, memberRow.
      cbn [VoterListMembers.listId VoterListMembers.voterId].
      apply NoDup_map_injective; [|apply matchingVoters_NoDup, Hfresh].
      intros a b E. inversion E. reflexivity.
    + intros k Hold Hnew.
      apply in_map_iff in Hold as (m & <- & Hm).
      apply filter_In in Hm as [_ Hm]. apply negb_true_iff, Nat.eqb_neq in Hm.
      apply in_map_iff in Hnew as (m' & E & Hm').
      apply in_map_iff in Hm' as (id & <- & _).
      unfold memberKey, memberRow in E. cbn in E. inversion E. congruence.
  - apply forallb_forall. intros m Hm.
    rewrite (references_same s) by (exact Hlists || reflexivity).
    unfold populated, ListsRoute.storeCriteria in Hm.
    cbn [Store.voterListMembers Store.withLists Store.withMembers] in Hm.
    apply in_app_or in Hm as [Hm|Hm].
    + apply filter_In in Hm as [Hm _]. rewrite forallb_forall in Hr. apply Hr, Hm.
    + apply in_map_iff in Hm as (id & <- & Hid).
      unfold ListMembers.references, memberRow.
      cbn [VoterListMembers.listId VoterListMembers.voterId].
      destruct (ListsRoute.findList listId organizationId s) as [l|] eqn:Hf;
        [|congruence].
      rewrite (findList_exists _ _ _ _ Hf). cbn [andb].
      unfold ListsRoute.matchingVoters in Hid.
      apply in_map_iff in Hid as (v & <- & Hv). apply filter_In in Hv as [Hv _].
      apply existsb_exists. exists v. split; [exact Hv | apply Nat.eqb_refl].
Qed.

Lemma sound_populate (organizationId user listId : nat)
  (filterCriteria : option Criteria.t) (s : Store.t) :
  Store.keysFresh s ->
  membersSound s ->
  membersSound (snd (ListsRoute.populate organizationId user listId filterCriteria s)).
Proof.
  intros Hfresh Hs.
  destruct (ListsRoute.findList listId organizationId s) as [l|] eqn:Hf.
  - assert (Hc : ListsRoute.populate organizationId user listId filterCriteria s
                 = match (match filterCriteria with
                          | Some c => Some c
                          | None => VoterLists.filterCriteria l
                          end) with
                   | None => (ListsRoute.BadRequest, s)
                   | Some c => ListsRoute.populate organizationId user listId (Some c) s
                   end).
    { unfold ListsRoute.populate. rewrite Hf.
      destruct filterCriteria as [c|]; [reflexivity|].
      destruct (VoterLists.filterCriteria l); reflexivity. }
    rewrite Hc.
    destruct (match filterCriteria with
              | Some c => Some c
              | None => VoterLists.filterCriteria l
              end) as [c|]; [|exact Hs].
    rewrite populate_succeeds by (assumption || congruence).
    apply sound_populated; (assumption || congruence).
  - unfold ListsRoute.populate. rewrite Hf. exact Hs.
Qed.

(** X17.  The members table stays as the schema promises through every
    request that writes it: after a populate, an add, a remove or the
    deletion of a list, no (list, voter) pair is stored twice and every
    member row still references a stored list and a stored voter. *)
Theorem list_requests_keep_members_sound
  (organizationId user listId : nat) (filterCriteria : option Criteria.t)
  (voterIds : option (list nat)) (s : Store.t) :
  Store.keysFresh s ->
  membersSound s ->
  membersSound (snd (ListsRoute.populate organizationId user listId filterCriteria s))
  /\ membersSound (snd (ListMembers.addVoters organizationId user listId voterIds s))
  /\ membersSound (snd (ListMembers.removeVoters organizationId listId voterIds s))
  /\ membersSound (ListMembers.deleteList organizationId listId s).
Proof.
  intros Hfresh Hs. split; [|split; [|split]].
  - apply sound_populate; assumption.
  - apply sound_addVoters, Hs.
  - apply sound_removeVoters, Hs.
  - apply sound_deleteList, Hs.
Qed.

Lemma list_requests_keep_members_sound_witness :
  membersSound (snd (ListsRoute.populate 1 9 7 (Some inDuluth) twoTenants))
  /\ membersSound (snd (ListMembers.addVoters 1 9 7 (Some [1; 3]) twoTenants))
  /\ membersSound (snd (ListMembers.removeVoters 1 7 (Some [1; 3]) twoTenants))
  /\ membersSound (ListMembers.deleteList 1 7 twoTenants).
Proof.
  apply (list_requests_keep_members_sound 1 9 7 (Some inDuluth) (Some [1; 3]) twoTenants).
  - split.
    + cbn. repeat constructor; cbn; intuition discriminate.
    + cbn. repeat constructor.
  - constructor.
    + cbn. repeat constructor. intros [].
    + reflexivity.
Defined.

(** ** The import script, line by line *)

Section ScriptRun.

Variable validDate : string -> bool.
Variable districtNum : Z.
Variable orgId : nat.
Variable headers : list string.

Local Abbreviation effect := (effectOfLine validDate districtNum orgId headers).
Local Abbreviation idOf := (externalId headers).
Local Abbreviation voterOf := (lineVoter validDate districtNum orgId headers).

Lemma ranOver_nil (t : ImportScript.ImportStats) (s : Store.t) :
  ranOver headers t s [] t s.
Proof.
  constructor; cbn [length]; unfold count; cbn [filter length];
    rewrite ?Nat.sub_diag, ?Nat.add_0_r; cbn [seq]; rewrite ?app_nil_r;
    reflexivity || lia.
Qed.

Lemma update_keeps_ids (voters : list Voters.row) (key : nat)
  (voter : ImportScript.VoterRecord) :
  map Voters.id (map (fun r => if Nat.eqb (Voters.id r) key
                               then ImportScript.applyVoter voter r else r) voters)
  = map Voters.id voters.
Proof.
  rewrite map_map. apply map_ext. intro r.
  destruct (Nat.eqb (Voters.id r) key); reflexivity.
Qed.

(** One line: it is skipped, or it updates the row the lookup finds,
    or it adds a row with the next key. *)
Lemma effect_cases (t : ImportScript.ImportStats) (s : Store.t) (line : string) :
  (anonymous headers line = true
   /\ effect (t, s) line
      = (ImportScript.countSkipped (ImportScript.countRow t), s))
  \/ (anonymous headers line = false
      /\ exists existing,
           ImportScript.findByStateVoterId (idOf line) s = Some existing
           /\ effect (t, s) line
              = (ImportScript.countUpdated (ImportScript.countRow t),
                 Store.withVoters
                   (map (fun r => if Nat.eqb (Voters.id r) (Voters.id existing)
                                  then ImportScript.applyVoter (voterOf line) r
                                  else r)
                        (Store.voters s))
                   (Store.nextVoterId s) s))
  \/ (anonymous headers line = false
      /\ ImportScript.findByStateVoterId (idOf line) s = None
      /\ effect (t, s) line
         = (ImportScript.countImported (ImportScript.countRow t),
            Store.withVoters
              (Store.voters s
               ++ [ImportScript.newVoter (Store.nextVoterId s) (voterOf line)])
              (S (Store.nextVoterId s)) s)).
Proof.
  unfold effectOfLine, anonymous.
  destruct (negb (Js.truthy (idOf line))) eqn:Ha; [left; auto|].
  right. unfold ImportScript.upsertVoter, onStats. cbn [fst snd].
  change (ImportScript.stateVoterId (voterOf line)) with (idOf line).
  destruct (ImportScript.findByStateVoterId (idOf line) s) as [existing|] eqn:Hf.
  - left. split; [reflexivity|]. exists existing. auto.
  - right. auto.
Qed.

Lemma ranOver_step (t0 : ImportScript.ImportStats) (s0 : Store.t)
  (rows : list string) (t : ImportScript.ImportStats) (s : Store.t) (line : string) :
  ranOver headers t0 s0 rows t s ->
  ranOver headers t0 s0 (rows ++ [line]) (fst (effect (t, s) line))
          (snd (effect (t, s) line)).
Proof.
  intros [R1 R2 R3 R4 R5 R6 R7 R8 R9 R10 R11 R12].
  pose proof (count_snoc (anonymous headers) rows line) as Hc.
  destruct (effect_cases t s line)
    as [(Ha & ->) | [(Ha & existing & _ & ->) | (Ha & _ & ->)]];
    rewrite Ha in Hc; cbn [fst snd];
    constructor;
    cbn [ImportScript.totalRows ImportScript.imported ImportScript.updated
         ImportScript.skipped ImportScript.errors ImportScript.electionRecords
         ImportScript.countSkipped ImportScript.countRow ImportScript.countUpdated
         ImportScript.countImported
         Store.voters Store.nextVoterId Store.electionHistory Store.nextElectionId
         Store.voterLists Store.voterListMembers Store.withVoters];
    rewrite ?length_app; cbn [length]; try assumption; try lia.
  - rewrite update_keeps_ids. exact R7.
  - rewrite map_app, R7. cbn [map ImportScript.newVoter Voters.id].
    rewrite <- app_assoc. f_equal.
    replace (S (ImportScript.imported t) - ImportScript.imported t0)
      with (S (ImportScript.imported t - ImportScript.imported t0)) by lia.
    rewrite seq_S. f_equal. f_equal. lia.
Qed.

Lemma ranOver_fold (rows : list string) :
  forall t0 s0 done t s,
    ranOver headers t0 s0 done t s ->
    ranOver headers t0 s0 (done ++ rows)
            (fst (fold_left effect rows (t, s)))
            (snd (fold_left effect rows (t, s))).
Proof.
  induction rows as [|l rows IH]; intros t0 s0 done t s H.
  - rewrite app_nil_r. exact H.
  - cbn [fold_left].
    replace (done ++ l :: rows)%list with ((done ++ [l]) ++ rows)%list
      by (rewrite <- app_assoc; reflexivity).
    pose proof (ranOver_step _ _ _ _ _ l H) as H1.
    destruct (effect (t, s) l) as [t1 s1]. apply IH. exact H1.
Qed.

Lemma ranOver_importDistrict (header : string) (rows : list string) (s : Store.t) :
  headers = ImportScript.parseHeaders header ->
  ranOver headers (ImportScript.mkStats 0 0 0 0 0 0) s rows
    (fst (ImportScript.importDistrict validDate districtNum orgId (header :: rows) s))
    (snd (ImportScript.importDistrict validDate districtNum orgId (header :: rows) s)).
Proof.
  intros Hh. rewrite importDistrict_by_line, <- Hh.
  apply (ranOver_fold rows _ _ []), ranOver_nil.
Qed.

End ScriptRun.


(** X19.  The script stores no election history: whatever election
    columns the file has, every history insert lacks the tenant and
    is rejected, so the table is left as it was and the counter of
    election records stays at zero; the lists and their members are
    not touched either. *)
Theorem importDistrict_stores_no_election_history
  (validDate : string -> bool) (districtNum : Z) (orgId : nat)
  (header : string) (rows : list string) (s : Store.t) :
  let result := ImportScript.importDistrict validDate districtNum orgId
                  (header :: rows) s in
  ImportScript.electionRecords (fst result) = 0
  /\ Store.electionHistory (snd result) = Store.electionHistory s
  /\ Store.voterLists (snd result) = Store.voterLists s
  /\ Store.voterListMembers (snd result) = Store.voterListMembers s.
Proof.
  cbv zeta.
  destruct (ranOver_importDistrict validDate districtNum orgId
              (ImportScript.parseHeaders header) header rows s eq_refl)
    as [_ _ _ _ _ R6 _ _ R9 _ R11 R12].
  auto.
Qed.

Lemma keysFresh_grown (s0 s : Store.t) (n : nat) :
  map Voters.id (Store.voters s)
  = (map Voters.id (Store.voters s0) ++ seq (Store.nextVoterId s0) n)%list ->
  Store.nextVoterId s = Store.nextVoterId s0 + n ->
  Store.keysFresh s0 -> Store.keysFresh s.
Proof.
  intros Hids Hnext [Hnd Hbound]. rewrite Forall_forall in Hbound.
  assert (Hold : forall k, In k (map Voters.id (Store.voters s0)) ->
                           k < Store.nextVoterId s0).
  { intros k Hk. apply in_map_iff in Hk as (v & <- & Hv). apply Hbound, Hv. }
  split.
  - rewrite Hids. apply NoDup_app; [exact Hnd | apply seq_NoDup |].
    intros k Hk Hseq. apply in_seq in Hseq. specialize (Hold k Hk). lia.
  - apply Forall_forall. intros v Hv.
    assert (Hin : In (Voters.id v) (map Voters.id (Store.voters s)))
      by (apply in_map, Hv).
    rewrite Hids in Hin. apply in_app_or in Hin as [Hin|Hin].
    + specialize (Hold _ Hin). lia.
    + apply in_seq in Hin. lia.
Qed.



Lemma storedStateIds_spec (s : Store.t) :
  storedStateIds s
  = flat_map (fun o => match o with Some sid => [sid] | None => [] end)
             (map Voters.stateVoterId (Store.voters s)).
Proof.
  unfold storedStateIds. induction (Store.voters s) as [|v vs IH]; [reflexivity|].
  cbn [flat_map map]. rewrite IH. reflexivity.
Qed.

Lemma storedStateIds_in (s : Store.t) (sid : string) :
  In sid (storedStateIds s)
  <-> exists v, In v (Store.voters s) /\ Voters.stateVoterId v = Some sid.
Proof.
  unfold storedStateIds. rewrite in_flat_map. split.
  - intros (v & Hv & Hin). exists v. split; [exact Hv|].
    destruct (Voters.stateVoterId v); [|destruct Hin].
    destruct Hin as [->|[]]. reflexivity.
  - intros (v & Hv & E). exists v. split; [exact Hv|]. rewrite E. left. reflexivity.
Qed.

Lemma findByStateVoterId_stored (s : Store.t) (sid : string) :
  In sid (storedStateIds s) ->
  exists v, ImportScript.findByStateVoterId sid s = Some v
            /\ In v (Store.voters s)
            /\ Voters.stateVoterId v = Some sid.
Proof.
  intro H. apply storedStateIds_in in H as (v & Hv & E).
  destruct (find_present (fun r => Store.eqText (Voters.stateVoterId r) sid)
                         (Store.voters s) v Hv) as (y & Hy & Hyin & Hyp).
  - apply eqText_true, E.
  - exists y. split; [exact Hy|]. split; [exact Hyin|]. apply eqText_true, Hyp.
Qed.

Lemma findByStateVoterId_absent (s : Store.t) (sid : string) :
  ImportScript.findByStateVoterId sid s = None -> ~ In sid (storedStateIds s).
Proof.
  intros Hnone Hin. destruct (findByStateVoterId_stored s sid Hin) as (v & Hv & _).
  congruence.
Qed.

Section ScriptIds.

Variable validDate : string -> bool.
Variable districtNum : Z.
Variable orgId : nat.
Variable headers : list string.

Local Abbreviation effect := (effectOfLine validDate districtNum orgId headers).
Local Abbreviation idOf := (externalId headers).
Local Abbreviation voterOf := (lineVoter validDate districtNum orgId headers).

(** One line, on a table with distinct keys: the state voter ids
    stored are the ones before, followed by the id of the line when
    the line adds a row. *)
Lemma effect_stateIds (t : ImportScript.ImportStats) (s : Store.t) (line : string) :
  Store.keysFresh s ->
  Store.keysFresh (snd (effect (t, s) line))
  /\ exists new,
       storedStateIds (snd (effect (t, s) line)) = (storedStateIds s ++ new)%list
       /\ (forall sid, In sid new -> sid = idOf line /\ ~ In sid (storedStateIds s))
       /\ length new <= 1
       /\ (anonymous headers line = false ->
           In (idOf line) (storedStateIds s ++ new)).
Proof.
  intro Hfresh.
  assert (Hstep := ranOver_step validDate districtNum orgId headers t s [] t s line
                     (ranOver_nil headers t s)).
  destruct Hstep as [_ _ _ _ _ _ R7 R8 _ _ _ _].
  split; [exact (keysFresh_grown s _ _ R7 R8 Hfresh)|]. clear R7 R8.
  destruct (effect_cases validDate districtNum orgId headers t s line)
    as [(Ha & ->) | [(Ha & existing & Hfind & ->) | (Ha & Hfind & ->)]]; cbn [snd].
  - exists []. rewrite app_nil_r. split; [reflexivity|].
    split; [intros sid []|]. split; [cbn; lia | congruence].
  - exists []. rewrite app_nil_r.
    assert (Hex : In existing (Store.voters s)
                  /\ Voters.stateVoterId existing = Some (idOf line)).
    { unfold ImportScript.findByStateVoterId in Hfind.
      apply find_some in Hfind as [Hin Hp]. split; [exact Hin|].
      apply eqText_true, Hp. }
    destruct Hex as [Hin Hsid].
    assert (Hsame : storedStateIds
                      (Store.withVoters
                         (map (fun r => if Nat.eqb (Voters.id r) (Voters.id existing)
                                        then ImportScript.applyVoter (voterOf line) r
                                        else r)
                              (Store.voters s))
                         (Store.nextVoterId s) s)
                    = storedStateIds s).
    { rewrite !storedStateIds_spec. f_equal.
      cbn [Store.voters Store.withVoters]. rewrite map_map.
      apply map_ext_in. intros r Hr.
      destruct (Nat.eqb (Voters.id r) (Voters.id existing)) eqn:E; [|reflexivity].
      apply Nat.eqb_eq in E. destruct Hfresh as [Hnd _].
      assert (r = existing) as -> by (eapply NoDup_map_inj; eassumption).
      cbn [ImportScript.applyVoter Voters.stateVoterId].
      rewrite Hsid. reflexivity. }
    split; [exact Hsame|]. split; [intros sid []|]. split; [cbn; lia|].
    intros _. apply storedStateIds_in. eauto.
  - exists [idOf line]. split; [|split; [|split]].
    + unfold storedStateIds. cbn [Store.voters Store.withVoters].
      rewrite flat_map_app. cbn [flat_map ImportScript.newVoter Voters.stateVoterId].
      rewrite app_nil_r. reflexivity.
    + intros sid [<-|[]]. split; [reflexivity|].
      apply findByStateVoterId_absent, Hfind.
    + cbn. lia.
    + intros _. apply in_or_app. right. left. reflexivity.
Qed.

Lemma fold_stateIds (rows : list string) :
  forall t s,
    Store.keysFresh s ->
    let s' := snd (fold_left effect rows (t, s)) in
    Store.keysFresh s'
    /\ exists new,
         storedStateIds s' = (storedStateIds s ++ new)%list
         /\ (NoDup (storedStateIds s) -> NoDup (storedStateIds s ++ new))
         /\ (forall line, In line rows -> anonymous headers line = false ->
                          In (idOf line) (storedStateIds s ++ new)).
Proof.
  induction rows as [|l rows IH]; intros t s Hfresh; cbv zeta.
  - cbn [fold_left snd]. split; [exact Hfresh|]. exists []. rewrite app_nil_r.
    split; [reflexivity|]. split; [auto|]. intros line [].
  - cbn [fold_left].
    destruct (effect_stateIds t s l Hfresh) as (Hfresh1 & new1 & E1 & Hnew1 & Hlen1 & Hl).
    destruct (effect (t, s) l) as [t1 s1]. cbn [snd] in *.
    destruct (IH t1 s1 Hfresh1) as (Hfresh2 & new2 & E2 & Hnd2 & Hall2).
    split; [exact Hfresh2|].
    exists (new1 ++ new2)%list. rewrite E2, E1, app_assoc.
    split; [reflexivity|]. split; [|].
    + intro Hnd. rewrite E1 in Hnd2. apply Hnd2.
      destruct new1 as [|sid [|? ?]]; [rewrite app_nil_r; exact Hnd | | cbn in Hlen1; lia].
      destruct (Hnew1 sid (or_introl eq_refl)) as [_ Hfree].
      apply NoDup_app; [exact Hnd | constructor; [intros [] | constructor] |].
      intros k Hk [<-|[]]. exact (Hfree Hk).
    + intros line [<-|Hin] Ha.
      * apply in_or_app. left. apply Hl, Ha.
      * rewrite E1 in Hall2. apply Hall2; assumption.
Qed.

End ScriptIds.



(** X22.  The script never stores one state voter id twice: on a table
    with distinct keys whose state voter ids are pairwise distinct
    (over all tenants), they still are after a run, and none of the
    ids stored before is lost. *)
Theorem importDistrict_keeps_state_ids_distinct
  (validDate : string -> bool) (districtNum : Z) (orgId : nat)
  (header : string) (rows : list string) (s : Store.t) :
  Store.keysFresh s ->
  NoDup (storedStateIds s) ->
  let s' := snd (ImportScript.importDistrict validDate districtNum orgId
                   (header :: rows) s) in
  NoDup (storedStateIds s') /\ incl (storedStateIds s) (storedStateIds s').
Proof.
  intros Hfresh Hnd. cbv zeta. rewrite importDistrict_by_line.
  destruct (fold_stateIds validDate districtNum orgId
              (ImportScript.parseHeaders header) rows
              (ImportScript.mkStats 0 0 0 0 0 0) s Hfresh)
    as (_ & new & E & Hnd' & _).
  rewrite E. split; [apply Hnd', Hnd | apply incl_appl, incl_refl].
Qed.

Lemma importDistrict_keeps_state_ids_distinct_witness :
  let s' := snd (ImportScript.importDistrict (fun _ => true) 1 1
                   repeatedIdFile oneVoterStore) in
  NoDup (storedStateIds s') /\ incl (storedStateIds oneVoterStore) (storedStateIds s').
Proof.
  apply (importDistrict_keeps_state_ids_distinct (fun _ => true) 1 1
           "VoterId,FirstName,LastName" ["V1,Ann,Lee"; "V1,Ann,Lee2"] oneVoterStore).
  - split; cbn; repeat constructor. intros [].
  - cbn. repeat constructor. intros [].
Defined.

(** ** Lines without quotes *)

Lemma scan_noQuote_split (finish : string -> string) (line : string) :
  noQuote line = true ->
  forall st,
    Csv.inQuotes st = false ->
    (Csv.result (Csv.scan finish line st)
     ++ [finish (Csv.current (Csv.scan finish line st))])%list
    = (Csv.result st
       ++ match Js.split Js.comma line with
          | h :: t => finish (Csv.current st ++ h)%string :: map finish t
          | [] => []
          end)%list.
Proof.
  induction line as [|c r IH]; intros Hq st Hst.
  - cbn [Csv.scan Js.split]. rewrite append_nil_r. reflexivity.
  - cbn [noQuote] in Hq. apply andb_true_iff in Hq as [Hc Hr].
    apply negb_true_iff in Hc.
    rewrite scan_step, Hc, Hst. cbn [negb andb]. rewrite andb_true_r.
    cbn [Js.split].
    pose proof (split_nonempty Js.comma r) as Hne.
    destruct (Ascii.eqb c Js.comma) eqn:Hcomma.
    + rewrite IH by (assumption || reflexivity).
      cbn [Csv.result Csv.current].
      destruct (Js.split Js.comma r) as [|h t]; [congruence|].
      rewrite <- app_assoc, append_nil_r. reflexivity.
    + rewrite IH by (assumption || reflexivity).
      cbn [Csv.result Csv.current].
      destruct (Js.split Js.comma r) as [|h t]; [congruence|].
      rewrite append_assoc. reflexivity.
Qed.

(** X23.  On a line without double quotes both copies of the parser
    cut at every comma: the script's copy returns the pieces as they
    are, the route's copy returns them trimmed.  On such a line the
    script's header split and its row parser therefore agree. *)
Theorem parseCSVLine_without_quotes_is_split (line : string) :
  noQuote line = true ->
  ImportScript.parseCSVLine line = Js.split Js.comma line
  /\ ImportRoute.parseCSVLine line = map Js.trim (Js.split Js.comma line).
Proof.
  intro Hq.
  assert (H : forall finish,
             Csv.parseWith finish line = map finish (Js.split Js.comma line)).
  { intro finish. unfold Csv.parseWith. cbv zeta.
    rewrite (scan_noQuote_split finish line Hq Csv.start eq_refl).
    pose proof (split_nonempty Js.comma line) as Hne.
    destruct (Js.split Js.comma line); [congruence | reflexivity]. }
  split.
  - unfold ImportScript.parseCSVLine. rewrite H. apply map_id.
  - unfold ImportRoute.parseCSVLine. apply H.
Qed.

Lemma parseCSVLine_without_quotes_is_split_witness :
  ImportScript.parseCSVLine "V1, Ann ,,Lee" = Js.split Js.comma "V1, Ann ,,Lee"
  /\ ImportRoute.parseCSVLine "V1, Ann ,,Lee"
     = map Js.trim (Js.split Js.comma "V1, Ann ,,Lee").
Proof.
  apply (parseCSVLine_without_quotes_is_split "V1, Ann ,,Lee"). reflexivity.
Defined.

(** ** Pages *)

Lemma firstn_add {A : Type} (a b : nat) (xs : list A) :
  firstn (a + b) xs = (firstn a xs ++ firstn b (skipn a xs))%list.
Proof.
  revert xs. induction a as [|a IH]; intro xs; [reflexivity|].
  destruct xs as [|x xs]; [cbn; rewrite firstn_nil; reflexivity|].
  cbn [Nat.add firstn skipn app]. rewrite IH. reflexivity.
Qed.

Lemma chunks_cover {A : Type} (n k : nat) (xs : list A) :
  concat (map (fun p => firstn n (skipn (p * n) xs)) (seq 0 k)) = firstn (k * n) xs.
Proof.
  induction k as [|k IH]; [reflexivity|].
  rewrite seq_S, map_app, concat_app, IH. cbn [map concat Nat.add].
  rewrite app_nil_r. replace (S k * n) with (k * n + n) by lia.
  rewrite firstn_add. reflexivity.
Qed.

(** The pages 1 to [totalPages] of a result, one after the other, are
    the result, when the count is not less than its length. *)
Lemma paginate_covers {A : Type} (rows : list A) (count : nat) (limit : Z) :
  (1 <= limit)%Z ->
  length rows <= count ->
  let pages := ((Z.of_nat count + Z.min limit 100 - 1) / Z.min limit 100)%Z in
  (forall page, (1 <= page)%Z ->
                exists d, Paging.paginate rows count page limit
                          = Paging.Found (Paging.mkPage d count page (Z.min limit 100)
                                                        (Some pages)))
  /\ concat (map (fun p => rowsOf (Paging.paginate rows count (Z.of_nat p) limit))
                 (seq 1 (Z.to_nat pages)))
     = rows.
Proof.
  intros Hlimit Hcount. cbv zeta.
  set (limitNum := Z.min limit 100).
  assert (Hpos : (1 <= limitNum)%Z) by (unfold limitNum; lia).
  assert (Hvalid : forall page, (1 <= page)%Z ->
             (Z.leb 0 limitNum && Z.leb 0 ((page - 1) * limitNum))%bool = true).
  { intros page Hp. apply andb_true_iff. split; apply Z.leb_le; nia. }
  assert (Hne : Z.eqb limitNum 0 = false) by (apply Z.eqb_neq; lia).
  split.
  - intros page Hp. unfold Paging.paginate. fold limitNum. cbv zeta.
    rewrite (Hvalid page Hp), Hne. eexists. reflexivity.
  - set (pages := ((Z.of_nat count + limitNum - 1) / limitNum)%Z).
    assert (Hpages : (Z.of_nat count <= pages * limitNum)%Z).
    { unfold pages.
      pose proof (Z.mul_div_le (Z.of_nat count + limitNum - 1) limitNum ltac:(lia)).
      pose proof (Z.mod_pos_bound (Z.of_nat count + limitNum - 1) limitNum ltac:(lia)).
      pose proof (Z.div_mod (Z.of_nat count + limitNum - 1) limitNum ltac:(lia)).
      nia. }
    assert (Hp0 : (0 <= pages)%Z).
    { unfold pages. apply Z.div_pos; lia. }
    rewrite <- seq_shift, map_map.
    rewrite (map_ext _ (fun p => firstn (Z.to_nat limitNum)
                                        (skipn (p * Z.to_nat limitNum) rows))).
    + rewrite chunks_cover. apply firstn_all2.
      assert (Z.of_nat count <= Z.of_nat (Z.to_nat pages * Z.to_nat limitNum))%Z
        by (rewrite Nat2Z.inj_mul, !Z2Nat.id by lia; exact Hpages).
      lia.
    + intro p. unfold Paging.paginate, rowsOf. fold limitNum. cbv zeta.
      rewrite (Hvalid (Z.of_nat (S p))) by lia.
      cbn [Paging.data]. f_equal. f_equal.
      replace (Z.of_nat (S p) - 1)%Z with (Z.of_nat p) by lia.
      rewrite Z2Nat.inj_mul, Nat2Z.id by lia. reflexivity.
Qed.

Lemma filter_key_once {A : Type} (key : A -> bool) (f : A -> nat * nat) (k : nat * nat)
  (xs : list A) :
  NoDup (map f xs) ->
  (forall x, key x = true -> f x = k) ->
  length (filter key xs) <= 1.
Proof.
  intros Hnd Hkey. induction xs as [|x xs IH]; [cbn; lia|].
  inversion Hnd as [|? ? Hnotin Hnd']; subst. cbn [filter].
  destruct (key x) eqn:Ex; [|apply IH, Hnd'].
  assert (Hnone : filter key xs = []).
  { apply filter_none. intros y Hy. destruct (key y) eqn:Ey; [|reflexivity].
    exfalso. apply Hnotin. rewrite (Hkey x Ex), <- (Hkey y Ey). apply in_map, Hy. }
  rewrite Hnone. cbn. lia.
Qed.

Lemma flat_map_length_le {A B : Type} (f : A -> list B) (xs : list A) :
  (forall x, length (f x) <= 1) -> length (flat_map f xs) <= length xs.
Proof.
  intro H. induction xs as [|x xs IH]; [cbn; lia|].
  cbn [flat_map length]. rewrite length_app. specialize (H x). lia.
Qed.

Section PagingFacts.

Variable ilike : option string -> string -> bool.
Variable orderBy : list Voters.row -> list Voters.row.

(** [order by] only reorders, and orders a result the same way for
    every page that is asked of it. *)
Hypothesis orderBy_permutes : forall rows, Permutation (orderBy rows) rows.


Lemma listVoters_rows_le (listId : nat) (s : Store.t) :
  Store.keysFresh s ->
  length (flat_map (fun m => filter (fun v => Nat.eqb (VoterListMembers.voterId m)
                                                      (Voters.id v))
                                    (Store.voters s))
                   (ListsRoute.membersOf listId s))
  <= length (ListsRoute.membersOf listId s).
Proof.
  intros [Hnd _]. apply flat_map_length_le. intro m.
  set (key := fun v : Voters.row => Nat.eqb (VoterListMembers.voterId m) (Voters.id v)).
  assert (H : length (filter key (Store.voters s)) <= 1).
  { apply (filter_key_once key (fun v => (Voters.id v, 0))
                           (VoterListMembers.voterId m, 0)).
    - rewrite <- (map_map Voters.id (fun i => (i, 0))).
      apply NoDup_map_injective; [|exact Hnd]. intros a b E. inversion E. reflexivity.
    - intros v Hv. unfold key in Hv. apply Nat.eqb_eq in Hv. rewrite Hv. reflexivity. }
  exact H.
Qed.

(** X25.  The members page of a list shows whatever voter was added to
    it, of whichever tenant: once a voter's id has been added to a
    list of the tenant, some page of the list's members, at the
    largest page size, carries that voter's row. *)
Theorem listVoters_shows_added_voter_of_any_tenant
  (organizationId user listId : nat) (v : Voters.row) (s : Store.t) :
  Store.keysFresh s ->
  ListsRoute.findList listId organizationId s <> None ->
  In v (Store.voters s) ->
  let s' := snd (ListMembers.addVoters organizationId user listId
                   (Some [Voters.id v]) s) in
  exists page p,
    (1 <= page)%Z
    /\ Paging.listVoters orderBy organizationId listId page 100 s' = Paging.Found p
    /\ In v (Paging.data p).
Proof.
  intros Hfresh Hlist Hv. cbv zeta.
  destruct (addVoters_accepts_voters_aux organizationId user listId [Voters.id v] s
              Hlist ltac:(discriminate))
    as (s' & E & Hmember & Hvoters & Hlists).
  { intros id [<-|[]]. eauto. }
  rewrite E. cbn [snd].
  assert (Hfresh' : Store.keysFresh s').
  { destruct Hfresh as [H1 H2]. unfold Store.keysFresh.
    rewrite Hvoters. destruct Hlists as [_ Hnext]. rewrite Hnext. auto. }
  assert (Hfind : ListsRoute.findList listId organizationId s' <> None).
  { unfold ListsRoute.findList in *. destruct Hlists as [-> _]. exact Hlist. }
  set (rows := flat_map (fun m => filter (fun w => Nat.eqb (VoterListMembers.voterId m)
                                                           (Voters.id w))
                                         (Store.voters s'))
                        (ListsRoute.membersOf listId s')).
  assert (Hin : In v (orderBy rows)).
  { apply (Permutation_in _ (Permutation_sym (orderBy_permutes rows))).
    unfold rows. apply in_flat_map.
    specialize (Hmember (Voters.id v) (or_introl eq_refl)).
    unfold isMember in Hmember. apply existsb_exists in Hmember as (m & Hm & Hc).
    apply collide_iff in Hc. unfold memberKey in Hc. cbn in Hc. inversion Hc as [[Hl Hid]].
    exists m. split.
    - unfold ListsRoute.membersOf. apply filter_In. split; [exact Hm|].
      apply Nat.eqb_eq. congruence.
    - apply filter_In. split; [rewrite Hvoters; exact Hv|].
      apply Nat.eqb_eq. congruence. }
  destruct (paginate_covers (orderBy rows) (length (ListsRoute.membersOf listId s')) 100
              ltac:(lia)) as [Hpage Hcover].
  { rewrite (Permutation_length (orderBy_permutes rows)).
    apply listVoters_rows_le, Hfresh'. }
  cbv zeta in Hpage, Hcover.
  rewrite <- Hcover in Hin. apply in_concat in Hin as (d & Hd & Hvd).
  apply in_map_iff in Hd as (p & <- & Hp). apply in_seq in Hp.
  destruct (Hpage (Z.of_nat p) ltac:(lia)) as (d & Ed).
  rewrite Ed in Hvd. cbn [rowsOf Paging.data] in Hvd.
  exists (Z.of_nat p). eexists. split; [lia|]. split.
  - unfold Paging.listVoters.
    destruct (ListsRoute.findList listId organizationId s'); [|congruence].
    cbv zeta. fold rows. exact Ed.
  - exact Hvd.
Qed.

End PagingFacts.


Lemma listVoters_shows_added_voter_of_any_tenant_witness :
  exists page p,
    (1 <= page)%Z
    /\ Paging.listVoters (fun rows => rows) 1 7 page 100
         (snd (ListMembers.addVoters 1 9 7 (Some [3]) twoTenants))
       = Paging.Found p
    /\ In (voterIn 3 2 "V1" "Duluth" "555-0102") (Paging.data p).
Proof.
  apply (listVoters_shows_added_voter_of_any_tenant (fun rows => rows)
           (fun rows => Permutation_refl rows) 1 9 7
           (voterIn 3 2 "V1" "Duluth" "555-0102") twoTenants).
  - split; cbn; repeat constructor; cbn; intuition discriminate.
  - discriminate.
  - right. right. left. reflexivity.
Defined.

(** ** Deleting a voter *)

(** X26.  Deleting a voter removes exactly the rows of the tenant with
    that key and leaves nothing pointing at them: the list memberships
    and the history rows that remain still reference stored voters,
    and the voters of every other tenant are as they were. *)
Theorem deleteVoter_cascades_and_stays_in_tenant
  (organizationId voterId : nat) (s : Store.t) :
  membersSound s ->
  historySound s ->
  let s' := VoterRecords.deleteVoter organizationId voterId s in
  membersSound s'
  /\ historySound s'
  /\ (forall v, In v (Store.voters s')
                <-> In v (Store.voters s)
                    /\ ~ (Voters.id v = voterId
                          /\ Voters.organizationId v = organizationId))
  /\ (forall other, other <> organizationId ->
                    tenantRows other s' = tenantRows other s).
Proof.
  intros [Hu Hr] Hh. cbv zeta.
  set (doomed := fun v : Voters.row =>
                   (Nat.eqb (Voters.id v) voterId
                    && Nat.eqb (Voters.organizationId v) organizationId)%bool).
  assert (Hkept : forall key,
             existsb (fun v => Nat.eqb (Voters.id v) key) (Store.voters s) = true ->
             existsb (fun v => Nat.eqb (Voters.id v) key)
                     (filter doomed (Store.voters s)) = false ->
             existsb (fun v => Nat.eqb (Voters.id v) key)
                     (filter (fun v => negb (doomed v)) (Store.voters s)) = true).
  { intros key Hin Hnot. apply existsb_exists in Hin as (v & Hv & Hk).
    apply existsb_exists. exists v. split; [|exact Hk].
    apply filter_In. split; [exact Hv|].
    destruct (doomed v) eqn:Hd; [|reflexivity].
    assert (Ht : existsb (fun w => Nat.eqb (Voters.id w) key)
                         (filter doomed (Store.voters s)) = true).
    { apply existsb_exists. exists v. split; [apply filter_In; auto | exact Hk]. }
    congruence. }
  unfold VoterRecords.deleteVoter. cbv zeta. fold doomed.
  split; [|split; [|split]].
  - constructor;
      cbn [Store.voterListMembers Store.withMembers Store.withElections Store.withVoters].
    + apply NoDup_map_sub, Hu.
    + apply forallb_forall. intros m Hm. apply filter_In in Hm as [Hm Hgone].
      apply negb_true_iff in Hgone.
      rewrite forallb_forall in Hr. specialize (Hr m Hm).
      unfold ListMembers.references in *.
      cbn [Store.voterLists Store.voters Store.withMembers Store.withElections
           Store.withVoters].
      apply andb_true_iff in Hr as [Hl Hv]. rewrite Hl. cbn [andb].
      apply Hkept; assumption.
  - unfold historySound in *.
    cbn [Store.electionHistory Store.voters Store.withMembers Store.withElections
         Store.withVoters].
    apply forallb_forall. intros e He. apply filter_In in He as [He Hgone].
    apply negb_true_iff in Hgone.
    rewrite forallb_forall in Hh. apply Hkept; [apply Hh, He | exact Hgone].
  - intro v.
    cbn [Store.voters Store.withMembers Store.withElections Store.withVoters].
    rewrite filter_In. unfold doomed.
    rewrite negb_true_iff, andb_false_iff, !Nat.eqb_neq. split.
    + intros [Hv Hn]. split; [exact Hv|]. intros [H1 H2]. destruct Hn; contradiction.
    + intros [Hv Hn]. split; [exact Hv|].
      destruct (Nat.eq_dec (Voters.id v) voterId) as [E|E]; [|left; exact E].
      right. intro H2. apply Hn. split; assumption.
  - intros other Hother. unfold tenantRows.
    cbn [Store.voters Store.withMembers Store.withElections Store.withVoters].
    clear Hkept Hu Hr Hh. unfold doomed. clear doomed.
    induction (Store.voters s) as [|v vs IH]; [reflexivity|].
    cbn [filter].
    destruct (Nat.eqb (Voters.id v) voterId
              && Nat.eqb (Voters.organizationId v) organizationId)%bool eqn:Hd;
      cbn [negb filter].
    + apply andb_true_iff in Hd as [_ Ho]. apply Nat.eqb_eq in Ho.
      replace (Nat.eqb (Voters.organizationId v) other) with false
        by (symmetry; apply Nat.eqb_neq; congruence).
      exact IH.
    + destruct (Nat.eqb (Voters.organizationId v) other); [rewrite IH|]; auto.
Qed.

Lemma deleteVoter_cascades_and_stays_in_tenant_witness :
  let s' := VoterRecords.deleteVoter 1 2 twoTenants in
  membersSound s'
  /\ historySound s'
  /\ (forall v, In v (Store.voters s')
                <-> In v (Store.voters twoTenants)
                    /\ ~ (Voters.id v = 2 /\ Voters.organizationId v = 1))
  /\ (forall other, other <> 1 -> tenantRows other s' = tenantRows other twoTenants).
Proof.
  apply (deleteVoter_cascades_and_stays_in_tenant 1 2 twoTenants).
  - constructor.
    + cbn. repeat constructor. intros [].
    + reflexivity.
  - reflexivity.
Defined.

(** ** Uploads of voters, and the last line of a file *)

Lemma mappedRows_length (m : ImportRoute.mappingField) (rows : list (Obj.t string)) :
  length (mappedRows m rows) = count (mapped m) rows.
Proof.
  unfold mappedRows, count, mapped. induction rows as [|r rows IH]; [reflexivity|].
  cbn [flat_map filter]. rewrite length_app, IH.
  destruct (ImportRoute.mapRowToSchema r m); reflexivity.
Qed.

Lemma offerAll_rejected {db : Type}
  (insertBatch : list (Obj.t ImportRoute.jsValue) -> db -> option string * db)
  (batches : list (list (Obj.t ImportRoute.jsValue))) :
  (forall b d, exists message, insertBatch b d = (Some message, d)) ->
  forall ok ko d,
    fold_left (offer insertBatch) batches (ok, ko, d)
    = (ok, ko + length (concat batches), d).
Proof.
  intro Hw. induction batches as [|b batches IH]; intros ok ko d.
  - cbn. rewrite Nat.add_0_r. reflexivity.
  - cbn [fold_left concat]. unfold offer at 2.
    destruct (Hw b d) as (message & ->). rewrite IH, length_app.
    f_equal. f_equal. lia.
Qed.


Lemma split_pieces (c : ascii) (s : string) :
  Forall (fun piece => Js.includes c piece = false) (Js.split c s).
Proof.
  induction s as [|d s IH]; cbn [Js.split].
  - constructor; [reflexivity | constructor].
  - destruct (Ascii.eqb d c) eqn:E.
    + constructor; [reflexivity | exact IH].
    + destruct (Js.split c s) as [|h t]; [constructor; [|constructor]|].
      * cbn. rewrite E. reflexivity.
      * inversion IH as [|? ? Hh Ht]; subst. constructor; [|exact Ht].
        cbn [Js.includes]. rewrite E, Hh. reflexivity.
Qed.

Lemma last_in {A : Type} (xs : list A) (d : A) : xs <> [] -> In (last xs d) xs.
Proof.
  induction xs as [|x xs IH]; [congruence|]. intros _.
  destruct xs as [|y ys]; [left; reflexivity|].
  right. apply IH. discriminate.
Qed.

Lemma observedRows_newline (text : string) :
  observedRows [text ++ nl] = observedRows [text].
Proof.
  unfold observedRows. cbn [feed]. change (EmptyString ++ ?x) with x.
  unfold nl, Js.str. rewrite split_app.
  set (pieces := Js.split Js.newline text).
  assert (Hlast : Js.includes Js.newline (last pieces EmptyString) = false).
  { pose proof (split_pieces Js.newline text) as H. rewrite Forall_forall in H.
    apply H, last_in, split_nonempty. }
  change (String Js.newline EmptyString) with (String Js.newline EmptyString).
  rewrite (split_at_separator Js.newline (last pieces EmptyString) EmptyString Hlast).
  cbn [Js.split].
  rewrite app_nil_r.
  rewrite removelast_app_nonempty, last_app_nonempty by discriminate.
  cbn [removelast last]. rewrite app_nil_r.
  rewrite filter_app. cbn [filter].
  change (nonBlank EmptyString) with false. cbv iota.
  destruct (filter nonBlank (removelast pieces)) as [|header data].
  - cbn [app]. destruct (nonBlank (last pieces EmptyString)); reflexivity.
  - cbn [app]. rewrite app_nil_r. reflexivity.
Qed.

